(** * NetSuite synchronisation pipeline: a shallow embedding

    The development follows the JavaScript sources of the repository:
    - [utils/netsuiteRequest.js] and the copies of [netsuiteRequest] in the
      sync scripts (rate-limited request helper with 429 retry);
    - the inventory sync script (record fetcher, paginator, transformer,
      orchestration loops);
    - the server file holding [parseNetSuiteDate], [fetchMovementDataForItems]
      and the movement-update handler.

    JavaScript values are embedded as a small universal type, exceptions as an
    explicit result type, and the network, the store and the timers as
    explicit state. *)

From Stdlib Require Import ZArith QArith Qabs String Ascii List Bool Lia.
From stdpp Require Import gmap strings list pretty.

Set Warnings "-register-all".

Local Open Scope string_scope.
Local Open Scope list_scope.
Local Open Scope Z_scope.

(** ** JavaScript values *)

Module Js.

(** A JavaScript number.  Finite values are kept as exact rationals in
    lowest terms: the rounding of a finite value to the nearest binary64 is
    not modelled, and neither is the sign of zero. *)
Inductive Num : Type :=
| NaN
| PosInf
| NegInf
| Fin (q : Q).

(** A [Date] object: the invalid date, local midnight of a day counted in
    days since 1970-01-01 (a date built from calendar fields), or an instant
    read from the clock. *)
Inductive Date : Type :=
| InvalidDate
| DateAt (day : Z)
| Instant (time : Z).

(** The built-in prototypes a value of the model can inherit from. *)
Inductive Kind : Type := PlainObject | ArrayObject | DateObject.

(** Values as they arrive from [JSON.parse], plus [undefined] and [Date]
    objects.  Objects keep their own keys in order.  Two further sorts of
    value are reached only by reading an inherited member: a built-in
    function ([Fn]) and a built-in prototype object ([Proto]). *)
Inductive Val : Type :=
| Undefined
| Null
| Bool (b : bool)
| Number (n : Num)
| Str (s : string)
| Arr (xs : list Val)
| Obj (fields : list (string * Val))
| DateV (d : Date)
| Fn
| Proto (kind : Kind).

(** A thrown error: [err.response?.status] and [err.message]. *)
Record Exn : Type := mkExn { exn_status : option Z; exn_message : string }.

Definition TypeError (msg : string) : Exn := mkExn None msg.

Inductive Result (A : Type) : Type :=
| Ok (a : A)
| Throw (e : Exn).
Arguments Ok {A} a.
Arguments Throw {A} e.

Definition rbind {A B} (r : Result A) (k : A -> Result B) : Result B :=
  match r with
  | Ok a => k a
  | Throw e => Throw e
  end.

Definition int (z : Z) : Num := Fin (inject_Z z).
Definition zero : Val := Number (int 0).

Definition num_is_finite (n : Num) : bool :=
  match n with Fin _ => true | _ => false end.

(** Global [isNaN] on a number. *)
Definition isNaN (n : Num) : bool :=
  match n with NaN => true | _ => false end.

(** ToBoolean. *)
Definition truthy (v : Val) : bool :=
  match v with
  | Undefined | Null => false
  | Bool b => b
  | Number NaN => false
  | Number (Fin q) => negb (Qeq_bool q 0)
  | Number _ => true
  | Str s => negb (String.eqb s "")
  | Arr _ | Obj _ | DateV _ | Fn | Proto _ => true
  end.

(** [a || b] on values. *)
Definition or_else (a b : Val) : Val := if truthy a then a else b.

(** [typeof v === 'object'] (true of [null] as well, false of a
    function). *)
Definition typeof_object (v : Val) : bool :=
  match v with
  | Null | Arr _ | Obj _ | DateV _ | Proto _ => true
  | _ => false
  end.

Fixpoint assoc (k : string) (fs : list (string * Val)) : option Val :=
  match fs with
  | [] => None
  | (k', v) :: rest => if String.eqb k k' then Some v else assoc k rest
  end.

(** ** Characters and digit strings *)

Definition is_digit (c : ascii) : bool :=
  let n := nat_of_ascii c in (48 <=? n)%nat && (n <=? 57)%nat.

Definition digit_val (c : ascii) : Z := Z.of_nat (nat_of_ascii c) - 48.

(** Strings are sequences of bytes holding UTF-8.  The white space and
    line terminators of ECMAScript (WhiteSpace, LineTerminator) are, in one
    byte, TAB, LF, VT, FF, CR and SP; in two bytes U+00A0; in three bytes
    U+1680, U+2000 to U+200A, U+2028, U+2029, U+202F, U+205F, U+3000 and
    U+FEFF. *)
Definition is_space (c : ascii) : bool :=
  let n := nat_of_ascii c in
  ((9 <=? n)%nat && (n <=? 13)%nat) || (n =? 32)%nat.

Definition is_space2 (c1 c2 : ascii) : bool :=
  (nat_of_ascii c1 =? 194)%nat && (nat_of_ascii c2 =? 160)%nat.

Definition is_space3 (c1 c2 c3 : ascii) : bool :=
  let n1 := nat_of_ascii c1 in
  let n2 := nat_of_ascii c2 in
  let n3 := nat_of_ascii c3 in
  ((n1 =? 225)%nat && (n2 =? 154)%nat && (n3 =? 128)%nat)
  || ((n1 =? 226)%nat && (n2 =? 128)%nat
      && (((128 <=? n3)%nat && (n3 <=? 138)%nat)
          || (n3 =? 168)%nat || (n3 =? 169)%nat || (n3 =? 175)%nat))
  || ((n1 =? 226)%nat && (n2 =? 129)%nat && (n3 =? 159)%nat)
  || ((n1 =? 227)%nat && (n2 =? 128)%nat && (n3 =? 128)%nat)
  || ((n1 =? 239)%nat && (n2 =? 187)%nat && (n3 =? 191)%nat).

(** What is left once the leading white space is skipped, as [parseFloat]
    and [parseInt] do (TrimString, at the start). *)
Fixpoint trim_start (s : string) : string :=
  match s with
  | String c1 r1 =>
      if is_space c1 then trim_start r1
      else
        match r1 with
        | String c2 r2 =>
            if is_space2 c1 c2 then trim_start r2
            else
              match r2 with
              | String c3 r3 =>
                  if is_space3 c1 c2 c3 then trim_start r3 else s
              | EmptyString => s
              end
        | EmptyString => s
        end
  | EmptyString => EmptyString
  end.

(** The longest prefix of decimal digits, and what follows it. *)
Fixpoint take_digits (s : string) : string * string :=
  match s with
  | String c r =>
      if is_digit c
      then let '(ds, rest) := take_digits r in (String c ds, rest)
      else (EmptyString, s)
  | EmptyString => (EmptyString, EmptyString)
  end.

Fixpoint digits_value_from (acc : Z) (ds : string) : Z :=
  match ds with
  | String c r => digits_value_from (acc * 10 + digit_val c) r
  | EmptyString => acc
  end.

Definition digits_value (ds : string) : Z := digits_value_from 0 ds.

(** An optional sign: [true] for a leading minus. *)
Definition take_sign (s : string) : bool * string :=
  match s with
  | String "-" r => (true, r)
  | String "+" r => (false, r)
  | _ => (false, s)
  end.

Fixpoint starts_with (p s : string) : bool :=
  match p, s with
  | EmptyString, _ => true
  | String a p', String b s' => Ascii.eqb a b && starts_with p' s'
  | String _ _, EmptyString => false
  end.

(** [String.prototype.split] on a one-character separator: never empty. *)
Fixpoint split_on (sep : ascii) (s : string) : list string :=
  match s with
  | EmptyString => [EmptyString]
  | String c r =>
      if Ascii.eqb c sep then EmptyString :: split_on sep r
      else match split_on sep r with
           | p :: ps => String c p :: ps
           | [] => [String c EmptyString]
           end
  end.

(** A canonical array index written as a property key: ["0"], ["17"]. *)
Definition index_of_key (k : string) : option nat :=
  match take_digits k with
  | (String c r, EmptyString) =>
      if Ascii.eqb c "0" && negb (String.eqb r "") then None
      else Some (Z.to_nat (digits_value (String c r)))
  | _ => None
  end.

(** ** Property access *)

(** The string-keyed members of [Object.prototype], [Array.prototype]
    (its [length] apart) and [Date.prototype], as of ECMAScript 2023 with
    its Annex B. *)
Definition object_prototype_names : list string :=
  ["constructor"; "__defineGetter__"; "__defineSetter__"; "hasOwnProperty";
   "__lookupGetter__"; "__lookupSetter__"; "isPrototypeOf";
   "propertyIsEnumerable"; "toString"; "valueOf"; "__proto__";
   "toLocaleString"].

Definition array_prototype_names : list string :=
  ["constructor"; "at"; "concat"; "copyWithin"; "fill"; "find"; "findIndex";
   "findLast"; "findLastIndex"; "lastIndexOf"; "pop"; "push"; "reverse";
   "shift"; "unshift"; "slice"; "sort"; "splice"; "includes"; "indexOf";
   "join"; "keys"; "entries"; "values"; "forEach"; "filter"; "flat";
   "flatMap"; "map"; "every"; "some"; "reduce"; "reduceRight";
   "toLocaleString"; "toString"; "toReversed"; "toSorted"; "toSpliced";
   "with"].

Definition date_prototype_names : list string :=
  ["constructor"; "toString"; "toDateString"; "toTimeString"; "toISOString";
   "toUTCString"; "toGMTString"; "getDate"; "setDate"; "getDay";
   "getFullYear"; "setFullYear"; "getHours"; "setHours"; "getMilliseconds";
   "setMilliseconds"; "getMinutes"; "setMinutes"; "getMonth"; "setMonth";
   "getSeconds"; "setSeconds"; "getTime"; "setTime"; "getTimezoneOffset";
   "getUTCDate"; "setUTCDate"; "getUTCDay"; "getUTCFullYear";
   "setUTCFullYear"; "getUTCHours"; "setUTCHours"; "getUTCMilliseconds";
   "setUTCMilliseconds"; "getUTCMinutes"; "setUTCMinutes"; "getUTCMonth";
   "setUTCMonth"; "getUTCSeconds"; "setUTCSeconds"; "valueOf"; "getYear";
   "setYear"; "toJSON"; "toLocaleString"; "toLocaleDateString";
   "toLocaleTimeString"].

Definition prototype_names (kind : Kind) : list string :=
  match kind with
  | PlainObject => object_prototype_names
  | ArrayObject => array_prototype_names
  | DateObject => date_prototype_names
  end.

Definition names_include (names : list string) (k : string) : bool :=
  existsb (String.eqb k) names.

(** What an object whose prototype is the one of [kind] inherits under the
    name [k]: the prototype itself under [__proto__], a function under every
    other name found on the chain. *)
Definition inherited (kind : Kind) (k : string) : option Val :=
  if String.eqb k "__proto__" then Some (Proto kind)
  else if names_include (prototype_names kind) k
          || names_include object_prototype_names k
  then Some Fn
  else None.

(** The members of a built-in prototype object: its own and, for
    [Array.prototype] and [Date.prototype], those of [Object.prototype]
    behind it. *)
Definition proto_member (kind : Kind) (k : string) : option Val :=
  if String.eqb k "__proto__"
  then Some (match kind with PlainObject => Null | _ => Proto PlainObject end)
  else match kind with
       | ArrayObject =>
           if String.eqb k "length" then Some zero
           else inherited ArrayObject k
       | _ => inherited kind k
       end.

(** The member [k] of an object, own or inherited; [None] when [k in v] is
    false.  The members of a function are left out: no code path looks into
    one. *)
Definition member (v : Val) (k : string) : option Val :=
  match v with
  | Obj fs =>
      match assoc k fs with
      | Some x => Some x
      | None => inherited PlainObject k
      end
  | Arr xs =>
      if String.eqb k "length" then Some (Number (int (Z.of_nat (length xs))))
      else match index_of_key k with
           | Some i => match nth_error xs i with
                       | Some x => Some x
                       | None => inherited ArrayObject k
                       end
           | None => inherited ArrayObject k
           end
  | DateV _ => inherited DateObject k
  | Proto kind => proto_member kind k
  | _ => None
  end.

(** [k in v]: a TypeError unless [v] is an object. *)
Definition has_property (k : string) (v : Val) : Result bool :=
  match v with
  | Obj _ | Arr _ | DateV _ | Proto _ | Fn =>
      Ok (match member v k with Some _ => true | None => false end)
  | _ => Throw (TypeError "Cannot use 'in' operator")
  end.

(** [v[k]] and [v.k]: a TypeError on [null] and [undefined].  Of the members
    of a primitive only the length and the characters of a string are
    modelled. *)
Definition get (v : Val) (k : string) : Result Val :=
  match v with
  | Undefined | Null => Throw (TypeError "Cannot read properties")
  | Obj _ | Arr _ | DateV _ | Proto _ | Fn =>
      Ok (match member v k with Some x => x | None => Undefined end)
  | Str s =>
      if String.eqb k "length"
      then Ok (Number (int (Z.of_nat (String.length s))))
      else Ok (match index_of_key k with
               | Some i => match String.get i s with
                           | Some c => Str (String c EmptyString)
                           | None => Undefined
                           end
               | None => Undefined
               end)
  | _ => Ok Undefined
  end.

(** [v?.k]. *)
Definition get_opt (v : Val) (k : string) : Val :=
  match get v k with
  | Ok x => x
  | Throw _ => Undefined
  end.

(** [v === "s"]. *)
Definition is_str (s : string) (v : Val) : bool :=
  match v with
  | Str t => String.eqb t s
  | _ => false
  end.

(** [v === true] and [v === false]. *)
Definition is_true (v : Val) : bool :=
  match v with Bool true => true | _ => false end.
Definition is_false (v : Val) : bool :=
  match v with Bool false => true | _ => false end.

Fixpoint contains (needle s : string) : bool :=
  starts_with needle s
  || match s with
     | String _ r => contains needle r
     | EmptyString => false
     end.

(** [v?.includes(needle)]: strings search a substring, arrays an element;
    anything else that is not nullish has no such method. *)
Definition includes_opt (v : Val) (needle : string) : Result bool :=
  match v with
  | Undefined | Null => Ok false
  | Str s => Ok (contains needle s)
  | Arr xs => Ok (existsb (is_str needle) xs)
  | _ => Throw (TypeError "includes is not a function")
  end.

Fixpoint chars (s : string) : list Val :=
  match s with
  | String c r => Str (String c EmptyString) :: chars r
  | EmptyString => []
  end.

(** The elements visited by [for (const x of v)]. *)
Definition iterate (v : Val) : Result (list Val) :=
  match v with
  | Arr xs => Ok xs
  | Str s => Ok (chars s)
  | _ => Throw (TypeError "not iterable")
  end.

Fixpoint indexed_from (i : nat) (xs : list Val) : list (string * Val) :=
  match xs with
  | [] => []
  | x :: rest => (pretty i, x) :: indexed_from (S i) rest
  end.

(** The own enumerable members copied by [{...v}]. *)
Definition spread (v : Val) : list (string * Val) :=
  match v with
  | Obj fs => fs
  | Arr xs => indexed_from 0 xs
  | Str s => indexed_from 0 (chars s)
  | _ => []
  end.

(** Writing a member of an object literal: an existing key keeps its
    place. *)
Fixpoint set_field (k : string) (v : Val) (fs : list (string * Val))
  : list (string * Val) :=
  match fs with
  | [] => [(k, v)]
  | (k', v') :: rest =>
      if String.eqb k k' then (k, v) :: rest else (k', v') :: set_field k v rest
  end.

Definition set_fields (kvs fs : list (string * Val)) : list (string * Val) :=
  fold_left (fun acc kv => set_field (fst kv) (snd kv) acc) kvs fs.

(** ** [parseFloat] and [parseInt] *)

(** Values at or above [2^1024 - 2^970] in magnitude round to an infinity. *)
Definition overflow_bound : Q := inject_Z (2 ^ 1024 - 2 ^ 970).

Definition round_overflow (q : Q) : Num :=
  if Qle_bool overflow_bound (Qabs q)
  then (if Qle_bool 0 q then PosInf else NegInf)
  else Fin (Qred q).

(** [m * 10^e] as a rational. *)
Definition scale10 (m e : Z) : Q :=
  if 0 <=? e then inject_Z (m * 10 ^ e)
  else Qmake m (Z.to_pos (10 ^ (- e))).

(** The exponent part [e±ddd], read only when a digit follows. *)
Definition take_exponent (s : string) : Z :=
  match s with
  | String c r =>
      if Ascii.eqb c "e" || Ascii.eqb c "E" then
        let '(neg, r1) := take_sign r in
        match take_digits r1 with
        | (EmptyString, _) => 0
        | (ds, _) => if neg then - digits_value ds else digits_value ds
        end
      else 0
  | EmptyString => 0
  end.

(** [parseFloat]: the longest prefix that is a decimal literal, after
    leading white space; [NaN] when there is none. *)
Definition parseFloat (input : string) : Num :=
  let s := trim_start input in
  let '(neg, s1) := take_sign s in
  if starts_with "Infinity" s1 then (if neg then NegInf else PosInf)
  else
    let '(ip, s2) := take_digits s1 in
    let '(fp, s3) :=
      match s2 with
      | String "." r => take_digits r
      | _ => (EmptyString, s2)
      end in
    if String.eqb ip "" && String.eqb fp "" then NaN
    else
      let e := take_exponent s3 in
      let m := digits_value (ip ++ fp)%string in
      let q := scale10 m (e - Z.of_nat (String.length fp)) in
      round_overflow (if neg then Qopp q else q).

(** [parseInt(s, 10)]. *)
Definition parseInt10 (input : string) : Num :=
  let s := trim_start input in
  let '(neg, s1) := take_sign s in
  match take_digits s1 with
  | (EmptyString, _) => NaN
  | (ds, _) =>
      round_overflow (inject_Z (if neg then - digits_value ds else digits_value ds))
  end.

(** [parseInt(s)] without a radix: hexadecimal after [0x], decimal
    otherwise. *)
Definition hex_val (c : ascii) : option Z :=
  let n := nat_of_ascii c in
  if is_digit c then Some (Z.of_nat n - 48)
  else if (97 <=? n)%nat && (n <=? 102)%nat then Some (Z.of_nat n - 87)
  else if (65 <=? n)%nat && (n <=? 70)%nat then Some (Z.of_nat n - 55)
  else None.

(** The value of the longest prefix of hexadecimal digits, if any. *)
Fixpoint hex_value_from (acc : option Z) (s : string) : option Z :=
  match s with
  | String c r =>
      match hex_val c with
      | Some d => hex_value_from (Some (default 0 acc * 16 + d)) r
      | None => acc
      end
  | EmptyString => acc
  end.

Definition parseInt (input : string) : Num :=
  let s := trim_start input in
  let '(neg, s1) := take_sign s in
  if starts_with "0x" s1 || starts_with "0X" s1 then
    match s1 with
    | String _ (String _ digits) =>
        match hex_value_from None digits with
        | Some v => round_overflow (inject_Z (if neg then - v else v))
        | None => NaN
        end
    | _ => NaN
    end
  else parseInt10 input.

(** ** Addition *)

Definition num_add (a b : Num) : Num :=
  match a, b with
  | NaN, _ | _, NaN => NaN
  | PosInf, NegInf | NegInf, PosInf => NaN
  | PosInf, _ | _, PosInf => PosInf
  | NegInf, _ | _, NegInf => NegInf
  | Fin x, Fin y => round_overflow (x + y)
  end.

(** ToNumber on the primitives that are not strings. *)
Definition to_number (v : Val) : Num :=
  match v with
  | Null => int 0
  | Bool b => int (if b then 1 else 0)
  | Number n => n
  | _ => NaN
  end.

Definition adds_as_string (v : Val) : bool :=
  match v with
  | Str _ | Arr _ | Obj _ | DateV _ | Fn | Proto _ => true
  | _ => false
  end.

(** ** Conversion to a string *)

(** ToString and ToPrimitive call the [toString] of an object and then its
    [valueOf].  The values of the model are those of parsed JSON, whose own
    members are never functions: an object that has a [toString] member of
    its own can therefore not be converted (the inherited [valueOf] returns
    the object itself), and the conversion throws a TypeError.  An array is
    joined, which converts its elements. *)
Fixpoint coercible (v : Val) : bool :=
  match v with
  | Obj fields =>
      match assoc "toString" fields with
      | Some _ => false
      | None => true
      end
  | Arr xs => forallb coercible xs
  | _ => true
  end.

(** ToString: [to_str] is the text of a value that can be converted. *)
Definition ToString (to_str : Val -> string) (v : Val) : Result string :=
  if coercible v then Ok (to_str v)
  else Throw (TypeError "Cannot convert object to primitive value").

(** [a + b]: string concatenation as soon as an operand is a string or an
    object, numeric addition otherwise. *)
Definition add (to_str : Val -> string) (a b : Val) : Result Val :=
  if adds_as_string a || adds_as_string b
  then rbind (ToString to_str a)
         (fun sa => rbind (ToString to_str b)
                      (fun sb => Ok (Str (sa ++ sb)%string)))
  else Ok (Number (num_add (to_number a) (to_number b))).

(** ** [new Date(year, monthIndex, day)] *)

(** Days since 1970-01-01 of a proleptic Gregorian date, [m] in 1..12. *)
Definition days_from_civil (y m d : Z) : Z :=
  let y' := if m <=? 2 then y - 1 else y in
  let era := y' / 400 in
  let yoe := y' - era * 400 in
  let mp := if 2 <? m then m - 3 else m + 9 in
  let doy := (153 * mp + 2) / 5 + d - 1 in
  let doe := yoe * 365 + yoe / 4 - yoe / 100 + doy in
  era * 146097 + doe - 719468.

(** The calendar date of a day number. *)
Definition civil_from_days (z : Z) : Z * Z * Z :=
  let z' := z + 719468 in
  let era := z' / 146097 in
  let doe := z' - era * 146097 in
  let yoe := (doe - doe / 1460 + doe / 36524 - doe / 146096) / 365 in
  let y := yoe + era * 400 in
  let doy := doe - (365 * yoe + yoe / 4 - yoe / 100) in
  let mp := (5 * doy + 2) / 153 in
  let d := doy - (153 * mp + 2) / 5 + 1 in
  let m := if mp <? 10 then mp + 3 else mp - 9 in
  ((if m <=? 2 then y + 1 else y), m, d).

(** ToIntegerOrInfinity on a finite number: truncation towards zero. *)
Definition trunc (q : Q) : Z := Z.quot (Qnum q) (Zpos (Qden q)).

(** MakeDay: months and days out of range carry over. *)
Definition MakeDay (year month date : Z) : Z :=
  days_from_civil (year + month / 12) (month mod 12 + 1) 1 + date - 1.

(** The time value is clipped at 100,000,000 days either side of the epoch
    (the local time-zone offset is taken as zero at that boundary). *)
Definition new_Date (year month day : Num) : Date :=
  match year, month, day with
  | Fin y, Fin m, Fin d =>
      let yi := trunc y in
      let yr := if (0 <=? yi) && (yi <=? 99) then 1900 + yi else yi in
      let dn := MakeDay yr (trunc m) (trunc d) in
      if Z.abs dn <=? 100000000 then DateAt dn else InvalidDate
  | _, _, _ => InvalidDate
  end.

End Js.

Import Js.

Notation "'let*' x ':=' r 'in' k" := (rbind r (fun x => k))
  (at level 10, x name, r at level 100, k at level 200).

(** ** Transformer helpers *)

Module Transformer.

(** The [for] loop of [extractValue]: [inl r] is an early [return r],
    [inr v] the value reached when the path is exhausted. *)
Fixpoint extractValue_walk (fields : list string) (value : Val)
  : Result (Val + Val) :=
  match fields with
  | [] => Ok (inr value)
  | field :: rest =>
      let* present :=
        (if truthy value && typeof_object value
         then has_property field value else Ok false) in
      if present : bool
      then let* next := get value field in extractValue_walk rest next
      else Ok (inl (Str ""))
  end.

Definition extractValue (data : Val) (fieldPath : string) : Result Val :=
  let fields := split_on "." fieldPath in
  let* walked := extractValue_walk fields data in
  match walked with
  | inl early => Ok early
  | inr value =>
      let* hasRef :=
        (if truthy value && typeof_object value
         then has_property "refName" value else Ok false) in
      if hasRef : bool
      then let* refName := get value "refName" in Ok (or_else refName (Str ""))
      else Ok (or_else value (Str ""))
  end.

Definition extractNumericValue (data : Val) (fieldName : string) : Result Num :=
  let* present :=
    (if truthy data then has_property fieldName data else Ok false) in
  if present : bool then
    let* value := get data fieldName in
    match value with
    | Null | Undefined => Ok (int 0)
    | Number n => Ok n
    | Str s => let parsed := parseFloat s in
               Ok (if isNaN parsed then int 0 else parsed)
    | _ => Ok (int 0)
    end
  else Ok (int 0).

(** *** [transformInventoryData] *)

(** The variables assigned in the [try] block. *)
Record Parsed : Type := mkParsed {
  t_price : Val;
  t_currency : Val;
  t_tradePrice : Val;
  t_retailPrice : Val;
  t_locations : Val;
  t_totalQuantity : Val;
  t_createdDate : Val;
  t_lastModifiedDate : Val
}.

Definition parsed_defaults : Parsed :=
  mkParsed zero (Str "HKD") zero zero (Arr []) zero Null Null.

(** The members of the canonical record that are read straight from the
    upstream record: by dotted path through [extractValue], or as
    [netSuiteData.key || fallback]. *)
Inductive Source : Type :=
| Path (fieldPath : string)
| Direct (key : string) (fallback : Val).

Definition descriptive_fields : list (string * Source) :=
  [("omtisId", Path "custitem_wineid");
   ("unitType", Path "unitsType.refName");
   ("itemName", Direct "itemId" (Str ""));
   ("replenishmentId", Path "custitem86");
   ("purchaseDescription", Direct "purchaseDescription" (Str ""));
   ("productDescription", Path "custitem_product_desc");
   ("inventoryCategory", Path "custitem_inventory_category.refName");
   ("inventorySubcategory", Path "custitem_inventory_subcategory.refName");
   ("omtisWineCategory", Path "custitem20.refName");
   ("producer", Path "custitem15.refName");
   ("omtisNameDetail", Path "custitemliveexwinename");
   ("omtisName", Path "custitem26.refName");
   ("classification", Path "custitem_classification.refName");
   ("vintage", Path "custitem3");
   ("appellation", Path "custitem_wine_appellation.refName");
   ("bottleSize", Path "custitem19.refName");
   ("subRegion", Path "custitem_sub_region.refName");
   ("itemWeight", Direct "weight" zero);
   ("weightUnit", Path "weightUnit.refName");
   ("region", Path "custitem_region.refName");
   ("country", Path "custitem9.refName");
   ("type", Path "custitem_type.refName")].

Definition read_source (netSuiteData : Val) (src : Source) : Result Val :=
  match src with
  | Path fieldPath => extractValue netSuiteData fieldPath
  | Direct key fallback =>
      let* v := get netSuiteData key in Ok (or_else v fallback)
  end.

Fixpoint read_fields (netSuiteData : Val) (fields : list (string * Source))
  : Result (list (string * Val)) :=
  match fields with
  | [] => Ok []
  | (name, src) :: rest =>
      let* v := read_source netSuiteData src in
      let* vs := read_fields netSuiteData rest in
      Ok ((name, v) :: vs)
  end.

Section Transform.

(** The text of a value that ToString can convert, the date that
    [new Date(value)] builds from a value it can convert to a primitive,
    and [JSON.stringify(value)]. *)
Variable to_str : Val -> string.
Variable Date_of : Val -> Date.
Variable stringify : Val -> string.

(** [new Date(value)]: the value is first converted to a primitive. *)
Definition new_Date_of (value : Val) : Result Val :=
  if coercible value then Ok (DateV (Date_of value))
  else Throw (TypeError "Cannot convert object to primitive value").

Definition parse_price (d : Val) (p : Parsed) : Result Parsed :=
  let* pd := get d "priceData" in
  if truthy pd then
    let* price := get pd "price" in
    let* currency := get pd "currency" in
    let* tradePrice := get pd "tradePrice" in
    let* retailPrice := get pd "retailPrice" in
    Ok (mkParsed (or_else price zero) (or_else currency (Str "HKD"))
                 (or_else tradePrice zero) (or_else retailPrice zero)
                 (t_locations p) (t_totalQuantity p)
                 (t_createdDate p) (t_lastModifiedDate p))
  else Ok p.

Definition parse_locations (d : Val) (p : Parsed) : Result Parsed :=
  let* locationsData := get d "locationsData" in
  if truthy locationsData then
    let* totalQuantity := get d "totalQuantity" in
    Ok (mkParsed (t_price p) (t_currency p) (t_tradePrice p) (t_retailPrice p)
                 locationsData (or_else totalQuantity zero)
                 (t_createdDate p) (t_lastModifiedDate p))
  else Ok p.

Definition parse_created (d : Val) (p : Parsed) : Result Parsed :=
  let* createdDate := get d "createdDate" in
  if truthy createdDate then
    let* date := new_Date_of createdDate in
    Ok (mkParsed (t_price p) (t_currency p) (t_tradePrice p) (t_retailPrice p)
                 (t_locations p) (t_totalQuantity p)
                 date (t_lastModifiedDate p))
  else Ok p.

Definition parse_modified (d : Val) (p : Parsed) : Result Parsed :=
  let* lastModifiedDate := get d "lastModifiedDate" in
  if truthy lastModifiedDate then
    let* date := new_Date_of lastModifiedDate in
    Ok (mkParsed (t_price p) (t_currency p) (t_tradePrice p) (t_retailPrice p)
                 (t_locations p) (t_totalQuantity p)
                 (t_createdDate p) date)
  else Ok p.

(** The [try] block: the statements run in order, and the first one that
    throws ends the block with what was assigned before it. *)
Fixpoint try_statements (steps : list (Parsed -> Result Parsed)) (p : Parsed)
  : Parsed :=
  match steps with
  | [] => p
  | step :: rest =>
      match step p with
      | Ok p' => try_statements rest p'
      | Throw _ => p
      end
  end.

(** The five [console.log] lines before the [return]: their template
    literals convert the identifier and the two prices to strings (the two
    numbers always convert). *)
Definition log_financial_data (netSuiteData : Val) (p : Parsed) : Result unit :=
  let* internalId := get netSuiteData "internalId" in
  let* id := get netSuiteData "id" in
  let* _ := ToString to_str (or_else internalId id) in
  let* _ := ToString to_str (t_tradePrice p) in
  let* _ := ToString to_str (t_retailPrice p) in
  Ok tt.

(** [netSuiteData.internalId || parseInt(netSuiteData.id) || 0]. *)
Definition internalId_of (netSuiteData : Val) : Result Val :=
  let* internalId := get netSuiteData "internalId" in
  if truthy internalId then Ok internalId
  else
    let* id := get netSuiteData "id" in
    let* text := ToString to_str id in
    Ok (or_else (Number (parseInt text)) zero).

(** [transformInventoryData(netSuiteData)]; [rawData] is the member that
    only [scripts/syncInventory.js] writes, [now] the clock read by
    [new Date()]. *)
Definition transformInventoryData (rawData : bool) (now : Z) (netSuiteData : Val)
  : Result (list (string * Val)) :=
  let p := try_statements
             [parse_price netSuiteData; parse_locations netSuiteData;
              parse_created netSuiteData; parse_modified netSuiteData]
             parsed_defaults in
  let* averageCost := extractNumericValue netSuiteData "averageCost" in
  let* totalValue := extractNumericValue netSuiteData "totalValue" in
  let* _ := log_financial_data netSuiteData p in
  let* internalId := internalId_of netSuiteData in
  let* described := read_fields netSuiteData descriptive_fields in
  Ok ([("internalId", internalId)]
      ++ described
      ++ [("price", t_price p);
          ("currency", t_currency p);
          ("pricing", Obj [("tradePrice", t_tradePrice p);
                           ("retailPrice", t_retailPrice p)]);
          ("locations", t_locations p);
          ("totalQuantity", t_totalQuantity p);
          ("averageCost", Number averageCost);
          ("totalValue", Number totalValue);
          ("createdDate", t_createdDate p);
          ("lastModifiedDate", t_lastModifiedDate p)]
      ++ (if rawData then [("rawData", Str (stringify netSuiteData))] else [])
      ++ [("lastSynced", DateV (Instant now))]).

(** The variables as the [try] block leaves them. *)
Definition parsed_of (netSuiteData : Val) : Parsed :=
  try_statements
    [parse_price netSuiteData; parse_locations netSuiteData;
     parse_created netSuiteData; parse_modified netSuiteData]
    parsed_defaults.

(** A record whose log lines can be written: the identifier and the two
    prices can be converted to strings. *)
Definition printable (netSuiteData : Val) : bool :=
  coercible (or_else (get_opt netSuiteData "internalId") (get_opt netSuiteData "id"))
  && coercible (t_tradePrice (parsed_of netSuiteData))
  && coercible (t_retailPrice (parsed_of netSuiteData)).

End Transform.

(** What a dotted path denotes for [in]: the member reached segment by
    segment, own or inherited, [None] as soon as a segment is not found.
    Only a value of type object is looked into. *)
Definition member_of_object (v : Val) (k : string) : option Val :=
  if typeof_object v then member v k else None.

Fixpoint lookup_path (fields : list string) (v : Val) : option Val :=
  match fields with
  | [] => Some v
  | field :: rest =>
      match member_of_object v field with
      | Some next => lookup_path rest next
      | None => None
      end
  end.

(** What a record itself holds under a name, and under a dotted path:
    the keys of an object, the elements and the length of an array. *)
Definition stored (v : Val) (k : string) : option Val :=
  match v with
  | Obj fs => assoc k fs
  | Arr xs =>
      if String.eqb k "length" then Some (Number (int (Z.of_nat (length xs))))
      else match index_of_key k with
           | Some i => nth_error xs i
           | None => None
           end
  | _ => None
  end.

Fixpoint stored_path (fields : list string) (v : Val) : option Val :=
  match fields with
  | [] => Some v
  | field :: rest =>
      match stored v field with
      | Some next => stored_path rest next
      | None => None
      end
  end.

(** A name that no built-in prototype defines. *)
Definition plain_name (k : string) : bool :=
  negb (names_include object_prototype_names k
        || names_include array_prototype_names k
        || names_include date_prototype_names k).

(** A value made of data only: no function and no prototype object in
    it. *)
Fixpoint is_data (v : Val) : bool :=
  match v with
  | Fn | Proto _ => false
  | Arr xs => forallb is_data xs
  | Obj fs => forallb (fun kv => is_data (snd kv)) fs
  | _ => true
  end.

End Transformer.

Import Transformer.

(** ** The DD/MM/YYYY parser of the movement feed *)

Module MovementDate.

(** [n - 1] on numbers. *)
Definition num_pred (n : Num) : Num :=
  match n with
  | Fin q => Fin (Qred (q - 1))
  | other => other
  end.

(** [dateString.split('/')]: only strings have the method. *)
Definition split_slash (dateString : Val) : Result (list string) :=
  match dateString with
  | Str s => Ok (split_on "/" s)
  | _ => Throw (TypeError "dateString.split is not a function")
  end.

(** The body of the [try] block: [Some d] is [return d], [None] falls
    through to the final [return null]. *)
Definition parseNetSuiteDate_try (dateString : Val) : Result (option Val) :=
  let* parts := split_slash dateString in
  match parts with
  | [p0; p1; p2] =>
      let day := parseInt10 p0 in
      let month := num_pred (parseInt10 p1) in
      let year := parseInt10 p2 in
      Ok (Some (DateV (new_Date year month day)))
  | _ => Ok None
  end.

(** The [catch] block logs the input in a template literal, which converts
    it to a string, before the function returns [null]. *)
Definition parseNetSuiteDate_catch (dateString : Val) : Result Val :=
  if coercible dateString then Ok Null
  else Throw (TypeError "Cannot convert object to primitive value").

Definition parseNetSuiteDate (dateString : Val) : Result Val :=
  if negb (truthy dateString) then Ok Null
  else
    match parseNetSuiteDate_try dateString with
    | Ok (Some d) => Ok d
    | Ok None => Ok Null
    | Throw _ => parseNetSuiteDate_catch dateString
    end.

End MovementDate.

Import MovementDate.


(** ** Effects: the upstream API, timers and the request log *)

Module Net.

(** What the code passes to [axios]: the headers are left out (the OAuth
    signature is opaque), the rest is kept. *)
Record Config : Type := mkConfig {
  cfg_method : string;
  cfg_url : Val;
  cfg_data : Val;
  cfg_timeout : Z
}.

Inductive Event : Type :=
| Call (c : Config)
| Sleep (ms : Z).

Section WithUpstream.

(** The upstream API is a state machine of its own: [axios] answers a
    request with [response.data], of type [R], or with a thrown error. *)
Context {W R : Type}.
Variable axios : Config -> W -> Result R * W.

(** What the process keeps besides the upstream: its database and its
    log files, of a type [X] the request helpers never look at. *)
Context {X : Type}.

(** [generateOAuthHeaders(url, method)]: the call into the OAuth library,
    which may throw on a URL it cannot read. *)
Variable generateOAuthHeaders : Val -> string -> Result string.

Record St : Type := mkSt { upstream : W; trace : list Event; host : X }.

Definition M (A : Type) : Type := St -> Result A * St.

Definition ret {A} (a : A) : M A := fun st => (Ok a, st).
Definition throw {A} (e : Exn) : M A := fun st => (Throw e, st).
Definition bind {A B} (m : M A) (k : A -> M B) : M B :=
  fun st => match m st with
            | (Ok a, st') => k a st'
            | (Throw e, st') => (Throw e, st')
            end.
Definition lift {A} (r : Result A) : M A := fun st => (r, st).
Definition try_catch {A} (body : M A) (handler : Exn -> M A) : M A :=
  fun st => match body st with
            | (Ok a, st') => (Ok a, st')
            | (Throw e, st') => handler e st'
            end.

(** [limiter.schedule(() => axios(config))]: the limiter only spaces and
    serialises the calls, each of which is logged. *)
Definition schedule (c : Config) : M R :=
  fun st => let '(r, w) := axios c (upstream st) in
            (r, mkSt w (trace st ++ [Call c]) (host st)).

(** [await new Promise(r => setTimeout(r, ms))]. *)
Definition sleep (ms : Z) : M unit :=
  fun st => (Ok tt, mkSt (upstream st) (trace st ++ [Sleep ms]) (host st)).

(** [netsuiteRequest(config, retries = 3)] of the sync scripts. *)
Fixpoint netsuiteRequest_from (retries : nat) (config : Config) : M R :=
  try_catch (schedule config)
    (fun err =>
       match retries with
       | S fewer =>
           if decide (exn_status err = Some 429) then
             let wait := (4 - Z.of_nat retries) * 5000 in
             bind (sleep wait) (fun _ => netsuiteRequest_from fewer config)
           else throw err
       | O => throw err
       end).

Definition netsuiteRequest (config : Config) : M R :=
  netsuiteRequest_from 3 config.

(** The shared helper of [utils/netsuiteRequest.js]: it signs the request
    inside the scheduled callback, so a signing error is thrown from the
    same [try]. *)
Definition schedule_signed (c : Config) : M R :=
  bind (lift (generateOAuthHeaders (cfg_url c) (cfg_method c)))
       (fun _ => schedule c).

Fixpoint shared_netsuiteRequest_from (retries : nat) (config : Config) : M R :=
  try_catch (schedule_signed config)
    (fun err =>
       match retries with
       | S fewer =>
           if decide (exn_status err = Some 429) then
             let wait := (4 - Z.of_nat retries) * 5000 in
             bind (sleep wait) (fun _ => shared_netsuiteRequest_from fewer config)
           else throw err
       | O => throw err
       end).

Definition shared_netsuiteRequest (config : Config) : M R :=
  shared_netsuiteRequest_from 3 config.

(** Every attempt at [config] is answered with HTTP 429. *)
Definition always_429 (config : Config) : Prop :=
  forall w, exists e w',
    axios config w = (Throw e, w') /\ exn_status e = Some 429.

(** The log of a request that used up its three retries. *)
Definition exhausted_log (config : Config) : list Event :=
  [Call config; Sleep 5000; Call config; Sleep 10000; Call config;
   Sleep 15000; Call config].

(** [j] attempts in a row that are answered with status 429, and take
    the upstream from [w] to [w']. *)
Inductive refused (config : Config) : nat -> W -> W -> Prop :=
| refused_none (w : W) : refused config 0 w w
| refused_once (j : nat) (w w1 w' : W) (e : Exn) :
    axios config w = (Throw e, w1) ->
    exn_status e = Some 429 ->
    refused config j w1 w' ->
    refused config (S j) w w'.

(** The log of [j] refused attempts followed by one more attempt, for a
    request that starts with [retries] retries left. *)
Fixpoint retry_log (config : Config) (retries j : nat) : list Event :=
  match j, retries with
  | S j', S fewer =>
      Call config :: Sleep ((4 - Z.of_nat retries) * 5000)
      :: retry_log config fewer j'
  | _, _ => [Call config]
  end.

(** An event of the GET request for one URL: a call of that URL or a
    wait. *)
Definition request_event (url : Val) (ev : Event) : Prop :=
  ev = Call (mkConfig "GET" url Undefined 30000) \/ exists ms, ev = Sleep ms.

End WithUpstream.

Arguments St : clear implicits.
Arguments M : clear implicits.

(** A computation keeps a property of the host state when the property
    survives it, whether it returns or throws. *)
Definition keeps {W X A : Type} (I : X -> Prop) (m : M W X A) : Prop :=
  forall st r st', m st = (r, st') -> I (host st) -> I (host st').

(** A computation without a result that cannot throw. *)
Definition total {W X : Type} (m : M W X unit) : Prop :=
  forall st, exists st', m st = (Ok tt, st').
Arguments mkSt {W X} upstream trace host.
Arguments upstream {W X} s.
Arguments trace {W X} s.
Arguments host {W X} s.
Arguments ret {W X A} a _.
Arguments throw {W X A} e _.
Arguments bind {W X A B} m k _.
Arguments lift {W X A} r _.
Arguments try_catch {W X A} body handler _.
Arguments sleep {W X} ms _.

End Net.

Import Net.

Notation "'let!' x ':=' m 'in' k" := (bind m (fun x => k))
  (at level 10, x name, m at level 100, k at level 200).

(** ** Record fetcher *)

Module RecordFetcher.

(** The loop variables of [fetchPriceInformation]. *)
Record PriceScan : Type := mkScan {
  price : Val;
  currency : string;
  tradePrice : Val;
  retailPrice : Val;
  hasTradePrice : bool;
  hasRetailPrice : bool
}.

Definition priceData (p : Val) (cur : string) (trade retail : Val) : Val :=
  Obj [("price", p); ("currency", Str cur);
       ("tradePrice", trade); ("retailPrice", retail)].

Definition defaultPriceData : Val := priceData zero "HKD" zero zero.

(** The two [if] statements on a fetched, truthy price detail. *)
Definition price_body (st : PriceScan) (detail : Val) : Result PriceScan :=
  let* name1 := get detail "priceLevelName" in
  let* st1 :=
    (if is_str "WLP (Base)" name1
     then let* p := get detail "price" in
          Ok (mkScan (price st) (currency st) (or_else p zero)
                     (retailPrice st) true (hasRetailPrice st))
     else Ok st) in
  let* name2 := get detail "priceLevelName" in
  if is_str "LPCP (HKD)" name2
  then let* p := get detail "price" in
       Ok (mkScan (or_else p zero) "HKD" (tradePrice st1)
                  (or_else p zero) (hasTradePrice st1) true)
  else Ok st1.

(** [x.links[0].href]. *)
Definition first_href (x : Val) : Result Val :=
  let* links := get x "links" in
  let* first := get links "0" in
  get first "href".

Section WithUpstream.

Context {W X : Type}.
Variable axios : Config -> W -> Result Val * W.
Variable generateOAuthHeaders : Val -> string -> Result string.

(** [netsuiteConfig.baseUrl], and ToString as used by template literals. *)
Variable baseUrl : string.
Variable to_str : Val -> string.

Local Abbreviation M := (Net.M W X).

(** The request every fetcher makes: sign the URL, then GET it through
    [netsuiteRequest] with a 30 s timeout; the result is
    [response.data]. *)
Definition signed_get (url : Val) : M Val :=
  let! _ := lift (generateOAuthHeaders url "GET") in
  netsuiteRequest axios (mkConfig "GET" url Undefined 30000).

Definition fetchPriceDetail (itemId priceDetailUrl : Val) : M Val :=
  try_catch (signed_get priceDetailUrl) (fun _ => ret Null).

Fixpoint price_loop (itemId : Val) (items : list Val) (st : PriceScan)
  : M PriceScan :=
  match items with
  | [] => ret st
  | priceItem :: rest =>
      if hasTradePrice st && hasRetailPrice st then ret st
      else
        let! href := lift (first_href priceItem) in
        let! detail := fetchPriceDetail itemId href in
        if negb (truthy detail) then price_loop itemId rest st
        else
          let! st' := lift (price_body st detail) in
          price_loop itemId rest st'
  end.

(** The currency chosen from the item before the levels are read. *)
Definition initial_currency (itemCurrency : Val) : Result string :=
  let* eur := includes_opt itemCurrency "EUR" in
  if eur : bool then Ok "EUR"
  else let* usd := includes_opt itemCurrency "USD" in
       Ok (if usd : bool then "USD" else "HKD").

(** The [catch] block logs [itemId] in a template literal before it
    returns the defaults. *)
Definition fetchPriceInformation (itemId priceUrl itemCurrency : Val) : M Val :=
  try_catch
    (let! data := signed_get priceUrl in
     let! cur := lift (initial_currency itemCurrency) in
     let! listed := lift (get data "items") in
     let! items := lift (iterate (or_else listed (Arr []))) in
     let! st := price_loop itemId items (mkScan zero cur zero zero false false) in
     let shown :=
       if negb (truthy (price st)) && truthy (tradePrice st)
       then tradePrice st else price st in
     ret (priceData shown (currency st) (tradePrice st) (retailPrice st)))
    (fun _ =>
       let! _ := lift (ToString to_str itemId) in
       ret defaultPriceData).

(** [d.locationId?.toString() || ""]: the call throws when the member
    [toString] is not a function. *)
Definition locationId_string (v : Val) : Result Val :=
  match v with
  | Undefined | Null => Ok (Str "")
  | other => let* text := ToString to_str other in Ok (or_else (Str text) (Str ""))
  end.

Definition fetchLocationDetails (itemId locationUrl : Val) : M Val :=
  try_catch
    (let! d := signed_get locationUrl in
     lift (let* locationId := get d "locationId" in
           let* text := locationId_string locationId in
           let* display := get d "location_display" in
           let* onHand := get d "quantityOnHand" in
           let* available := get d "quantityAvailable" in
           Ok (Obj [("locationId", text);
                    ("location", or_else display (Str ""));
                    ("quantityOnHand", or_else onHand zero);
                    ("quantityAvailable", or_else available zero)])))
    (fun _ => ret Null).

Fixpoint locations_loop (itemId : Val) (items : list Val) (locations : list Val)
  : M (list Val) :=
  match items with
  | [] => ret locations
  | item :: rest =>
      let! href := lift (first_href item) in
      let! loc := fetchLocationDetails itemId href in
      locations_loop itemId rest
        (if truthy loc then locations ++ [loc] else locations)
  end.

Definition fetchItemLocations (itemId locationsUrl : Val) : M (list Val) :=
  try_catch
    (let! data := signed_get locationsUrl in
     let! listed := lift (get data "items") in
     let! items := lift (iterate (or_else listed (Arr []))) in
     locations_loop itemId items [])
    (fun _ => ret []).

(** [locationsData.reduce((sum, loc) => sum + (loc.quantityAvailable || 0), 0)]. *)
Definition sum_available (locationsData : list Val) : Result Val :=
  fold_left
    (fun acc loc =>
       let* sum := acc in
       let* available := get loc "quantityAvailable" in
       add to_str sum (or_else available zero))
    locationsData (Ok zero).

(** [x?.links?.length] as a condition. *)
Definition has_links (x : Val) : bool :=
  truthy (get_opt (get_opt x "links") "length").

(** The enrichment of an item record, common to both copies of
    [fetchInventoryItemDetail]: price, then locations, then the
    assembled record. *)
Definition enrich (itemId data : Val) : M Val :=
  let! priceRef := lift (get data "price") in
  let! priceData :=
    (if has_links priceRef then
       let! href := lift (first_href priceRef) in
       let! cur := lift (get data "currency") in
       fetchPriceInformation itemId href (get_opt cur "refName")
     else ret defaultPriceData) in
  let! locationsRef := lift (get data "locations") in
  let! located :=
    (if has_links locationsRef then
       let! href := lift (first_href locationsRef) in
       let! locationsData := fetchItemLocations itemId href in
       let! total := lift (sum_available locationsData) in
       ret (locationsData, total)
     else ret ([], zero)) in
  ret (Obj (set_fields
              [("priceData", priceData);
               ("locationsData", Arr (fst located));
               ("totalQuantity", snd located)]
              (spread data))).

Definition item_url (itemId : Val) : Val :=
  Str (baseUrl ++ "/inventoryitem/" ++ to_str itemId)%string.

(** The record returned for an inactive item. *)
Definition inactive_record (data : Val) : Val :=
  Obj (set_fields
         [("isInactive", Bool true);
          ("priceData", defaultPriceData);
          ("locationsData", Arr []);
          ("totalQuantity", zero)]
         (spread data)).

End WithUpstream.

End RecordFetcher.


(** ** Paginator *)

Module Paginator.

(** The body of a listing response, as the upstream API documents it:
    [items] (absent reads as the empty list), whether [hasMore === true],
    and [totalResults] when present.  An empty body is the listing with no
    member. *)
Record Listing : Type := mkListing {
  page_items : list Val;
  page_hasMore : bool;
  page_totalResults : option Z
}.

(** The options of a sweep; [maxItems = None] is [null]. *)
Record Options : Type := mkOptions {
  batchSize : Z;
  maxItems : option Z;
  batchDelay : Z
}.

Definition defaultOptions : Options := mkOptions 1000 None 200.

(** The variables of the [while] loop of [fetchAllInventoryItems]. *)
Record Sweep : Type := mkSweep {
  allItems : list Val;
  hasMore : bool;
  offset : Z;
  totalResults : option Z;
  batchNumber : Z
}.

(** How an iteration of the loop ends: by [break] or at its end. *)
Inductive Step : Type :=
| Break (s : Sweep)
| Next (s : Sweep).

(** The loop variables an iteration leaves. *)
Definition after (step : Step) : Sweep :=
  match step with Break s | Next s => s end.

(** [l.slice(0, n)]. *)
Definition slice0 (l : list Val) (n : Z) : list Val :=
  if n <? 0 then firstn (Z.to_nat (Z.of_nat (length l) + n)) l
  else firstn (Z.to_nat n) l.

(** [totalResults || 100000]. *)
Definition expected_total (totalResults : option Z) : Z :=
  match totalResults with
  | Some t => if t =? 0 then 100000 else t
  | None => 100000
  end.

Section WithUpstream.

Context {W X : Type}.
Variable axios : Config -> W -> Result Listing * W.
Variable generateOAuthHeaders : Val -> string -> Result string.
Variable baseUrl : string.
Variable options : Options.

(** [Math.min(batchSize, 1000)]. *)
Definition limit : Z := Z.min (batchSize options) 1000.

(** The cap of [maxItems], if any, lies above [n] items. *)
Definition uncapped (n : nat) : Prop :=
  match maxItems options with
  | None => True
  | Some m => Z.of_nat n < m
  end.

Definition capped (s : Sweep) : bool :=
  match maxItems options with
  | Some m => m <=? Z.of_nat (length (allItems s))
  | None => false
  end.

Definition itemsToFetch (s : Sweep) : Z :=
  match maxItems options with
  | Some m => Z.min limit (m - Z.of_nat (length (allItems s)))
  | None => limit
  end.

Definition page_url (s : Sweep) : Val :=
  Str (baseUrl ++ "/inventoryItem?limit=" ++ pretty (itemsToFetch s)
               ++ "&offset=" ++ pretty (offset s))%string.

(** The log of a sweep whose requests are all served, page after page,
    when [fetched] items are held as the first of the pages is asked for:
    each request asks for [limit] items, or for what is missing to
    [maxItems] if that is less, from the offset [fetched], and a wait of
    [batchDelay] follows a page that reports more. *)
Fixpoint served_log (fetched : Z) (pages : list Listing) : list Event :=
  match pages with
  | [] => []
  | page :: rest =>
      let asked :=
        match maxItems options with
        | None => Z.min (batchSize options) 1000
        | Some m => Z.min (Z.min (batchSize options) 1000) (m - fetched)
        end in
      Call (mkConfig "GET"
              (Str (baseUrl ++ "/inventoryItem?limit=" ++ pretty asked
                            ++ "&offset=" ++ pretty fetched)%string)
              Undefined 30000)
      :: (if page_hasMore page then [Sleep (batchDelay options)] else [])
      ++ served_log (fetched + Z.of_nat (length (page_items page))) rest
  end.

(** The [try] block of one iteration. *)
Definition sweep_try (s : Sweep) : M W X Step :=
  if capped s then
    ret (Break (mkSweep (slice0 (allItems s) (default 0 (maxItems options)))
                        (hasMore s) (offset s) (totalResults s) (batchNumber s)))
  else
    let url := page_url s in
    let! _ := lift (generateOAuthHeaders url "GET") in
    let! page := netsuiteRequest axios (mkConfig "GET" url Undefined 30000) in
    let all := allItems s ++ page_items page in
    let total := match totalResults s with
                 | None => page_totalResults page
                 | Some t => Some t
                 end in
    let! _ :=
      (if page_hasMore page
          && match maxItems options with
             | None => true
             | Some m => Z.of_nat (length all) <? m
             end
       then sleep (batchDelay options) else ret tt) in
    ret (Next (mkSweep all (page_hasMore page)
                       (offset s + Z.of_nat (length (page_items page)))
                       total (batchNumber s + 1))).

(** The [catch] block: skip one page width, and stop once the offset is
    past the expected total. *)
Definition sweep_catch (s : Sweep) : Sweep :=
  let skipped := offset s + limit in
  mkSweep (allItems s)
          (if expected_total (totalResults s) <? skipped then false else hasMore s)
          skipped (totalResults s) (batchNumber s + 1).

Definition sweep_iteration (s : Sweep) : M W X Step :=
  try_catch (sweep_try s) (fun _ => ret (Next (sweep_catch s))).

(** The [while (hasMore)] loop, at most [fuel] iterations of it: [None]
    when the iterations are used up before the loop is left. *)
Fixpoint sweep_loop (fuel : nat) (s : Sweep) : M W X (option (list Val)) :=
  if negb (hasMore s) then ret (Some (allItems s))
  else
    match fuel with
    | O => ret None
    | S fewer =>
        let! step := sweep_iteration s in
        match step with
        | Break s' => ret (Some (allItems s'))
        | Next s' => sweep_loop fewer s'
        end
    end.

Definition fetchAllInventoryItems (fuel : nat) : M W X (option (list Val)) :=
  try_catch (sweep_loop fuel (mkSweep [] true 0 None 0))
            (fun _ => ret (Some [])).

End WithUpstream.

End Paginator.

(** ** The inventory collection *)

Module Store.

(** A stored document is a finite map from field names to values, the
    collection a finite map from the value of the unique key [internalId]
    to documents; [K] is the type of the key values as the database holds
    them.  The model follows what Mongoose does with the calls the code
    makes: the filter value is cast to the type of the key; a plain update
    object is applied field by field, after a member that the schema does
    not declare has been dropped from it (strict mode, the default, which
    the schema leaves on) and the others have been cast to the types of
    their paths; the elements of [locations], which the schema declares as
    an array of sub-documents, are each given an [_id] of their own when
    they are cast; an upsert that inserts starts from the schema defaults;
    and the schema option [timestamps: true] stamps [createdAt] on insert
    and [updatedAt] on every write.  The [_id] and [__v] of the document
    itself are left out. *)
Abbreviation Doc := (gmap string Val).

Definition stamp (now : Z) : Val := DateV (Instant now).

(** The top-level paths that the schema of [InventoryItem] declares. *)
Definition schema_paths : list string :=
  ["internalId"; "itemName"; "omtisId"; "omtisWineCategory";
   "omtisNameDetail"; "omtisName"; "unitType"; "purchaseDescription";
   "productDescription"; "replenishmentId"; "inventoryCategory";
   "inventorySubcategory"; "classification"; "producer"; "vintage"; "type";
   "bottleSize"; "country"; "region"; "subRegion"; "appellation";
   "itemWeight"; "weightUnit"; "price"; "currency"; "pricing";
   "averageCost"; "totalValue"; "locations"; "totalQuantity"; "rawData";
   "lastSynced"; "createdDate"; "lastModifiedDate"].

(** The paths declared as arrays of sub-documents. *)
Definition document_arrays : list string := ["locations"].

(** The members of an update that reach the database: those the schema
    declares. *)
Definition declared (update : list (string * Val)) : list (string * Val) :=
  List.filter (fun kv => names_include schema_paths (fst kv)) update.

(** ObjectIds, numbered in the order they are created. *)
Definition ObjectId (n : nat) : Val := Obj [("$oid", Number (int (Z.of_nat n)))].

(** The sub-documents made of the elements of an array: an element that
    is an object without an [_id] gets a fresh one; [next] is the number of
    the next ObjectId. *)
Fixpoint mint (next : nat) (elements : list Val) : list Val * nat :=
  match elements with
  | [] => ([], next)
  | Obj fields :: rest =>
      match assoc "_id" fields with
      | Some _ =>
          let '(subdocs, after) := mint next rest in
          (Obj fields :: subdocs, after)
      | None =>
          let '(subdocs, after) := mint (S next) rest in
          (Obj (fields ++ [("_id", ObjectId next)]) :: subdocs, after)
      end
  | other :: rest =>
      let '(subdocs, after) := mint next rest in
      (other :: subdocs, after)
  end.

(** A value without the [_id] of the elements of an array. *)
Definition without_ids (v : Val) : Val :=
  match v with
  | Arr elements =>
      Arr (map (fun element =>
                  match element with
                  | Obj fields =>
                      Obj (List.filter (fun kv => negb (String.eqb (fst kv) "_id"))
                                       fields)
                  | other => other
                  end) elements)
  | other => other
  end.

Section WithSchema.

Context {K : Type} `{Countable K}.

(** What Mongoose does by the schema, taken as given: the cast of the
    filter value [{ internalId: id }] to a key (a CastError when it fails)
    and the value a key is stored as; the cast of the value of an update
    for a declared path, sub-document defaults included, before any [_id]
    is added (a CastError when it fails); the validators run on a cast
    update ([runValidators]); and the schema defaults. *)
Variable castKey : Val -> Result K.
Variable key_value : K -> Val.
Variable castPath : string -> Val -> Result Val.
Variable validate : list (string * Val) -> Result unit.
Variable defaults : gmap string Val.

(** The cast of the declared members of an update, in order. *)
Fixpoint cast_fields (next : nat) (fields : list (string * Val))
  : Result (list (string * Val) * nat) :=
  match fields with
  | [] => Ok ([], next)
  | (path, value) :: rest =>
      let* cast := castPath path value in
      let '(stored, after) :=
        match cast with
        | Arr elements =>
            if names_include document_arrays path
            then let '(subdocs, n) := mint next elements in (Arr subdocs, n)
            else (cast, next)
        | _ => (cast, next)
        end in
      let* others := cast_fields after rest in
      Ok ((path, stored) :: fst others, snd others)
  end.

(** [Model.findOneAndUpdate({ internalId: id }, update,
    { upsert: true, new: true, runValidators: true,
      setDefaultsOnInsert: true })]: the document returned, the collection
    and the number of the next ObjectId. *)
Definition findOneAndUpdate (now : Z) (next : nat) (id : Val)
           (update : list (string * Val)) (db : gmap K Doc)
  : Result (Doc * gmap K Doc * nat) :=
  let* key := castKey id in
  let* cast := cast_fields next (declared update) in
  let* _ := validate (fst cast) in
  let written : Doc := list_to_map (fst cast) in
  let doc : Doc :=
    match db !! key with
    | Some old => <["updatedAt" := stamp now]> (written ∪ old)
    | None =>
        <["updatedAt" := stamp now]>
          (written ∪ <["createdAt" := stamp now]>
                       (<["internalId" := key_value key]> defaults))
    end in
  Ok (doc, <[key := doc]> db, snd cast).

(** [Model.updateOne({ internalId: id }, { $set: fields })]: nothing is
    written when no document has the key. *)
Definition updateOne (now : Z) (next : nat) (id : Val) (fields : list (string * Val))
           (db : gmap K Doc) : Result (gmap K Doc * nat) :=
  let* key := castKey id in
  let* cast := cast_fields next (declared fields) in
  let* _ := validate (fst cast) in
  match db !! key with
  | Some old =>
      Ok (<[key := <["updatedAt" := stamp now]> (list_to_map (fst cast) ∪ old)]> db,
          snd cast)
  | None => Ok (db, snd cast)
  end.

(** The same upsert repeated at the given times. *)
Fixpoint upsert_at (times : list Z) (next : nat) (id : Val)
         (update : list (string * Val)) (db : gmap K Doc)
  : Result (gmap K Doc * nat) :=
  match times with
  | [] => Ok (db, next)
  | now :: later =>
      let* written := findOneAndUpdate now next id update db in
      upsert_at later (snd written) id update (snd (fst written))
  end.

(** [Model.find().select('internalId').skip(skip).limit(n).lean()], read
    as the [internalId] of the documents in the collection's own order;
    [limit(0)] is no limit. *)
Definition find_ids (skip limit : nat) (db : gmap K Doc) : list Val :=
  let rest := skipn skip (map_to_list db) in
  map (fun kd => default Undefined (snd kd !! "internalId"))
      (match limit with O => rest | _ => firstn limit rest end).

End WithSchema.

(** Two documents that differ in [updatedAt] at most. *)
Definition same_but_updatedAt (doc old : gmap string Val) : Prop :=
  forall f, f <> "updatedAt" -> doc !! f = old !! f.

(** Two documents that differ at most in [updatedAt] and in the [_id] of
    the elements of their arrays of sub-documents. *)
Definition same_but_updatedAt_and_ids (doc old : gmap string Val) : Prop :=
  forall f, f <> "updatedAt" ->
            if names_include document_arrays f
            then without_ids <$> doc !! f = without_ids <$> old !! f
            else doc !! f = old !! f.

(** Two cast updates with the same paths in the same order, whose values
    differ at most in the [_id] of the elements of the arrays of
    sub-documents. *)
Definition same_fields_but_ids (l l' : list (string * Val)) : Prop :=
  Forall2 (fun a b =>
             fst a = fst b
             /\ if names_include document_arrays (fst a)
                then without_ids (snd a) = without_ids (snd b)
                else snd a = snd b) l l'.

(** What the process keeps: the collection, the error-log file, the
    number of ObjectIds created so far, and the variables [V] of the run in
    progress. *)
Record Host (K : Type) `{Countable K} (V : Type) : Type := mkHost {
  database : gmap K Doc;
  errorLog : list (Val * string);
  minted : nat;
  vars : V
}.
Arguments mkHost {K _ _ V} database errorLog minted vars.
Arguments database {K _ _ V} h.
Arguments errorLog {K _ _ V} h.
Arguments minted {K _ _ V} h.
Arguments vars {K _ _ V} h.

End Store.

(** ** The process: database calls, the log file, the variables of a run *)

Module Process.
Import Store.

Section WithHost.

Context {W V K : Type} `{Countable K}.
Variable castKey : Val -> Result K.
Variable key_value : K -> Val.
Variable castPath : string -> Val -> Result Val.
Variable validate : list (string * Val) -> Result unit.
Variable defaults : gmap string Val.

(** The clock, as a function of what has happened so far. *)
Variable clock : list Event -> Z.

Local Abbreviation M := (Net.M W (Host K V)).

Definition with_host (st : St W (Host K V)) (h : Host K V) : St W (Host K V) :=
  mkSt (upstream st) (trace st) h.

Definition now : M Z := fun st => (Ok (clock (trace st)), st).

Definition read : M V := fun st => (Ok (vars (host st)), st).

Definition modify (f : V -> V) : M unit :=
  fun st =>
    (Ok tt, with_host st (mkHost (database (host st)) (errorLog (host st))
                                 (minted (host st)) (f (vars (host st))))).

(** [writeErrorLog]: the entry, a template literal over [itemId], is built
    and appended in a [try] of its own, so the function never throws; when
    the entry cannot be built nothing is appended. *)
Definition writeErrorLog (itemId : Val) (error : string) : M unit :=
  fun st =>
    if coercible itemId then
      (Ok tt, with_host st (mkHost (database (host st))
                                   (errorLog (host st) ++ [(itemId, error)])
                                   (minted (host st)) (vars (host st))))
    else (Ok tt, st).

Definition db_findOneAndUpdate (id : Val) (update : list (string * Val))
  : M (gmap string Val) :=
  fun st =>
    match findOneAndUpdate castKey key_value castPath validate defaults
                           (clock (trace st)) (minted (host st)) id update
                           (database (host st)) with
    | Ok (doc, db', next) =>
        (Ok doc, with_host st (mkHost db' (errorLog (host st)) next (vars (host st))))
    | Throw e => (Throw e, st)
    end.

Definition db_updateOne (id : Val) (fields : list (string * Val)) : M unit :=
  fun st =>
    match updateOne castKey castPath validate (clock (trace st)) (minted (host st))
                    id fields (database (host st)) with
    | Ok (db', next) =>
        (Ok tt, with_host st (mkHost db' (errorLog (host st)) next (vars (host st))))
    | Throw e => (Throw e, st)
    end.

Definition db_find_ids (skip limit : nat) : M (list Val) :=
  fun st => (Ok (find_ids skip limit (database (host st))), st).

Definition db_countDocuments : M nat :=
  fun st => (Ok (size (database (host st))), st).

End WithHost.

End Process.

(** ** The sync scripts *)

(** The counters and lists of a sync run. *)
Module Run.

Record Vars : Type := mkVars {
  processedCount : Z;
  savedCount : Z;
  skippedInactiveCount : Z;
  errors : list (Val * string);
  savedItems : list (list (string * Val))
}.

Definition start : Vars := mkVars 0 0 0 [] [].

Definition processed (v : Vars) : Vars :=
  mkVars (processedCount v + 1) (savedCount v) (skippedInactiveCount v)
         (errors v) (savedItems v).

Definition skipped (v : Vars) : Vars :=
  mkVars (processedCount v) (savedCount v) (skippedInactiveCount v + 1)
         (errors v) (savedItems v).

Definition saved (transformedData : list (string * Val)) (v : Vars) : Vars :=
  mkVars (processedCount v) (savedCount v + 1) (skippedInactiveCount v)
         (errors v) (savedItems v ++ [transformedData]).

Definition failed (itemId : Val) (message : string) (v : Vars) : Vars :=
  mkVars (processedCount v) (savedCount v) (skippedInactiveCount v)
         (errors v ++ [(itemId, message)]) (savedItems v).

(** [transformedData.key]. *)
Definition member (transformedData : list (string * Val)) (key : string) : Val :=
  default Undefined (assoc key transformedData).

(** A candidate whose [id] can be read and converted to a string, as the
    template literals of the loops do. *)
Definition has_printable_id (item : Val) : Prop :=
  exists id, get item "id" = Ok id /\ coercible id = true.

Section WithKeys.

Context {K : Type} `{Countable K}.
Variable castKey : Val -> Result K.

(** Every record the run counts as saved is in the collection, under its
    [internalId]. *)
Definition saved_in_store (h : Store.Host K Vars) : Prop :=
  forall transformedData,
    In transformedData (savedItems (Store.vars h)) ->
    exists key,
      castKey (member transformedData "internalId") = Ok key
      /\ is_Some (Store.database h !! key).

(** The errors recorded so far start with [recorded]. *)
Definition errors_extend (recorded : list (Val * string)) (h : Store.Host K Vars)
  : Prop :=
  exists more, errors (Store.vars h) = recorded ++ more.

(** After a turn was counted: the state the [try] of the sweep starts
    from. *)
Definition counted {W : Type} (st : St W (Store.Host K Vars)) : St W (Store.Host K Vars) :=
  Process.with_host st
    (Store.mkHost (Store.database (host st)) (Store.errorLog (host st))
                  (Store.minted (host st)) (processed (Store.vars (host st)))).

(** The state after a failure was recorded, and written to the log file
    when [logged]. *)
Definition recorded_failure {W : Type} (logged : bool) (itemId : Val)
           (message : string) (st : St W (Store.Host K Vars))
  : St W (Store.Host K Vars) :=
  Process.with_host st
    (Store.mkHost (Store.database (host st))
                  (if logged then Store.errorLog (host st) ++ [(itemId, message)]
                   else Store.errorLog (host st))
                  (Store.minted (host st))
                  (failed itemId message (Store.vars (host st)))).

(** The state after a save that wrote [db] and created ObjectIds up to
    [next]. *)
Definition recorded_save {W : Type} (transformedData : list (string * Val))
           (db : gmap K (gmap string Val)) (next : nat)
           (st : St W (Store.Host K Vars))
  : St W (Store.Host K Vars) :=
  Process.with_host st
    (Store.mkHost db (Store.errorLog (host st)) next
                  (saved transformedData (Store.vars (host st)))).

(** The end of a turn of [syncInventory]: the turn is counted and the loop
    pauses for half a second. *)
Definition paused {W : Type} (st : St W (Store.Host K Vars)) : St W (Store.Host K Vars) :=
  mkSt (upstream st) (trace st ++ [Sleep 500]) (host (counted st)).

(** The state after the log line of a save was evaluated inside the [try]
    around the save: when it throws, the [catch] records an error. *)
Definition logged_save {W : Type} (itemId : Val) (line : Result Val)
           (st : St W (Store.Host K Vars)) : St W (Store.Host K Vars) :=
  match line with
  | Ok _ => st
  | Throw e => recorded_failure false itemId (exn_message e) st
  end.

(** The counters of a run: [count] records processed, the errors recorded
    before still there, and as many saves counted as records kept. *)
Definition tally (count : Z) (recorded : list (Val * string))
           (h : Store.Host K Vars) : Prop :=
  processedCount (Store.vars h) = count
  /\ errors_extend recorded h
  /\ savedCount (Store.vars h) = Z.of_nat (length (savedItems (Store.vars h))).

End WithKeys.

End Run.

(** The sync script that also holds the full sweep ([syncAllInventory]). *)
Module SweepScript.
Import RecordFetcher.

Section WithUpstream.

Context {W X : Type}.
Variable axios : Config -> W -> Result Val * W.
Variable generateOAuthHeaders : Val -> string -> Result string.
Variable baseUrl : string.
Variable to_str : Val -> string.

(** The URL is a template literal over [itemId], and so is the line the
    [catch] block logs before it returns [null]: when [itemId] cannot be
    converted to a string the function throws from its [catch] block. *)
Definition fetchInventoryItemDetail (itemId : Val) : M W X Val :=
  try_catch
    (let! _ := lift (ToString to_str itemId) in
     let! data := signed_get axios generateOAuthHeaders (item_url baseUrl to_str itemId) in
     if is_true (get_opt data "isInactive")
     then ret (inactive_record data)
     else enrich axios generateOAuthHeaders to_str itemId data)
    (fun _ =>
       let! _ := lift (ToString to_str itemId) in
       ret Null).

End WithUpstream.

Section Orchestration.
Import Store Process Transformer.

Context {W K : Type} `{Countable K}.
Variable axios : Config -> W -> Result Val * W.
Variable generateOAuthHeaders : Val -> string -> Result string.
Variable baseUrl : string.
Variable to_str : Val -> string.
Variable Date_of : Val -> Date.
Variable stringify : Val -> string.
Variable castKey : Val -> Result K.
Variable key_value : K -> Val.
Variable castPath : string -> Val -> Result Val.
Variable validate : list (string * Val) -> Result unit.
Variable defaults : gmap string Val.
Variable clock : list Event -> Z.

(** The name shown in the progress output,
    [name.length > 40 ? name.substring(0, 40) + '...' : name], as the
    template literal of the log line converts it: it throws when the name
    is not a string and has a length above 40, or cannot be converted. *)
Variable shortName : Val -> Result Val.

Local Abbreviation M := (Net.M W (Host K Run.Vars)).

(** [name || `Item ${itemId}`]: the template literal is evaluated only
    when the name is falsy. *)
Definition displayName (name itemId : Val) : Result Val :=
  if truthy name then Ok name
  else let* text := ToString to_str itemId in Ok (Str ("Item " ++ text)%string).

(** The name in the log line of a save. *)
Definition save_line (itemId : Val) (transformedData : list (string * Val))
  : Result Val :=
  let* name := displayName (Run.member transformedData "itemName") itemId in
  shortName name.

(** The inner [try] of a turn, around the save, and its [catch], which
    logs [itemId] in a template literal before it records the error. *)
Definition save_try (itemId : Val) (transformedData : list (string * Val))
  : M unit :=
  let! _ := db_findOneAndUpdate castKey key_value castPath validate defaults clock
              (Run.member transformedData "internalId") transformedData in
  let! _ := modify (Run.saved transformedData) in
  let! _ := lift (save_line itemId transformedData) in
  ret tt.

Definition save_catch (itemId : Val) (dbError : Exn) : M unit :=
  let! _ := lift (ToString to_str itemId) in
  modify (Run.failed itemId (exn_message dbError)).

(** The outer [try] of a turn of the [for] loop of [syncAllInventory],
    and its [catch]. *)
Definition item_try (itemId : Val) : M unit :=
  let! detailedData :=
    fetchInventoryItemDetail axios generateOAuthHeaders baseUrl to_str itemId in
  if truthy detailedData then
    let! inactive := lift (get detailedData "isInactive") in
    if is_true inactive then
      let! _ := modify Run.skipped in
      let! name := lift (get detailedData "itemId") in
      let! shown := lift (displayName name itemId) in
      let! _ := lift (shortName shown) in
      ret tt
    else
      let! time := now clock in
      let! transformedData :=
        lift (transformInventoryData to_str Date_of stringify false time
                                     detailedData) in
      try_catch (save_try itemId transformedData) (save_catch itemId)
  else
    let! _ := lift (ToString to_str itemId) in
    let! _ := modify (Run.failed itemId "Failed to fetch details") in
    writeErrorLog itemId "Failed to fetch details".

Definition item_catch (itemId : Val) (error : Exn) : M unit :=
  let! _ := lift (ToString to_str itemId) in
  let! _ := modify (Run.failed itemId (exn_message error)) in
  writeErrorLog itemId (exn_message error).

(** One turn of the loop: the [id] is read, the turn counted and the
    progress line, a template literal over the [id], logged before the
    [try]. *)
Definition syncAllInventory_item (item : Val) : M unit :=
  let! itemId := lift (get item "id") in
  let! _ := modify Run.processed in
  let! _ := lift (ToString to_str itemId) in
  try_catch (item_try itemId) (item_catch itemId).

Fixpoint syncAllInventory_items (items : list Val) : M unit :=
  match items with
  | [] => ret tt
  | item :: rest =>
      let! _ := syncAllInventory_item item in
      syncAllInventory_items rest
  end.

End Orchestration.

End SweepScript.

(** The sync script [scripts/syncInventory.js]. *)
Module BasicScript.
Import RecordFetcher.

Section WithUpstream.

Context {W X : Type}.
Variable axios : Config -> W -> Result Val * W.
Variable generateOAuthHeaders : Val -> string -> Result string.
Variable baseUrl : string.
Variable to_str : Val -> string.

(** As in the sweep script, the URL and the line logged by the [catch]
    block are template literals over [itemId]. *)
Definition fetchInventoryItemDetail (itemId : Val) : M W X Val :=
  try_catch
    (let! _ := lift (ToString to_str itemId) in
     let! data := signed_get axios generateOAuthHeaders (item_url baseUrl to_str itemId) in
     enrich axios generateOAuthHeaders to_str itemId data)
    (fun _ =>
       let! _ := lift (ToString to_str itemId) in
       ret Null).

End WithUpstream.

Section Orchestration.
Import Store Process Transformer.

Context {W K : Type} `{Countable K}.
Variable axios : Config -> W -> Result Val * W.
Variable generateOAuthHeaders : Val -> string -> Result string.
Variable baseUrl : string.
Variable to_str : Val -> string.
Variable Date_of : Val -> Date.
Variable stringify : Val -> string.
Variable castKey : Val -> Result K.
Variable key_value : K -> Val.
Variable castPath : string -> Val -> Result Val.
Variable validate : list (string * Val) -> Result unit.
Variable defaults : gmap string Val.
Variable clock : list Event -> Z.
Variable shortName : Val -> Result Val.

Local Abbreviation M := (Net.M W (Host K Run.Vars)).

(** The [try] of a turn, around the save, and its [catch]. *)
Definition save_try (itemId : Val) (transformedData : list (string * Val))
  : M unit :=
  let! _ := db_findOneAndUpdate castKey key_value castPath validate defaults clock
              (Run.member transformedData "internalId") transformedData in
  let! _ := modify (Run.saved transformedData) in
  let! _ := lift (SweepScript.save_line to_str shortName itemId transformedData) in
  ret tt.

Definition save_catch (itemId : Val) (dbError : Exn) : M unit :=
  let! _ := lift (ToString to_str itemId) in
  modify (Run.failed itemId (exn_message dbError)).

(** The fetch of a turn of the [for] loop of [syncInventory] and the
    [if] on its result: the transformation is not inside a [try]. *)
Definition item_work (itemId : Val) : M unit :=
  let! detailedData :=
    fetchInventoryItemDetail axios generateOAuthHeaders baseUrl to_str itemId in
  if truthy detailedData then
    let! time := now clock in
    let! transformedData :=
      lift (transformInventoryData to_str Date_of stringify true time
                                   detailedData) in
    try_catch (save_try itemId transformedData) (save_catch itemId)
  else
    let! _ := lift (ToString to_str itemId) in
    modify (Run.failed itemId "Failed to fetch details").

(** One turn of the loop: the progress line, a template literal over the
    [id], is logged first, and the turn is counted at its end, before the
    pause. *)
Definition syncInventory_item (item : Val) : M unit :=
  let! itemId := lift (get item "id") in
  let! _ := lift (ToString to_str itemId) in
  let! _ := item_work itemId in
  let! _ := modify Run.processed in
  sleep 500.

Fixpoint syncInventory_items (items : list Val) : M unit :=
  match items with
  | [] => ret tt
  | item :: rest =>
      let! _ := syncInventory_item item in
      syncInventory_items rest
  end.

End Orchestration.

End BasicScript.

(** ** The movement pass *)

Module Movement.
Import Store Process.

(** The counters of the movement handler. *)
Record Vars : Type := mkVars {
  updatedCount : Z;
  errorCount : Z;
  errors : list (Val * string)
}.

Definition start : Vars := mkVars 0 0 [].

Definition updated (v : Vars) : Vars :=
  mkVars (updatedCount v + 1) (errorCount v) (errors v).

Definition failed (itemId : Val) (message : string) (v : Vars) : Vars :=
  mkVars (updatedCount v) (errorCount v + 1) (errors v ++ [(itemId, message)]).

(** An entry of [movementMap]. *)
Record Entry : Type := mkEntry {
  last_movement_date : Val;
  moved_last_12_months : bool
}.

(** SameValueZero on numbers, the key comparison of [Map]. *)
Definition same_number (a b : Num) : bool :=
  match a, b with
  | NaN, NaN | PosInf, PosInf | NegInf, NegInf => true
  | Fin x, Fin y => Qeq_bool x y
  | _, _ => false
  end.

(** The [Map], most recent binding first: [set] puts a binding in front,
    [get] returns the first binding of the key. *)
Definition map_set (key : Num) (e : Entry) (m : list (Num * Entry))
  : list (Num * Entry) :=
  (key, e) :: m.

Definition map_get (key : Val) (m : list (Num * Entry)) : option Entry :=
  match key with
  | Number n => snd <$> List.find (fun b => same_number (fst b) n) m
  | _ => None
  end.

(** [row.moved_last_12_months === "1" || ... === 1 || ... === true]. *)
Definition is_moved (flag : Val) : bool :=
  is_str "1" flag
  || match flag with
     | Number (Fin q) => Qeq_bool q 1
     | _ => false
     end
  || is_true flag.

(** [movementData.forEach]: only arrays have the method. *)
Definition rows_of (movementData : Val) : Result (list Val) :=
  match movementData with
  | Arr rows => Ok rows
  | _ => Throw (TypeError "movementData.forEach is not a function")
  end.

Definition movement_fields (e : Entry) : list (string * Val) :=
  [("last_movement_date", last_movement_date e);
   ("moved_last_12_months", Bool (moved_last_12_months e))].

Definition no_movement : list (string * Val) :=
  [("last_movement_date", Null); ("moved_last_12_months", Bool false)].

(** The text of the SuiteQL query around the identifiers. *)
Definition query_head : string :=
  "SELECT i.id AS item_id, CASE WHEN MAX(t.trandate) >= ADD_MONTHS(TRUNC(SYSDATE), -12) THEN 1 ELSE 0 END AS moved_last_12_months, MAX(t.trandate) AS last_movement_date FROM item i LEFT JOIN transactionLine tl ON tl.item = i.id LEFT JOIN transaction t ON t.id = tl.transaction AND t.type = 'ItemShip' AND tl.mainline = 'F' WHERE i.id IN (".

Definition query_tail : string := ") GROUP BY i.id".

Section WithUpstream.

Context {W K : Type} `{Countable K}.
Variable axios : Config -> W -> Result Val * W.
Variable generateOAuthHeaders : Val -> string -> Result string.
Variable to_str : Val -> string.
Variable castKey : Val -> Result K.
Variable castPath : string -> Val -> Result Val.
Variable validate : list (string * Val) -> Result unit.
Variable clock : list Event -> Z.

(** [netsuiteConfig.baseUrl.replace('/record/v1', '/query/v1/suiteql')]. *)
Variable suiteqlUrl : string.

Local Abbreviation M := (Net.M W (Host K Vars)).

(** [itemIds.join(', ')]. *)
Definition join_ids (itemIds : list Val) : string :=
  String.concat ", " (map to_str itemIds).

Definition fetchMovementDataForItems (itemIds : list Val) : M Val :=
  try_catch
    (match itemIds with
     | [] => ret (Arr [])
     | _ =>
         let sqlQuery := (query_head ++ join_ids itemIds ++ query_tail)%string in
         let! data :=
           shared_netsuiteRequest axios generateOAuthHeaders
             (mkConfig "POST" (Str suiteqlUrl) (Obj [("q", Str sqlQuery)]) 60000) in
         ret (or_else (get_opt data "items") (or_else data (Arr [])))
     end)
    (fun error => throw error).

(** The callback of [movementData.forEach]; [parseInt] converts its
    argument to a string first. *)
Definition add_row (m : list (Num * Entry)) (item : Val)
  : Result (list (Num * Entry)) :=
  let* item_id := get item "item_id" in
  let* text := ToString to_str item_id in
  let itemId := parseInt text in
  if negb (isNaN itemId) then
    let* flag := get item "moved_last_12_months" in
    let moved := is_moved flag in
    let* date := get item "last_movement_date" in
    let* lastMovementDate :=
      (if truthy date then parseNetSuiteDate date else Ok Null) in
    Ok (map_set itemId
                (mkEntry (if moved then lastMovementDate else Null) moved) m)
  else Ok m.

Fixpoint build_map (rows : list Val) (m : list (Num * Entry))
  : Result (list (Num * Entry)) :=
  match rows with
  | [] => Ok m
  | item :: rest => let* m' := add_row m item in build_map rest m'
  end.

(** The callback of [itemIds.map]: the update of one record, in its own
    [try]; the [catch] block counts and records the error, then logs
    [itemId] in a template literal. *)
Definition update_item (movementMap : list (Num * Entry)) (itemId : Val) : M unit :=
  try_catch
    (match map_get itemId movementMap with
     | Some movement =>
         let! _ := db_updateOne castKey castPath validate clock itemId (movement_fields movement) in
         if moved_last_12_months movement then modify updated else ret tt
     | None => db_updateOne castKey castPath validate clock itemId no_movement
     end)
    (fun updateError =>
       let! _ := modify (failed itemId (exn_message updateError)) in
       let! _ := lift (ToString to_str itemId) in
       ret tt).

Fixpoint update_items (movementMap : list (Num * Entry)) (itemIds : list Val)
  : M unit :=
  match itemIds with
  | [] => ret tt
  | itemId :: rest =>
      let! _ := update_item movementMap itemId in
      update_items movementMap rest
  end.

(** The movement pass over one batch of stored identifiers: the query,
    the map of its rows, the updates. *)
Definition movement_batch (itemIds : list Val) : M unit :=
  let! movementData := fetchMovementDataForItems itemIds in
  let! rows := lift (rows_of movementData) in
  let! movementMap := lift (build_map rows []) in
  update_items movementMap itemIds.

(** The row joined to a key: the last row of the result whose [item_id]
    reads as that number. *)
Definition row_key (item : Val) : Num := parseInt (to_str (get_opt item "item_id")).

Definition joined (key : Z) (rows : list Val) : option Val :=
  List.find (fun item => negb (isNaN (row_key item))
                         && same_number (row_key item) (int key))
            (rev rows).

(** The movement fields a row stands for. *)
Definition row_entry (item : Val) : Entry :=
  let moved := is_moved (get_opt item "moved_last_12_months") in
  let date := get_opt item "last_movement_date" in
  mkEntry (if moved
           then (if truthy date
                 then match parseNetSuiteDate date with
                      | Ok d => d
                      | Throw _ => Null
                      end
                 else Null)
           else Null)
          moved.

(** The binding a row adds to the map, if any. *)
Definition binding (item : Val) : list (Num * Entry) :=
  if negb (isNaN (row_key item)) then [(row_key item, row_entry item)] else [].

(** A row the callback can read: an object or another value with members,
    whose [item_id] and [last_movement_date] can be converted to strings. *)
Definition readable (item : Val) : Prop :=
  truthy item = true
  /\ coercible (get_opt item "item_id") = true
  /\ coercible (get_opt item "last_movement_date") = true.

End WithUpstream.

End Movement.

(** ** A scripted upstream *)

Module Mock.

(** A mock upstream that answers the calls it receives, whatever they are,
    with the canned outcomes of a script, in order; once the script is
    used up every call fails without a response. *)
Definition scripted {R : Type} (c : Config) (script : list (Result R))
  : Result R * list (Result R) :=
  match script with
  | outcome :: rest => (outcome, rest)
  | [] => (Throw (mkExn None "socket hang up"), [])
  end.

(** An upstream that answers by URL alone. *)
Definition routed (route : Val -> Result Val) (c : Config) (w : unit)
  : Result Val * unit :=
  (route (cfg_url c), tt).

(** An upstream that fails every call with the given HTTP status. *)
Definition failing {R : Type} (status : Z) (message : string)
           (c : Config) (w : unit) : Result R * unit :=
  (Throw (mkExn (Some status) message), w).

(** A signer that accepts every URL, and a ToString that prints strings as
    they are. *)
Definition sign (url : Val) (method : string) : Result string := Ok "OAuth".

Definition to_str (v : Val) : string :=
  match v with
  | Str s => s
  | Number (Fin q) => pretty (Qnum q)
  | _ => "[object Object]"
  end.

Definition base : string := "https://upstream/record/v1".

(** Three candidates of which the second cannot be fetched. *)
Definition candidates : list Val :=
  [Obj [("id", Str "1")]; Obj [("id", Str "2")]; Obj [("id", Str "3")]].

Definition candidate_route (url : Val) : Result Val :=
  if is_str "https://upstream/record/v1/inventoryitem/1" url
  then Ok (Obj [("id", Str "1"); ("itemId", Str "Margaux 2015")])
  else if is_str "https://upstream/record/v1/inventoryitem/3" url
  then Ok (Obj [("id", Str "3"); ("itemId", Str "Latour 2010")])
  else Throw (mkExn (Some 500) "Server Error").

Definition Date_of (v : Val) : Date := InvalidDate.
Definition stringify (v : Val) : string := "{}".
Definition shortName (name : Val) : Result Val := Ok name.
Definition clock (history : list Event) : Z := Z.of_nat (length history).

(** A mock of the schema whose keys are the integers: the filter cast
    admits the integer numbers and refuses every other value, and the other
    casts leave the values as they are. *)
Definition castKey (v : Val) : Result Z :=
  match v with
  | Number (Fin q) =>
      if Pos.eqb (Qden q) 1 then Ok (Qnum q)
      else Throw (mkExn None "Cast to Number failed")
  | _ => Throw (mkExn None "Cast to Number failed")
  end.

Definition key_value (key : Z) : Val := Number (int key).

Definition castPath (path : string) (value : Val) : Result Val := Ok value.

Definition fresh : St unit (Store.Host Z Run.Vars) :=
  mkSt tt [] (Store.mkHost ∅ [] 0 Run.start).

(** A store that accepts every write. *)
Definition accept (fields : list (string * Val)) : Result unit := Ok tt.

(** The loops of the two scripts over the three candidates, from an empty
    collection, in front of an upstream that answers by [route]. *)
Definition sweep_run (route : Val -> Result Val)
  : Result unit * St unit (Store.Host Z Run.Vars) :=
  SweepScript.syncAllInventory_items (routed route) sign base to_str Date_of
    stringify castKey key_value castPath accept ∅ clock shortName candidates fresh.

Definition basic_run (route : Val -> Result Val)
  : Result unit * St unit (Store.Host Z Run.Vars) :=
  BasicScript.syncInventory_items (routed route) sign base to_str Date_of
    stringify castKey key_value castPath accept ∅ clock shortName candidates fresh.

(** The keys of the records in the collection. *)
Definition stored_keys {V : Type} (st : St unit (Store.Host Z V)) : list Z :=
  map fst (map_to_list (Store.database (host st))).

(** The same three candidates in front of an upstream whose record of
    the second carries an [id] that cannot be converted to a string. *)
Definition unprintable_route (url : Val) : Result Val :=
  if is_str "https://upstream/record/v1/inventoryitem/1" url
  then Ok (Obj [("id", Str "1"); ("itemId", Str "Margaux 2015")])
  else if is_str "https://upstream/record/v1/inventoryitem/2" url
  then Ok (Obj [("id", Obj [("toString", Number (int 0))]);
                ("itemId", Str "Palmer 2012")])
  else if is_str "https://upstream/record/v1/inventoryitem/3" url
  then Ok (Obj [("id", Str "3"); ("itemId", Str "Latour 2010")])
  else Throw (mkExn (Some 500) "Server Error").

(** A collection holding ids 1, 2 and 3, in front of an upstream whose
    movement result has a row for 2 only. *)
Definition movement_rows : list Val :=
  [Obj [("item_id", Str "2"); ("moved_last_12_months", Str "1");
        ("last_movement_date", Str "15/03/2024")]].

Definition stored : St (list (Result Val)) (Store.Host Z Movement.Vars) :=
  mkSt [Ok (Obj [("items", Arr movement_rows)])] []
       (Store.mkHost
          (<[1 := {["internalId" := Number (int 1)]}]>
             (<[2 := {["internalId" := Number (int 2)]}]>
                (<[3 := {["internalId" := Number (int 3)]}]> ∅)))
          [] 0 Movement.start).

(** The movement pass over the stored collection, and a field of a stored
    record after it. *)
Definition movement_run (keys : list Z)
  : Result unit * St (list (Result Val)) (Store.Host Z Movement.Vars) :=
  Movement.movement_batch scripted sign to_str castKey castPath accept clock
    "https://upstream/query/v1/suiteql" (map (fun k => Number (int k)) keys) stored.

Definition movement_field {V : Type} (key : Z) (field : string)
           (st : St (list (Result Val)) (Store.Host Z V)) : option Val :=
  (Store.database (host st) !! key) ≫= (fun doc => doc !! field).

Definition probe : Config :=
  mkConfig "GET" (Str "https://upstream/record/v1/inventoryItem?limit=1")
           Undefined 10000.

(** An inactive item that still carries a price and a locations link. *)
Definition inactive_item : Val :=
  Obj [("id", Str "7"); ("isInactive", Bool true);
       ("price", Obj [("links", Arr [Obj [("href", Str "price/7")]])]);
       ("locations", Obj [("links", Arr [Obj [("href", Str "locations/7")]])])].

Definition inactive_route (url : Val) : Result Val :=
  if is_str "https://upstream/record/v1/inventoryitem/7" url then Ok inactive_item
  else if is_str "price/7" url
       then Ok (Obj [("items", Arr [Obj [("links", Arr [Obj [("href", Str "price/7/1")]])]])])
  else if is_str "price/7/1" url
       then Ok (Obj [("priceLevelName", Str "LPCP (HKD)"); ("price", Number (int 120))])
  else if is_str "locations/7" url
       then Ok (Obj [("items", Arr [Obj [("links", Arr [Obj [("href", Str "locations/7/1")]])]])])
  else if is_str "locations/7/1" url
       then Ok (Obj [("locationId", Number (int 3)); ("quantityAvailable", Number (int 5))])
  else Throw (mkExn (Some 404) "Not Found").

End Mock.

(** ** The price rule in the words of the specification *)

Module PriceRule.
Import RecordFetcher.

(** A fetched level that carries the given price-level name. *)
Definition named (name : string) (detail : Val) : bool :=
  truthy detail && is_str name (get_opt detail "priceLevelName").

Definition level_price (detail : Val) : Val :=
  or_else (get_opt detail "price") zero.

Definition levels_named (name : string) (levels : list Val) : list Val :=
  List.filter (named name) levels.

(** The price of the level of that name, 0 when there is none. *)
Definition selected (name : string) (levels : list Val) : Val :=
  match levels_named name levels with
  | d :: _ => level_price d
  | [] => zero
  end.

Definition present (name : string) (levels : list Val) : bool :=
  match levels_named name levels with
  | [] => false
  | _ :: _ => true
  end.

(** At most one level of that name. *)
Definition at_most_one (name : string) (levels : list Val) : Prop :=
  (length (levels_named name levels) <= 1)%nat.

(** The resolved price data: trade price from "WLP (Base)", retail price
    from "LPCP (HKD)"; the retail price is displayed, in HKD, and the trade
    price is the fallback. *)
Definition resolve (itemCurrency : string) (levels : list Val) : Val :=
  let trade := selected "WLP (Base)" levels in
  let retail := selected "LPCP (HKD)" levels in
  priceData (if truthy retail then retail else trade)
            (if present "LPCP (HKD)" levels then "HKD" else itemCurrency)
            trade retail.

(** The loop variables after the levels have been scanned, starting from
    [st], when each of the two names occurs at most once. *)
Definition scan_result (st : PriceScan) (levels : list Val) : PriceScan :=
  let retail := levels_named "LPCP (HKD)" levels in
  let trade := levels_named "WLP (Base)" levels in
  mkScan (match retail with d :: _ => level_price d | [] => price st end)
         (match retail with _ :: _ => "HKD" | [] => currency st end)
         (match trade with d :: _ => level_price d | [] => tradePrice st end)
         (match retail with d :: _ => level_price d | [] => retailPrice st end)
         (match trade with _ :: _ => true | [] => hasTradePrice st end)
         (match retail with _ :: _ => true | [] => hasRetailPrice st end).

(** A price-list entry whose [links[0].href] can be read. *)
Definition has_href (priceItem : Val) : Prop :=
  exists href, first_href priceItem = Ok href.

(** The upstream script of one price lookup: the price list, then one
    detail per entry. *)
Definition price_script (items levels : list Val) : list (Result Val) :=
  Ok (Obj [("items", Arr items)]) :: map Ok levels.

End PriceRule.

(** ** The service class of [services/netsuiteService.js] *)

Module Service.

(** [a.concat(x)]: an array argument is spread, any other value is added
    as one element. *)
Definition concat (l : list Val) (x : Val) : list Val :=
  match x with
  | Arr xs => l ++ xs
  | other => l ++ [other]
  end.

(** [l.slice(start, stop)] on integers: a negative index counts from the
    end, and both are clamped to the list. *)
Definition clamp (len i : Z) : Z :=
  if i <? 0 then Z.max (len + i) 0 else Z.min i len.

Definition slice {A : Type} (l : list A) (start stop : Z) : list A :=
  let len := Z.of_nat (length l) in
  let from := clamp len start in
  firstn (Z.to_nat (clamp len stop - from)) (skipn (Z.to_nat from) l).

(** [v === 0]. *)
Definition is_zero (v : Val) : bool :=
  match v with
  | Number (Fin q) => Qeq_bool q 0
  | _ => false
  end.

(** [{ price, currency }]. *)
Definition priceAndCurrency (p : Val) (c : Val) : Val :=
  Obj [("price", p); ("currency", c)].

(** The variables of the loop of [extractPriceAndCurrency]. *)
Record Chosen : Type := mkChosen {
  finalPrice : Val;
  finalCurrency : string;
  hasPrice : bool
}.

(** [x.links && x.links[0] && x.links[0].href] as a condition, with the
    [href] it guards. *)
Definition guarded_href (x : Val) : Result (option Val) :=
  let* links := get x "links" in
  if negb (truthy links) then Ok None
  else
    let* first := get links "0" in
    if negb (truthy first) then Ok None
    else
      let* href := get first "href" in
      Ok (if truthy href then Some href else None).

(** The price detail the loop of [extractPriceAndCurrency] gets for an
    entry from an upstream that answers by URL alone: [null] when the entry
    has no usable link or the request fails. *)
Definition seen (route : Val -> Result Val) (priceItem : Val) : Val :=
  match guarded_href priceItem with
  | Ok (Some url) => match route url with
                     | Ok priceDetail => priceDetail
                     | Throw _ => Null
                     end
  | _ => Null
  end.

(** What a guarded fetch of a batch gives for one identifier:
    [{ success: true, data }] or [{ success: false, itemId, error }]. *)
Inductive Outcome : Type :=
| Success (data : Val)
| Failure (itemId : Val) (error : string).

(** A failed fetch is reported under the identifier it was asked for. *)
Definition reports (itemId : Val) (result : Outcome) : Prop :=
  match result with
  | Success _ => True
  | Failure failed _ => failed = itemId
  end.

(** [batchResults.forEach]: successes go to [results], failures to
    [errors], in order. *)
Definition collect (batchResults : list Outcome)
           (acc : list Val * list (Val * string)) : list Val * list (Val * string) :=
  fold_left
    (fun acc result =>
       match result with
       | Success data => (fst acc ++ [data], snd acc)
       | Failure itemId error => (fst acc, snd acc ++ [(itemId, error)])
       end)
    batchResults acc.

(** The variables of the loop of [fetchAllItemsWithPagination]. *)
Record Pages : Type := mkPages {
  allItems : list Val;
  hasMore : Val;
  offset : Z
}.

Section WithUpstream.

Context {W X : Type}.
Variable axios : Config -> W -> Result Val * W.

(** [this.generateHeaders(url, method)], [this.encodeQueryString(params)],
    [this.restApiUrl], and ToString as used by template literals. *)
Variable generateHeaders : Val -> string -> Result string.
Variable encodeQueryString : list (string * Val) -> string.
Variable restApiUrl : string.
Variable to_str : Val -> string.

Local Abbreviation M := (Net.M W X).

(** The class calls [axios] itself, without limiter or retry: one logged
    call with a 30 s timeout. *)
Definition request (url : Val) : M Val :=
  schedule axios (mkConfig "GET" url Undefined 30000).

Definition listing_url (query : string) (limit offset : Z) : Val :=
  let baseUrl := (restApiUrl ++ "/services/rest/record/v1/inventoryItem")%string in
  let encodedQueryString :=
    encodeQueryString [("q", Str query); ("limit", Number (int limit));
                       ("offset", Number (int offset))] in
  Str (baseUrl ++ "?" ++ encodedQueryString)%string.

Definition getAllInventoryItems (query : string) (limit offset : Z) : M Val :=
  let fullUrl := listing_url query limit offset in
  let! _ := lift (generateHeaders fullUrl "GET") in
  try_catch (request fullUrl)
    (fun error =>
       throw (mkExn None ("Failed to fetch inventory items: " ++ exn_message error))).

Definition item_url (itemId : Val) : string :=
  (restApiUrl ++ "/services/rest/record/v1/inventoryitem/" ++ to_str itemId)%string.

Definition getInventoryItemById (itemId : Val) : M Val :=
  let url := Str (item_url itemId) in
  let! _ := lift (generateHeaders url "GET") in
  try_catch (request url)
    (fun error =>
       throw (mkExn None ("Failed to fetch item " ++ to_str itemId ++ ": "
                          ++ exn_message error))).

(** The [try] block of an iteration of [fetchAllItemsWithPagination]. *)
Definition page_try (query : string) (s : Pages) : M Pages :=
  let! data := getAllInventoryItems query 1000 (offset s) in
  let! items := lift (get data "items") in
  let! more := lift (get data "hasMore") in
  let! _ := (if truthy more then sleep 100 else ret tt) in
  ret (mkPages (concat (allItems s) items) more (offset s + 1000)).

(** The [while (hasMore)] loop, at most [fuel] iterations of it. *)
Fixpoint page_loop (query : string) (fuel : nat) (s : Pages)
  : M (option (list Val)) :=
  if negb (truthy (hasMore s)) then ret (Some (allItems s))
  else
    match fuel with
    | O => ret None
    | S fewer =>
        let! s' := try_catch (page_try query s)
                     (fun _ => ret (mkPages (allItems s) (Bool false) (offset s))) in
        page_loop query fewer s'
    end.

Definition fetchAllItemsWithPagination (query : string) (fuel : nat)
  : M (option (list Val)) :=
  page_loop query fuel (mkPages [] (Bool true) 0).

(** The log of [more + 1] page requests in a row, from [offset] on. *)
Fixpoint page_log (query : string) (offset : Z) (more : nat) : list Event :=
  let call := Call (mkConfig "GET" (listing_url query 1000 offset) Undefined 30000) in
  match more with
  | O => [call]
  | S fewer => call :: Sleep 100 :: page_log query (offset + 1000) fewer
  end.

Definition getItemPrices (itemId : Val) : M Val :=
  let priceUrl := Str (item_url itemId ++ "/price")%string in
  let! _ := lift (generateHeaders priceUrl "GET") in
  try_catch (request priceUrl) (fun _ => ret Null).

Definition getPriceDetails (priceUrl : Val) : M Val :=
  let! _ := lift (generateHeaders priceUrl "GET") in
  try_catch (request priceUrl) (fun _ => ret Null).

(** The [for ... of priceData.items] loop; the "LPCP (HKD)" branch ends it
    by [break]. *)
Fixpoint choose_loop (items : list Val) (st : Chosen) : M Chosen :=
  match items with
  | [] => ret st
  | priceItem :: rest =>
      let! href := lift (guarded_href priceItem) in
      match href with
      | None => choose_loop rest st
      | Some url =>
          let! priceDetail := getPriceDetails url in
          if negb (truthy priceDetail) then choose_loop rest st
          else
            let! name := lift (get priceDetail "priceLevelName") in
            if negb (truthy name) then choose_loop rest st
            else if is_str "LPCP (HKD)" name then
              let! p := lift (get priceDetail "price") in
              ret (mkChosen (or_else p zero) "HKD" true)
            else if is_str "EP Price (EUR)" name then
              if negb (hasPrice st) then
                let! p := lift (get priceDetail "price") in
                choose_loop rest (mkChosen (or_else p zero) "EUR" true)
              else choose_loop rest st
            else choose_loop rest st
      end
  end.

(** The fallback after the loop: the price of the first entry, when it
    can be fetched and is truthy. *)
Definition first_available (listed : Val) (st : Chosen) : M Val :=
  let! firstPriceItem := lift (get listed "0") in
  let! href := lift (guarded_href firstPriceItem) in
  match href with
  | None => ret (finalPrice st)
  | Some url =>
      let! priceDetail := getPriceDetails url in
      if truthy priceDetail then
        let! p := lift (get priceDetail "price") in
        ret (if truthy p then p else finalPrice st)
      else ret (finalPrice st)
  end.

(** Once the loop has run, [priceData.items] is an array or a string and
    [priceData.items.length > 0] says that it visited an element. *)
Definition extractPriceAndCurrency (itemId : Val) : M Val :=
  try_catch
    (let! priceData := getItemPrices itemId in
     if negb (truthy priceData) then ret (priceAndCurrency zero (Str "HKD"))
     else
       let! listed := lift (get priceData "items") in
       if negb (truthy listed) then ret (priceAndCurrency zero (Str "HKD"))
       else
         let! len := lift (get listed "length") in
         if is_zero len then ret (priceAndCurrency zero (Str "HKD"))
         else
           let! items := lift (iterate listed) in
           let! st := choose_loop items (mkChosen zero "HKD" false) in
           let! final :=
             (if negb (hasPrice st) && negb (Nat.eqb (length items) 0)
              then first_available listed st
              else ret (finalPrice st)) in
           ret (priceAndCurrency final (Str (finalCurrency st))))
    (fun _ => ret (priceAndCurrency zero (Str "HKD"))).

Definition getInventoryItemByIdWithPrice (itemId : Val) : M Val :=
  try_catch
    (let! itemData := getInventoryItemById itemId in
     if negb (truthy itemData)
     then throw (mkExn None ("Failed to fetch item " ++ to_str itemId))
     else
       let! found := extractPriceAndCurrency itemId in
       let! price := lift (get found "price") in
       let! currency := lift (get found "currency") in
       ret (Obj (set_field "priceData" (priceAndCurrency price currency)
                           (spread itemData))))
    (fun error => throw error).

(** The callback of [batch.map]: a fetch in its own [try]. *)
Definition attempt (fetch : Val -> M Val) (itemId : Val) : M Outcome :=
  try_catch (let! item := fetch itemId in ret (Success item))
            (fun error => ret (Failure itemId (exn_message error))).

(** [Promise.all(batch.map(...))]: the fetches of a batch are started in
    the order of the batch, and are taken here to be answered in that
    order; none of them rejects. *)
Fixpoint attempt_all (fetch : Val -> M Val) (batch : list Val) : M (list Outcome) :=
  match batch with
  | [] => ret []
  | itemId :: rest =>
      let! result := attempt fetch itemId in
      let! results := attempt_all fetch rest in
      ret (result :: results)
  end.

(** The [for (let i = 0; i < itemIds.length; i += batchSize)] loop that
    [batchGetItems] and [batchGetItemsWithPrice] share, at most [fuel]
    iterations of it. *)
Fixpoint batch_loop (fetch : Val -> M Val) (pause : Z) (itemIds : list Val)
         (batchSize : Z) (fuel : nat) (i : Z)
         (acc : list Val * list (Val * string))
  : M (option (list Val * list (Val * string))) :=
  if negb (i <? Z.of_nat (length itemIds)) then ret (Some acc)
  else
    match fuel with
    | O => ret None
    | S fewer =>
        let batch := slice itemIds i (i + batchSize) in
        let! batchResults := attempt_all fetch batch in
        let acc' := collect batchResults acc in
        let! _ := (if i + batchSize <? Z.of_nat (length itemIds)
                   then sleep pause else ret tt) in
        batch_loop fetch pause itemIds batchSize fewer (i + batchSize) acc'
    end.

Definition batchGetItems (itemIds : list Val) (batchSize : Z) (fuel : nat)
  : M (option (list Val * list (Val * string))) :=
  batch_loop getInventoryItemById 200 itemIds batchSize fuel 0 ([], []).

Definition batchGetItemsWithPrice (itemIds : list Val) (batchSize : Z) (fuel : nat)
  : M (option (list Val * list (Val * string))) :=
  batch_loop getInventoryItemByIdWithPrice 500 itemIds batchSize fuel 0 ([], []).

End WithUpstream.

End Service.

(** ** The schema of the inventory collection, beyond its paths *)

Module Schema.

(** The values the schema accepts for [currency] (its [enum]). *)
Definition currency_enum : list string := ["HKD"; "EUR"; "USD"].

(** The members of the canonical record, in the order in which
    [transformInventoryData] writes them; [rawData] is the member that only
    [scripts/syncInventory.js] writes. *)
Definition canonical_keys (rawData : bool) : list string :=
  ["internalId"] ++ map fst Transformer.descriptive_fields
  ++ ["price"; "currency"; "pricing"; "locations"; "totalQuantity";
      "averageCost"; "totalValue"; "createdDate"; "lastModifiedDate"]
  ++ (if rawData then ["rawData"] else [])
  ++ ["lastSynced"].

End Schema.

(** ** What a run reports *)

Module Report.

(** The counters of a run add up: every record processed was saved,
    skipped as inactive, or recorded as an error. *)
Definition accounted (v : Run.Vars) : Prop :=
  Run.processedCount v
  = Run.savedCount v + Run.skippedInactiveCount v
    + Z.of_nat (length (Run.errors v)).

(** No record of [before] is missing from the collection. *)
Definition none_lost {K V : Type} `{Countable K} (before : gmap K (gmap string Val))
           (h : Store.Host K V) : Prop :=
  forall k, is_Some (before !! k) -> is_Some (Store.database h !! k).

End Report.

(** ** Further sample states *)

Module Samples.

(** A process whose collection already holds record 9. *)
Definition stocked : St unit (Store.Host Z Run.Vars) :=
  mkSt tt [] (Store.mkHost {[9 := {["internalId" := Number (int 9)]}]} [] 0 Run.start).


(** An upstream that refuses every connection. *)
Definition unreachable (c : Config) (w : unit) : Result Paginator.Listing * unit :=
  (Throw (mkExn None "connect ECONNREFUSED"), w).

(** An upstream that serves one item on every page and always reports more. *)
Definition one_per_page (c : Config) (w : unit) : Result Paginator.Listing * unit :=
  (Ok (Paginator.mkListing [Number (int 7)] true None), w).


(** An upstream of the service class that knows item 1 and its price
    list, and nothing else. *)
Definition service_route (url : Val) : Result Val :=
  if is_str "https://upstream/services/rest/record/v1/inventoryitem/1" url
  then Ok (Obj [("id", Str "1")])
  else if is_str "https://upstream/services/rest/record/v1/inventoryitem/1/price" url
  then Ok (Obj [("items", Arr [Obj [("links", Arr [Obj [("href", Str "price/1/5")]])];
                               Obj [("links", Arr [Obj [("href", Str "price/1/1")]])]])])
  else if is_str "price/1/5" url
  then Ok (Obj [("priceLevelName", Str "EP Price (EUR)"); ("price", Number (int 90))])
  else if is_str "price/1/1" url
  then Ok (Obj [("priceLevelName", Str "LPCP (HKD)"); ("price", Number (int 800))])
  else Throw (mkExn (Some 404) "Not Found").

End Samples.

(** * Properties *)

(** ** Transformer: path extraction *)

Section PathExtraction.

Lemma or_else_defined (v : Val) : or_else v (Str "") <> Undefined.
Proof. unfold or_else. destruct v; cbn; try discriminate. destruct b; discriminate.
       destruct n; try discriminate. destruct (Qeq_bool q 0); discriminate.
       destruct (String.eqb s ""); discriminate. Qed.

Lemma or_else_falsy (v : Val) : truthy v = false -> or_else v (Str "") = Str "".
Proof. unfold or_else. intros ->. reflexivity. Qed.

(** On a truthy object, [in] and the member read agree with [member]. *)
Lemma has_property_member (v : Val) (k : string) :
  truthy v && typeof_object v = true ->
  has_property k v = Ok (match member v k with Some _ => true | None => false end)
  /\ (forall x, member v k = Some x -> get v k = Ok x).
Proof.
  intros H. apply andb_prop in H as [Ht Ho].
  destruct v; cbn in Ho, Ht; try discriminate; clear Ht Ho;
    (split; [reflexivity|]); intros x Hx; unfold get; rewrite Hx; reflexivity.
Qed.

(** The loop of [extractValue] follows the path, and leaves with [''] at
    the first missing segment. *)
Lemma extractValue_walk_spec (fields : list string) :
  forall value,
    extractValue_walk fields value =
    Ok (match lookup_path fields value with
        | Some x => inr x
        | None => inl (Str "")
        end).
Proof.
  induction fields as [|field rest IH]; intros value; [reflexivity|].
  cbn [extractValue_walk lookup_path].
  destruct (truthy value && typeof_object value) eqn:E.
  - destruct (has_property_member value field E) as [Hin Hget].
    apply andb_prop in E as [_ Ho]. unfold member_of_object. rewrite Ho, Hin.
    destruct (member value field) as [next|] eqn:M; cbn [rbind].
    + rewrite (Hget next eq_refl). cbn [rbind]. apply IH.
    + reflexivity.
  - cbn [rbind]. destruct (member_of_object value field) as [next|] eqn:M;
      [|reflexivity].
    destruct value; cbn in E, M; discriminate.
Qed.

(** After the loop: a reference object yields its [refName], anything else
    itself, and a falsy result is replaced by ['']. *)
Lemma extractValue_tail (value : Val) :
  exists r,
    (let* hasRef :=
       (if truthy value && typeof_object value
        then has_property "refName" value else Ok false) in
     if hasRef : bool
     then let* refName := get value "refName" in Ok (or_else refName (Str ""))
     else Ok (or_else value (Str ""))) = Ok r
    /\ r <> Undefined
    /\ (truthy value = false -> r = Str "").
Proof.
  destruct (truthy value && typeof_object value) eqn:E.
  - destruct (has_property_member value "refName" E) as [Hin Hget].
    rewrite Hin. destruct (member value "refName") as [x|] eqn:M; cbn [rbind].
    + rewrite (Hget x eq_refl). cbn [rbind]. eexists; split; [reflexivity|].
      split; [apply or_else_defined|].
      intros F. rewrite F in E. discriminate.
    + eexists; split; [reflexivity|]. split; [apply or_else_defined|].
      apply or_else_falsy.
  - cbn [rbind]. eexists; split; [reflexivity|]. split; [apply or_else_defined|].
    apply or_else_falsy.
Qed.

End PathExtraction.

Section StoredPaths.

Lemma inherited_plain (kind : Kind) (k : string) :
  plain_name k = true -> inherited kind k = None.
Proof.
  unfold plain_name, inherited. intros H. apply negb_true_iff in H.
  apply orb_false_iff in H as [H Hd]. apply orb_false_iff in H as [Ho Ha].
  assert (String.eqb k "__proto__" = false) as ->.
  { destruct (String.eqb k "__proto__") eqn:E; [|reflexivity].
    apply String.eqb_eq in E. subst k. discriminate. }
  destruct kind; cbn [prototype_names]; rewrite ?Ho, ?Ha, ?Hd; reflexivity.
Qed.

Lemma assoc_is_data k fs x :
  assoc k fs = Some x -> forallb (fun kv => is_data (snd kv)) fs = true ->
  is_data x = true.
Proof.
  induction fs as [|[k' v'] fs IH]; cbn [assoc forallb]; [discriminate|].
  intros H Hall. apply andb_prop in Hall as [Hv Hrest].
  destruct (String.eqb k k'); [injection H as <-; exact Hv | auto].
Qed.

(** Under a plain name a value made of data has what it stores, and that
    is data again. *)
Lemma member_of_object_plain (v : Val) (k : string) :
  is_data v = true -> plain_name k = true ->
  member_of_object v k = stored v k
  /\ (forall x, stored v k = Some x -> is_data x = true).
Proof.
  intros Hd Hk. unfold member_of_object.
  destruct v; cbn [typeof_object member stored]; try discriminate;
    try (split; [reflexivity | discriminate]).
  - destruct (String.eqb k "length");
      [split; [reflexivity | intros x [= <-]; reflexivity]|].
    destruct (index_of_key k) as [i|]; [|split; [apply inherited_plain, Hk | discriminate]].
    destruct (nth_error xs i) as [x|] eqn:E; [|split; [apply inherited_plain, Hk | discriminate]].
    split; [reflexivity|]. intros y [= <-].
    cbn [is_data] in Hd. rewrite forallb_forall in Hd. apply Hd.
    apply nth_error_In with i. exact E.
  - destruct (assoc k fields) as [x|] eqn:E.
    + split; [reflexivity|]. intros y [= <-]. apply (assoc_is_data k fields); assumption.
    + split; [apply inherited_plain, Hk | discriminate].
  - split; [apply inherited_plain, Hk | discriminate].
Qed.

Lemma lookup_path_plain (fields : list string) :
  forall v, is_data v = true -> forallb plain_name fields = true ->
            lookup_path fields v = stored_path fields v.
Proof.
  induction fields as [|field rest IH]; intros v Hd Hall; [reflexivity|].
  cbn [forallb] in Hall. apply andb_prop in Hall as [Hk Hrest].
  cbn [lookup_path stored_path].
  destruct (member_of_object_plain v field Hd Hk) as [-> Hnext].
  destruct (stored v field) as [next|]; [|reflexivity].
  apply IH; [apply Hnext; reflexivity | exact Hrest].
Qed.

End StoredPaths.

(** C10, as the code has it.  [extractValue] never throws and never returns
    [undefined]; it returns the empty string whenever [in] does not find a
    segment of the dotted path, and whenever the value the path resolves to
    is falsy (0, [false], [null], the empty string, ...), so that a stored 0
    or [false] cannot be told from an absent field.  For a path whose
    segments are not names of members of the built-in prototypes, a segment
    the record does not store is one [in] does not find. *)
Theorem extractValue_falsy_collapse (data : Val) (fieldPath : string) :
  (exists r, extractValue data fieldPath = Ok r /\ r <> Undefined)
  /\ (lookup_path (split_on "." fieldPath) data = None ->
      extractValue data fieldPath = Ok (Str ""))
  /\ (forall v, lookup_path (split_on "." fieldPath) data = Some v ->
                truthy v = false ->
                extractValue data fieldPath = Ok (Str ""))
  /\ (is_data data = true ->
      forallb plain_name (split_on "." fieldPath) = true ->
      stored_path (split_on "." fieldPath) data = None ->
      extractValue data fieldPath = Ok (Str "")).
Proof.
  assert (Hnone : lookup_path (split_on "." fieldPath) data = None ->
                  extractValue data fieldPath = Ok (Str "")).
  { intros L. unfold extractValue. rewrite extractValue_walk_spec, L. reflexivity. }
  split; [|split; [exact Hnone|split]].
  - unfold extractValue. rewrite extractValue_walk_spec.
    destruct (lookup_path (split_on "." fieldPath) data) as [value|]; cbn [rbind].
    + destruct (extractValue_tail value) as (r & Hr & Hdef & _).
      exists r. split; assumption.
    + exists (Str ""). split; [reflexivity | discriminate].
  - intros v L F. unfold extractValue. rewrite extractValue_walk_spec, L.
    cbn [rbind]. destruct (extractValue_tail v) as (r & Hr & _ & Hfalsy).
    rewrite Hr, (Hfalsy F). reflexivity.
  - intros Hd Hplain S. apply Hnone. rewrite lookup_path_plain; assumption.
Qed.

Lemma extractValue_falsy_collapse_witness :
  extractValue (Obj [("weight", Number (int 0))]) "weight" = Ok (Str "")
  /\ extractValue (Obj [("flag", Bool false)]) "flag" = Ok (Str "")
  /\ extractValue (Obj [("unitsType", Null)]) "unitsType.refName" = Ok (Str "")
  /\ extractValue (Obj []) "unitsType.refName" = Ok (Str "").
Proof.
  split; [|split; [|split]].
  - apply (proj1 (proj2 (proj2 (extractValue_falsy_collapse
             (Obj [("weight", Number (int 0))]) "weight"))) _ eq_refl).
    reflexivity.
  - apply (proj1 (proj2 (proj2 (extractValue_falsy_collapse
             (Obj [("flag", Bool false)]) "flag"))) _ eq_refl).
    reflexivity.
  - apply (proj1 (proj2 (extractValue_falsy_collapse
             (Obj [("unitsType", Null)]) "unitsType.refName"))).
    reflexivity.
  - apply (proj2 (proj2 (proj2 (extractValue_falsy_collapse
             (Obj []) "unitsType.refName")))); reflexivity.
Defined.

(** A segment that the record does not store can still be found by [in]:
    every object inherits [toString], and [extractValue] then returns the
    inherited function, not the empty string. *)
Lemma extractValue_inherited_member :
  extractValue (Obj []) "toString" = Ok Fn
  /\ stored_path (split_on "." "toString") (Obj []) = None
  /\ ~ (forall data fieldPath,
          stored_path (split_on "." fieldPath) data = None ->
          extractValue data fieldPath = Ok (Str "")).
Proof.
  split; [reflexivity|]. split; [reflexivity|].
  intros H. specialize (H (Obj []) "toString" eq_refl). discriminate.
Qed.

(** ** Transformer: numeric coercion *)

(** An inherited member is a function or a prototype object. *)
Lemma inherited_value (kind : Kind) (k : string) (v : Val) :
  inherited kind k = Some v -> v = Fn \/ v = Proto kind.
Proof.
  unfold inherited. destruct (String.eqb k "__proto__"); [intros [= <-]; right; reflexivity|].
  destruct (_ || _); [intros [= <-]; left; reflexivity | discriminate].
Qed.

(** A name the record does not store reads as 0, inherited or not. *)
Lemma extractNumericValue_unstored (fields : list (string * Val)) (fieldName : string) :
  assoc fieldName fields = None ->
  extractNumericValue (Obj fields) fieldName = Ok (int 0).
Proof.
  intros H. unfold extractNumericValue. cbn [truthy has_property get rbind member].
  rewrite H. destruct (inherited PlainObject fieldName) as [v|] eqn:I; [|reflexivity].
  cbn [rbind]. destruct (inherited_value _ _ _ I) as [-> | ->]; reflexivity.
Qed.

(** C5, as the code has it.  On a record, [extractNumericValue] never throws
    and returns a number: a field that holds a number is returned as it is,
    a field that holds a string gives what [parseFloat] reads from it, or 0
    when that is [NaN].  The number is therefore finite unless the field
    itself holds a non-finite number or a string that [parseFloat] reads as
    an infinity (such as ["Infinity"] or ["1e999"]), which are returned as
    they are; an absent, [null] or [undefined] field and an unparseable
    string give 0, ["12.5"] gives 12.5 and the number 7 gives 7. *)
Theorem extractNumericValue_coercion (fields : list (string * Val)) (fieldName : string) :
  (exists n,
      extractNumericValue (Obj fields) fieldName = Ok n
      /\ ((forall m, assoc fieldName fields = Some (Number m) -> num_is_finite m = true) ->
          (forall s, assoc fieldName fields = Some (Str s) ->
                     parseFloat s <> PosInf /\ parseFloat s <> NegInf) ->
          num_is_finite n = true)
      /\ (forall m, assoc fieldName fields = Some (Number m) -> n = m)
      /\ (forall s, assoc fieldName fields = Some (Str s) ->
                    n = if isNaN (parseFloat s) then int 0 else parseFloat s))
  /\ (assoc fieldName fields = None \/ assoc fieldName fields = Some Null
       \/ assoc fieldName fields = Some Undefined ->
      extractNumericValue (Obj fields) fieldName = Ok (int 0))
  /\ (forall s, assoc fieldName fields = Some (Str s) -> parseFloat s = NaN ->
                extractNumericValue (Obj fields) fieldName = Ok (int 0))
  /\ parseFloat "abc" = NaN
  /\ (assoc fieldName fields = Some (Str "12.5") ->
      extractNumericValue (Obj fields) fieldName = Ok (Fin (25 # 2)))
  /\ (assoc fieldName fields = Some (Number (int 7)) ->
      extractNumericValue (Obj fields) fieldName = Ok (int 7))
  /\ parseFloat "Infinity" = PosInf
  /\ parseFloat "-Infinity" = NegInf
  /\ parseFloat "1e999" = PosInf.
Proof.
  pose proof (extractNumericValue_unstored fields fieldName) as Hnone.
  unfold extractNumericValue in *. cbn [truthy has_property get rbind member] in *.
  split; [|split; [|split; [|split; [|split; [|split; [|split; [|split]]]]]]].
  - destruct (assoc fieldName fields) as [v|]; cbn [rbind].
    2:{ exists (int 0). split; [apply Hnone; reflexivity|].
        split; [reflexivity|]. split; intros ? [=]. }
    destruct v;
      try (exists (int 0); split; [reflexivity|];
           split; [reflexivity|]; split; intros ? [=]).
    + exists n. split; [reflexivity|]. split; [|split].
      * intros Hnum _. apply Hnum. reflexivity.
      * intros m [= <-]. reflexivity.
      * intros s0 [=].
    + eexists. split; [reflexivity|]. split; [|split].
      * intros _ Hstr. destruct (Hstr s eq_refl) as [Hp Hn].
        destruct (parseFloat s); cbn [isNaN]; try contradiction; reflexivity.
      * intros m [=].
      * intros s0 [= <-]. reflexivity.
  - intros [H | [-> | ->]]; [apply Hnone; exact H | reflexivity | reflexivity].
  - intros s -> Hnan. cbn [rbind]. rewrite Hnan. reflexivity.
  - reflexivity.
  - intros ->. reflexivity.
  - intros ->. reflexivity.
  - reflexivity.
  - reflexivity.
  - vm_compute. reflexivity.
Qed.

Lemma extractNumericValue_coercion_witness :
  (exists n, extractNumericValue (Obj [("averageCost", Str "12.5")]) "averageCost" = Ok n
             /\ num_is_finite n = true)
  /\ extractNumericValue (Obj [("averageCost", Null)]) "averageCost" = Ok (int 0)
  /\ extractNumericValue (Obj [("averageCost", Str "abc")]) "averageCost" = Ok (int 0)
  /\ extractNumericValue (Obj [("averageCost", Str "12.5")]) "averageCost"
     = Ok (Fin (25 # 2))
  /\ extractNumericValue (Obj [("averageCost", Number (int 7))]) "averageCost"
     = Ok (int 7).
Proof.
  split; [|split; [|split; [|split]]].
  - destruct (proj1 (extractNumericValue_coercion
                       [("averageCost", Str "12.5")] "averageCost"))
      as (n & Hn & Hfinite & _).
    exists n. split; [exact Hn|]. apply Hfinite.
    + intros m H. vm_compute in H. discriminate.
    + intros s H. vm_compute in H. injection H as <-. vm_compute.
      split; discriminate.
  - apply (proj1 (proj2 (extractNumericValue_coercion
                           [("averageCost", Null)] "averageCost"))).
    right; left; reflexivity.
  - apply (proj1 (proj2 (proj2 (extractNumericValue_coercion
                                  [("averageCost", Str "abc")] "averageCost")))
             "abc"); reflexivity.
  - apply (proj1 (proj2 (proj2 (proj2 (proj2 (extractNumericValue_coercion
             [("averageCost", Str "12.5")] "averageCost")))))).
    reflexivity.
  - apply (proj1 (proj2 (proj2 (proj2 (proj2 (proj2 (extractNumericValue_coercion
             [("averageCost", Number (int 7))] "averageCost"))))))).
    reflexivity.
Defined.

(** A field holding the string ["Infinity"] is returned as the number
    [Infinity], which is not finite. *)
Lemma extractNumericValue_infinity :
  extractNumericValue (Obj [("averageCost", Str "Infinity")]) "averageCost" = Ok PosInf
  /\ num_is_finite PosInf = false
  /\ ~ (exists q, extractNumericValue (Obj [("averageCost", Str "Infinity")])
                                      "averageCost" = Ok (Fin q)).
Proof.
  split; [reflexivity|]. split; [reflexivity|].
  intros [q H]. vm_compute in H. discriminate.
Qed.

(** ** Movement feed: DD/MM/YYYY dates *)

Lemma split_on_nonempty (sep : ascii) (s : string) : split_on sep s <> [].
Proof.
  destruct s as [|c r]; cbn; [discriminate|].
  destruct (Ascii.eqb c sep); [discriminate|].
  destruct (split_on sep r); discriminate.
Qed.

Lemma parseNetSuiteDate_returns (v : Val) :
  coercible v = true ->
  exists r, parseNetSuiteDate v = Ok r /\ (r = Null \/ exists d, r = DateV d).
Proof.
  intros Hv. unfold parseNetSuiteDate.
  destruct (negb (truthy v)); [exists Null; split; [reflexivity | left; reflexivity]|].
  unfold parseNetSuiteDate_try, parseNetSuiteDate_catch.
  destruct (split_slash v) as [parts|e]; cbn [rbind];
    [|rewrite Hv; exists Null; split; [reflexivity | left; reflexivity]].
  destruct parts as [|p0 [|p1 [|p2 [|p3 more]]]];
    try (exists Null; split; [reflexivity | left; reflexivity]).
  eexists; split; [reflexivity|]. right; eexists; reflexivity.
Qed.

(** A value that cannot be converted to a string is an object or an
    array: truthy, and not a string. *)
Lemma not_coercible_object (v : Val) :
  coercible v = false ->
  truthy v = true /\ exists e, split_slash v = Throw e.
Proof.
  destruct v; try discriminate; intros _; (split; [reflexivity | eexists; reflexivity]).
Qed.




(** ** Rate-limited client *)

Section RetryBound.

Context {W R X : Type}.
Variable axios : Config -> W -> Result R * W.
Variable generateOAuthHeaders : Val -> string -> Result string.

Lemma script_request_429 config (st : St W X) :
  always_429 axios config ->
  exists e st',
    netsuiteRequest axios config st = (Throw e, st')
    /\ exn_status e = Some 429
    /\ trace st' = trace st ++ exhausted_log config.
Proof.
  intros H429. destruct st as [w0 tr x].
  destruct (H429 w0) as (e1 & w1 & A1 & S1).
  destruct (H429 w1) as (e2 & w2 & A2 & S2).
  destruct (H429 w2) as (e3 & w3 & A3 & S3).
  destruct (H429 w3) as (e4 & w4 & A4 & S4).
  exists e4, (mkSt w4 (tr ++ exhausted_log config) x).
  unfold netsuiteRequest, netsuiteRequest_from, try_catch, schedule, bind, sleep, throw.
  cbn [upstream trace]. rewrite A1.
  destruct (decide (exn_status e1 = Some 429)) as [_|n]; [|contradiction].
  cbn [upstream trace]. rewrite A2.
  destruct (decide (exn_status e2 = Some 429)) as [_|n]; [|contradiction].
  cbn [upstream trace]. rewrite A3.
  destruct (decide (exn_status e3 = Some 429)) as [_|n]; [|contradiction].
  cbn [upstream trace]. rewrite A4.
  split; [|split; [exact S4 | reflexivity]].
  f_equal. f_equal. rewrite <- !app_assoc. reflexivity.
Qed.

Lemma script_request_other retries config (st : St W X) e w' :
  axios config (upstream st) = (Throw e, w') ->
  exn_status e <> Some 429 ->
  netsuiteRequest_from axios retries config st
  = (Throw e, mkSt w' (trace st ++ [Call config]) (host st)).
Proof.
  intros A Hne.
  destruct retries; cbn [netsuiteRequest_from]; unfold try_catch, schedule;
    rewrite A; [reflexivity|].
  destruct (decide (exn_status e = Some 429)); [contradiction|reflexivity].
Qed.

(** After [j] refused attempts the next answer, whatever it is, ends the
    request unless it is another 429. *)
Lemma script_request_refused config (j : nat) :
  forall retries (st : St W X) w1 r w',
    (j <= retries)%nat ->
    refused axios config j (upstream st) w1 ->
    axios config w1 = (r, w') ->
    (forall e, r = Throw e -> exn_status e <> Some 429) ->
    netsuiteRequest_from axios retries config st
    = (r, mkSt w' (trace st ++ retry_log config retries j) (host st)).
Proof.
  induction j as [|j IH]; intros retries st w1 r w' Hj Href A Hne.
  - inversion Href; subst.
    assert (retry_log config retries 0 = [Call config]) as ->
      by (destruct retries; reflexivity).
    destruct r as [a|e].
    + destruct retries; cbn [netsuiteRequest_from]; unfold try_catch, schedule;
        rewrite A; reflexivity.
    + apply script_request_other; [exact A | apply Hne; reflexivity].
  - inversion Href as [|? ? w2 ? e2 A2 S2 Hrest]; subst.
    destruct retries as [|fewer]; [lia|].
    cbn [netsuiteRequest_from retry_log]. unfold try_catch at 1, schedule at 1.
    rewrite A2.
    destruct (decide (exn_status e2 = Some 429)) as [_|n]; [|contradiction].
    unfold bind, sleep. cbn [upstream trace host].
    match goal with
    | |- context [netsuiteRequest_from _ fewer config ?s] =>
        rewrite (IH fewer s w1 r w' ltac:(lia) Hrest A Hne)
    end.
    cbn [trace host]. rewrite <- !app_assoc. reflexivity.
Qed.

Lemma shared_request_429 config (st : St W X) h :
  generateOAuthHeaders (cfg_url config) (cfg_method config) = Ok h ->
  always_429 axios config ->
  exists e st',
    shared_netsuiteRequest axios generateOAuthHeaders config st = (Throw e, st')
    /\ exn_status e = Some 429
    /\ trace st' = trace st ++ exhausted_log config.
Proof.
  intros Hsign H429. destruct st as [w0 tr x].
  destruct (H429 w0) as (e1 & w1 & A1 & S1).
  destruct (H429 w1) as (e2 & w2 & A2 & S2).
  destruct (H429 w2) as (e3 & w3 & A3 & S3).
  destruct (H429 w3) as (e4 & w4 & A4 & S4).
  exists e4, (mkSt w4 (tr ++ exhausted_log config) x).
  unfold shared_netsuiteRequest, shared_netsuiteRequest_from, try_catch,
    schedule_signed, schedule, bind, lift, sleep, throw.
  rewrite Hsign. cbn [upstream trace]. rewrite A1.
  destruct (decide (exn_status e1 = Some 429)) as [_|n]; [|contradiction].
  cbn [upstream trace]. rewrite A2.
  destruct (decide (exn_status e2 = Some 429)) as [_|n]; [|contradiction].
  cbn [upstream trace]. rewrite A3.
  destruct (decide (exn_status e3 = Some 429)) as [_|n]; [|contradiction].
  cbn [upstream trace]. rewrite A4.
  split; [|split; [exact S4 | reflexivity]].
  f_equal. f_equal. rewrite <- !app_assoc. reflexivity.
Qed.

Lemma shared_request_other retries config (st : St W X) h e w' :
  generateOAuthHeaders (cfg_url config) (cfg_method config) = Ok h ->
  axios config (upstream st) = (Throw e, w') ->
  exn_status e <> Some 429 ->
  shared_netsuiteRequest_from axios generateOAuthHeaders retries config st
  = (Throw e, mkSt w' (trace st ++ [Call config]) (host st)).
Proof.
  intros Hsign A Hne.
  destruct retries; cbn [shared_netsuiteRequest_from];
    unfold try_catch, schedule_signed, schedule, bind, lift;
    rewrite Hsign, A; [reflexivity|].
  destruct (decide (exn_status e = Some 429)); [contradiction|reflexivity].
Qed.

Lemma shared_request_refused config h (j : nat) :
  generateOAuthHeaders (cfg_url config) (cfg_method config) = Ok h ->
  forall retries (st : St W X) w1 r w',
    (j <= retries)%nat ->
    refused axios config j (upstream st) w1 ->
    axios config w1 = (r, w') ->
    (forall e, r = Throw e -> exn_status e <> Some 429) ->
    shared_netsuiteRequest_from axios generateOAuthHeaders retries config st
    = (r, mkSt w' (trace st ++ retry_log config retries j) (host st)).
Proof.
  intros Hsign. induction j as [|j IH]; intros retries st w1 r w' Hj Href A Hne.
  - inversion Href; subst.
    assert (retry_log config retries 0 = [Call config]) as ->
      by (destruct retries; reflexivity).
    destruct r as [a|e].
    + destruct retries; cbn [shared_netsuiteRequest_from];
        unfold try_catch, schedule_signed, schedule, bind, lift;
        rewrite Hsign, A; reflexivity.
    + apply (shared_request_other retries config st h);
        [exact Hsign | exact A | apply Hne; reflexivity].
  - inversion Href as [|? ? w2 ? e2 A2 S2 Hrest]; subst.
    destruct retries as [|fewer]; [lia|].
    cbn [shared_netsuiteRequest_from retry_log].
    unfold try_catch at 1, schedule_signed at 1, schedule at 1.
    unfold bind at 1, lift at 1. rewrite Hsign, A2.
    destruct (decide (exn_status e2 = Some 429)) as [_|n]; [|contradiction].
    unfold bind, sleep. cbn [upstream trace host].
    match goal with
    | |- context [shared_netsuiteRequest_from _ _ fewer config ?s] =>
        rewrite (IH fewer s w1 r w' ltac:(lia) Hrest A Hne)
    end.
    cbn [trace host]. rewrite <- !app_assoc. reflexivity.
Qed.

Lemma retry_log_prefix config (j : nat) :
  (j <= 3)%nat ->
  retry_log config 3 j = firstn (2 * j + 1) (exhausted_log config).
Proof.
  intros Hj. destruct j as [|[|[|[|j]]]]; try reflexivity. lia.
Qed.

(** C2. When every attempt is answered with 429, [netsuiteRequest] makes
    exactly four attempts, waits 5000, 10000 and 15000 ms before the first,
    second and third retry, and then throws the 429 error to its caller.  A
    failure with any other status (or with no response at all) is thrown at
    once, with no retry and no wait, at whichever attempt it occurs: at the
    first, with however many retries left the request is entered, and after
    any number of attempts answered with 429, when the log is the matching
    prefix of call, 5000, call, 10000, call, 15000, call; an attempt that is
    answered after such refusals returns its response in the same way.  The
    same holds of the shared helper of [utils/netsuiteRequest.js]. *)
Theorem netsuiteRequest_retry_bound (config : Config) (st : St W X) (h : string) :
  generateOAuthHeaders (cfg_url config) (cfg_method config) = Ok h ->
  (always_429 axios config ->
     (exists e st',
        netsuiteRequest axios config st = (Throw e, st')
        /\ exn_status e = Some 429
        /\ trace st' = trace st ++ exhausted_log config)
     /\ (exists e st',
          shared_netsuiteRequest axios generateOAuthHeaders config st = (Throw e, st')
          /\ exn_status e = Some 429
          /\ trace st' = trace st ++ exhausted_log config))
  /\ (forall retries e w',
        axios config (upstream st) = (Throw e, w') ->
        exn_status e <> Some 429 ->
        netsuiteRequest_from axios retries config st
        = (Throw e, mkSt w' (trace st ++ [Call config]) (host st))
        /\ shared_netsuiteRequest_from axios generateOAuthHeaders retries config st
           = (Throw e, mkSt w' (trace st ++ [Call config]) (host st)))
  /\ (forall (j : nat) w1 r w',
        (j <= 3)%nat ->
        refused axios config j (upstream st) w1 ->
        axios config w1 = (r, w') ->
        (forall e, r = Throw e -> exn_status e <> Some 429) ->
        netsuiteRequest axios config st
        = (r, mkSt w' (trace st ++ firstn (2 * j + 1) (exhausted_log config)) (host st))
        /\ shared_netsuiteRequest axios generateOAuthHeaders config st
           = (r, mkSt w' (trace st ++ firstn (2 * j + 1) (exhausted_log config))
                      (host st))).
Proof.
  intros Hsign. split; [|split].
  - intros H429. split.
    + apply script_request_429; assumption.
    + apply (shared_request_429 config st h); assumption.
  - intros retries e w' A Hne. split.
    + apply script_request_other; assumption.
    + apply (shared_request_other retries config st h); assumption.
  - intros j w1 r w' Hj Href A Hne. rewrite <- (retry_log_prefix config j Hj). split.
    + apply (script_request_refused config j 3 st w1 r w' Hj Href A Hne).
    + apply (shared_request_refused config h j Hsign 3 st w1 r w' Hj Href A Hne).
Qed.

End RetryBound.

Lemma netsuiteRequest_retry_bound_witness :
  (exists e st',
     netsuiteRequest (Mock.failing (R := Val) 429 "Too Many Requests") Mock.probe (mkSt tt [] tt)
     = (Throw e, st')
     /\ exn_status e = Some 429
     /\ trace st' = exhausted_log Mock.probe)
  /\ netsuiteRequest (Mock.failing (R := Val) 500 "Server Error") Mock.probe (mkSt tt [] tt)
     = (Throw (mkExn (Some 500) "Server Error"), mkSt tt [Call Mock.probe] tt)
  /\ netsuiteRequest (R := Val) Mock.scripted Mock.probe
       (mkSt [Throw (mkExn (Some 429) "Too Many Requests");
              Throw (mkExn (Some 500) "Server Error");
              Ok (Obj [])] [] tt)
     = (Throw (mkExn (Some 500) "Server Error"),
        mkSt [Ok (Obj [])] [Call Mock.probe; Sleep 5000; Call Mock.probe] tt).
Proof.
  split; [|split].
  - apply (proj1 (proj1 (netsuiteRequest_retry_bound
                          (Mock.failing (R := Val) 429 "Too Many Requests") Mock.sign
                          Mock.probe (mkSt tt [] tt) "OAuth" eq_refl)
                   (fun w => ex_intro _ _ (ex_intro _ w (conj eq_refl eq_refl))))).
  - apply (proj1 (proj1 (proj2 (netsuiteRequest_retry_bound
                          (Mock.failing (R := Val) 500 "Server Error") Mock.sign
                          Mock.probe (mkSt tt [] tt) "OAuth" eq_refl))
                   3%nat _ _ eq_refl ltac:(discriminate))).
  - apply (proj1 (proj2 (proj2 (netsuiteRequest_retry_bound
                          (R := Val) Mock.scripted Mock.sign Mock.probe
                          (mkSt [Throw (mkExn (Some 429) "Too Many Requests");
                                 Throw (mkExn (Some 500) "Server Error");
                                 Ok (Obj [])] [] tt) "OAuth" eq_refl))
                   1%nat [Throw (mkExn (Some 500) "Server Error"); Ok (Obj [])]
                   (Throw (mkExn (Some 500) "Server Error")) [Ok (Obj [])]
                   ltac:(lia)
                   (refused_once Mock.scripted Mock.probe 0
                      [Throw (mkExn (Some 429) "Too Many Requests");
                       Throw (mkExn (Some 500) "Server Error"); Ok (Obj [])]
                      [Throw (mkExn (Some 500) "Server Error"); Ok (Obj [])]
                      [Throw (mkExn (Some 500) "Server Error"); Ok (Obj [])]
                      (mkExn (Some 429) "Too Many Requests") eq_refl eq_refl
                      (refused_none Mock.scripted Mock.probe
                         [Throw (mkExn (Some 500) "Server Error"); Ok (Obj [])]))
                   eq_refl ltac:(intros e [= <-]; discriminate))).
Defined.

(** ** Record fetcher: price selection *)

Section PriceSelection.
Import RecordFetcher PriceRule.

Variable sign : Val -> string -> Result string.
Variable to_str : Val -> string.
Hypothesis sign_ok : forall url, exists h, sign url "GET" = Ok h.

Lemma get_truthy (v : Val) (k : string) :
  truthy v = true -> get v k = Ok (get_opt v k).
Proof.
  unfold get_opt. destruct v; cbn; try discriminate; intros _;
    try reflexivity; destruct (String.eqb k "length"); reflexivity.
Qed.

Lemma levels_named_cons name d levels :
  levels_named name (d :: levels) =
  if named name d then d :: levels_named name levels else levels_named name levels.
Proof. reflexivity. Qed.

(** One fetched detail moves the loop variables as the rule says. *)
Lemma price_body_spec (st : PriceScan) (detail : Val) :
  truthy detail = true ->
  price_body st detail = Ok (scan_result st [detail]).
Proof.
  intros T. unfold price_body, scan_result.
  rewrite !levels_named_cons. unfold named, level_price. rewrite T. cbn [andb].
  rewrite !(get_truthy detail _ T). cbn [rbind].
  destruct (is_str "WLP (Base)" (get_opt detail "priceLevelName")) eqn:E1;
    destruct (is_str "LPCP (HKD)" (get_opt detail "priceLevelName")) eqn:E2;
    cbn [rbind levels_named List.filter price currency tradePrice retailPrice
         hasTradePrice hasRetailPrice];
    try reflexivity.
  destruct st; reflexivity.
Qed.

Lemma unnamed_when_full name (flag : bool) levels :
  (length (levels_named name levels) + (if flag then 1 else 0) <= 1)%nat ->
  flag = true -> levels_named name levels = [].
Proof.
  intros H ->. destruct (levels_named name levels); [reflexivity | cbn in H; lia].
Qed.

Lemma scan_result_unnamed (st : PriceScan) (levels : list Val) :
  levels_named "WLP (Base)" levels = [] ->
  levels_named "LPCP (HKD)" levels = [] ->
  scan_result st levels = st.
Proof. unfold scan_result. intros -> ->. destruct st; reflexivity. Qed.

Lemma scan_result_cons (st : PriceScan) (d : Val) (levels : list Val) :
  (length (levels_named "WLP (Base)" (d :: levels))
   + (if hasTradePrice st then 1 else 0) <= 1)%nat ->
  (length (levels_named "LPCP (HKD)" (d :: levels))
   + (if hasRetailPrice st then 1 else 0) <= 1)%nat ->
  scan_result (scan_result st [d]) levels = scan_result st (d :: levels).
Proof.
  rewrite !levels_named_cons. unfold scan_result. rewrite !levels_named_cons.
  intros HW HL.
  destruct (named "WLP (Base)" d); destruct (named "LPCP (HKD)" d);
    cbn [levels_named List.filter price currency tradePrice retailPrice
         hasTradePrice hasRetailPrice length] in *;
    repeat match goal with
      | H : (S (length ?l) + _ <= 1)%nat |- _ =>
          assert (l = []) by (destruct l; [reflexivity | cbn in H; lia]);
          clear H
      end;
    repeat match goal with H : levels_named _ _ = [] |- _ => rewrite H end;
    reflexivity.
Qed.

Lemma scripted_request (c : Config) (d : Val) script tr :
  netsuiteRequest Mock.scripted c (mkSt (Ok d :: script) tr tt)
  = (Ok d, mkSt script (tr ++ [Call c]) tt).
Proof. reflexivity. Qed.

Lemma scripted_signed_get (url d : Val) script tr :
  signed_get Mock.scripted sign url (mkSt (Ok d :: script) tr tt)
  = (Ok d, mkSt script (tr ++ [Call (mkConfig "GET" url Undefined 30000)]) tt).
Proof.
  unfold signed_get, bind, lift. destruct (sign_ok url) as [h ->].
  apply scripted_request.
Qed.

(** The loop over the price-list entries, against the scripted details. *)
Lemma price_loop_scripted (itemId : Val) (items levels : list Val) :
  Forall2 (fun it _ => has_href it) items levels ->
  forall st rest tr,
    (length (levels_named "WLP (Base)" levels)
     + (if hasTradePrice st then 1 else 0) <= 1)%nat ->
    (length (levels_named "LPCP (HKD)" levels)
     + (if hasRetailPrice st then 1 else 0) <= 1)%nat ->
    exists st',
      price_loop Mock.scripted sign itemId items st
                 (mkSt (map Ok levels ++ rest) tr tt)
      = (Ok (scan_result st levels), st').
Proof.
  induction 1 as [|it d items levels [href Hhref] _ IH]; intros st rest tr HW HL.
  - eexists. cbn. destruct st; reflexivity.
  - cbn [price_loop].
    destruct (hasTradePrice st && hasRetailPrice st) eqn:Full.
    + apply andb_prop in Full as [FT FR].
      rewrite (scan_result_unnamed st (d :: levels)
                 (unnamed_when_full _ _ _ HW FT)
                 (unnamed_when_full _ _ _ HL FR)).
      eexists; reflexivity.
    + unfold bind at 1, lift at 1. rewrite Hhref.
      unfold bind at 1, fetchPriceDetail, try_catch.
      cbn [map app]. rewrite scripted_signed_get.
      destruct (truthy d) eqn:T; cbn [negb].
      * unfold bind at 1, lift at 1. rewrite (price_body_spec st d T).
        rewrite <- (scan_result_cons st d levels HW HL).
        apply IH.
        -- rewrite levels_named_cons in HW. unfold scan_result.
           rewrite !levels_named_cons.
           destruct (named "WLP (Base)" d);
             cbn [hasTradePrice levels_named List.filter length] in *; lia.
        -- rewrite levels_named_cons in HL. unfold scan_result.
           rewrite !levels_named_cons.
           destruct (named "LPCP (HKD)" d);
             cbn [hasRetailPrice levels_named List.filter length] in *; lia.
      * assert (Hskip : forall name, levels_named name (d :: levels)
                                     = levels_named name levels).
        { intros name. rewrite levels_named_cons. unfold named. rewrite T.
          reflexivity. }
        unfold scan_result. rewrite !Hskip.
        rewrite !Hskip in HW, HL. apply IH; assumption.
Qed.

Lemma levels_named_perm name (l l' : list Val) :
  Permutation l l' -> Permutation (levels_named name l) (levels_named name l').
Proof.
  induction 1 as [|x l l' _ IH|x y l|l l' l'' _ IH1 _ IH2].
  - constructor.
  - rewrite !levels_named_cons. destruct (named name x); [constructor|]; exact IH.
  - rewrite !levels_named_cons.
    destruct (named name x); destruct (named name y);
      try reflexivity. apply perm_swap.
  - etransitivity; eassumption.
Qed.

(** With at most one level of a name, the order of the levels does not
    change which level carries it. *)
Lemma levels_named_order name (l l' : list Val) :
  Permutation l l' -> at_most_one name l ->
  levels_named name l' = levels_named name l.
Proof.
  intros P U. apply (levels_named_perm name) in P. unfold at_most_one in U.
  destruct (levels_named name l) as [|d [|d' more]].
  - apply Permutation_nil in P. exact P.
  - apply Permutation_length_1_inv in P. exact P.
  - cbn in U. lia.
Qed.

Lemma resolve_order cur (l l' : list Val) :
  Permutation l l' ->
  at_most_one "WLP (Base)" l -> at_most_one "LPCP (HKD)" l ->
  resolve cur l' = resolve cur l.
Proof.
  intros P UW UL. unfold resolve, selected, present.
  rewrite (levels_named_order _ l l' P UW), (levels_named_order _ l l' P UL).
  reflexivity.
Qed.

Lemma selected_falsy name levels :
  truthy (selected name levels) = false -> selected name levels = zero.
Proof.
  unfold selected. destruct (levels_named name levels) as [|d _]; [reflexivity|].
  unfold level_price, or_else.
  destruct (truthy (get_opt d "price")) eqn:T; [|reflexivity].
  intros F. rewrite T in F. discriminate.
Qed.

(** What [fetchPriceInformation] returns from the loop variables is the
    resolved price data. *)
Lemma resolve_scan cur levels :
  let st := scan_result (mkScan zero cur zero zero false false) levels in
  priceData (if negb (truthy (price st)) && truthy (tradePrice st)
             then tradePrice st else price st)
            (currency st) (tradePrice st) (retailPrice st)
  = resolve cur levels.
Proof.
  cbn zeta. unfold scan_result, resolve, present, selected.
  cbn [price currency tradePrice retailPrice].
  set (retail := match levels_named "LPCP (HKD)" levels with
                 | d :: _ => level_price d | [] => zero end).
  set (trade := match levels_named "WLP (Base)" levels with
                | d :: _ => level_price d | [] => zero end).
  assert (Hr : truthy retail = false -> retail = zero)
    by (apply (selected_falsy "LPCP (HKD)" levels)).
  assert (Ht : truthy trade = false -> trade = zero)
    by (apply (selected_falsy "WLP (Base)" levels)).
  destruct (levels_named "LPCP (HKD)" levels) as [|d more];
    destruct (truthy retail) eqn:Tr; cbn [negb andb]; try reflexivity;
    destruct (truthy trade) eqn:Tt; try reflexivity;
    rewrite (Hr eq_refl), (Ht eq_refl); reflexivity.
Qed.

Lemma fetchPriceInformation_scripted
      (itemId priceUrl itemCurrency : Val) (cur : string)
      (items levels : list Val) (tr : list Event) :
  initial_currency itemCurrency = Ok cur ->
  Forall2 (fun it _ => has_href it) items levels ->
  at_most_one "WLP (Base)" levels -> at_most_one "LPCP (HKD)" levels ->
  exists st',
    fetchPriceInformation Mock.scripted sign to_str itemId priceUrl itemCurrency
                          (mkSt (price_script items levels) tr tt)
    = (Ok (resolve cur levels), st').
Proof.
  intros Hcur Hitems UW UL.
  unfold fetchPriceInformation, try_catch, price_script.
  unfold bind at 1. rewrite scripted_signed_get.
  unfold bind at 1, lift at 1. rewrite Hcur.
  unfold bind at 1, lift at 1. cbn [get member assoc String.eqb Ascii.eqb Bool.eqb].
  unfold bind at 1, lift at 1. cbn [or_else truthy iterate].
  unfold bind at 1.
  destruct (price_loop_scripted itemId items levels Hitems
              (mkScan zero cur zero zero false false) []
              (tr ++ [Call (mkConfig "GET" priceUrl Undefined 30000)]))
    as [st' Hloop].
  { cbn [hasTradePrice]. unfold at_most_one in UW. lia. }
  { cbn [hasRetailPrice]. unfold at_most_one in UL. lia. }
  rewrite app_nil_r in Hloop. rewrite Hloop.
  exists st'. unfold ret. rewrite resolve_scan. reflexivity.
Qed.

End PriceSelection.

Section Assembly.
Import RecordFetcher.

Lemma assoc_set_field_eq k v fs : assoc k (set_field k v fs) = Some v.
Proof.
  induction fs as [|[k' v'] fs IH]; cbn.
  - rewrite String.eqb_refl. reflexivity.
  - destruct (String.eqb k k') eqn:E; cbn; rewrite ?String.eqb_refl, ?E; auto.
Qed.

Lemma assoc_set_field_ne k k' v fs :
  String.eqb k k' = false -> assoc k (set_field k' v fs) = assoc k fs.
Proof.
  intros Hne. induction fs as [|[k2 v2] fs IH]; cbn.
  - rewrite Hne. reflexivity.
  - destruct (String.eqb k' k2) eqn:E; cbn.
    + apply String.eqb_eq in E. subst k2. rewrite Hne. reflexivity.
    + destruct (String.eqb k k2); [reflexivity | exact IH].
Qed.

Context {W X : Type}.
Variable axios : Config -> W -> Result Val * W.
Variable generateOAuthHeaders : Val -> string -> Result string.
Variable baseUrl : string.
Variable to_str : Val -> string.

Lemma bind_ok {A B} (m : M W X A) (k : A -> M W X B) st b st' :
  bind m k st = (Ok b, st') ->
  exists a st1, m st = (Ok a, st1) /\ k a st1 = (Ok b, st').
Proof.
  unfold bind. destruct (m st) as [[a|e] st1]; [|discriminate].
  intros H. exists a, st1. split; [reflexivity | exact H].
Qed.

(** Without a price reference the record carries the default price data. *)
Lemma enrich_without_price_reference (itemId data : Val) (st : St W X) r st' :
  has_links (get_opt data "price") = false ->
  enrich axios generateOAuthHeaders to_str itemId data st = (Ok r, st') ->
  get r "priceData" = Ok defaultPriceData.
Proof.
  intros Hno H. unfold enrich in H.
  apply bind_ok in H as (priceRef & s1 & H1 & H).
  unfold lift in H1. injection H1 as H1 <-.
  assert (priceRef = get_opt data "price") as -> by (unfold get_opt; rewrite H1; reflexivity).
  rewrite Hno in H.
  apply bind_ok in H as (pd & s2 & H2 & H). injection H2 as <- <-.
  apply bind_ok in H as (locRef & s3 & _ & H).
  apply bind_ok in H as (located & s4 & _ & H).
  injection H as <- _. cbn [get member set_fields fold_left fst snd].
  rewrite assoc_set_field_ne by reflexivity.
  rewrite assoc_set_field_ne by reflexivity.
  rewrite assoc_set_field_eq. reflexivity.
Qed.

End Assembly.

(** C1, as the code has it.  Against an upstream that serves the price list
    and then one detail per entry, with at most one level named "WLP (Base)"
    and at most one named "LPCP (HKD)", [fetchPriceInformation] returns the
    same price data whatever the order of the levels: the "WLP (Base)" price
    as trade price and the "LPCP (HKD)" price as retail price; the retail
    price is displayed when it is not zero, the trade price otherwise.  The
    currency is "HKD" once an "LPCP (HKD)" level was read and otherwise the
    one derived from the item ("EUR", "USD" or "HKD"), also for an empty
    list.  A record with no price reference gets price 0 in "HKD". *)
Theorem price_selection_priority
        (sign : Val -> string -> Result string)
        (itemId priceUrl itemCurrency : Val) (cur : string)
        (levels : list Val) (tr : list Event) :
  (forall url, exists h, sign url "GET" = Ok h) ->
  RecordFetcher.initial_currency itemCurrency = Ok cur ->
  PriceRule.at_most_one "WLP (Base)" levels ->
  PriceRule.at_most_one "LPCP (HKD)" levels ->
  (forall levels' items',
      Permutation levels levels' ->
      Forall2 (fun it _ => PriceRule.has_href it) items' levels' ->
      exists st',
        RecordFetcher.fetchPriceInformation Mock.scripted sign Mock.to_str itemId
          priceUrl itemCurrency (mkSt (PriceRule.price_script items' levels') tr tt)
        = (Ok (PriceRule.resolve cur levels), st'))
  /\ (get (PriceRule.resolve cur levels) "tradePrice"
       = Ok (PriceRule.selected "WLP (Base)" levels)
      /\ get (PriceRule.resolve cur levels) "retailPrice"
         = Ok (PriceRule.selected "LPCP (HKD)" levels))
  /\ (PriceRule.present "LPCP (HKD)" levels = true ->
      get (PriceRule.resolve cur levels) "currency" = Ok (Str "HKD")
      /\ (truthy (PriceRule.selected "LPCP (HKD)" levels) = true ->
          get (PriceRule.resolve cur levels) "price"
          = Ok (PriceRule.selected "LPCP (HKD)" levels)))
  /\ (PriceRule.present "LPCP (HKD)" levels = false ->
      get (PriceRule.resolve cur levels) "price"
      = Ok (PriceRule.selected "WLP (Base)" levels)
      /\ get (PriceRule.resolve cur levels) "currency" = Ok (Str cur))
  /\ (levels = [] ->
      PriceRule.resolve cur levels = RecordFetcher.priceData zero cur zero zero)
  /\ (forall data (st : St (list (Result Val)) unit) r st',
        RecordFetcher.has_links (get_opt data "price") = false ->
        RecordFetcher.enrich Mock.scripted sign Mock.to_str itemId data st = (Ok r, st') ->
        get r "priceData" = Ok (RecordFetcher.priceData zero "HKD" zero zero)).
Proof.
  intros Hsign Hcur UW UL.
  split; [|split; [|split; [|split; [|split]]]].
  - intros levels' items' P Hitems.
    rewrite <- (resolve_order cur levels levels' P UW UL).
    apply fetchPriceInformation_scripted; try assumption.
    + unfold PriceRule.at_most_one.
      rewrite (levels_named_order _ levels levels' P UW). exact UW.
    + unfold PriceRule.at_most_one.
      rewrite (levels_named_order _ levels levels' P UL). exact UL.
  - split; reflexivity.
  - intros Hp. unfold PriceRule.resolve. rewrite Hp. split; [reflexivity|].
    intros ->. reflexivity.
  - intros Hp. unfold PriceRule.resolve. rewrite Hp. split; [|reflexivity].
    unfold PriceRule.selected at 1 2. unfold PriceRule.present in Hp.
    destruct (PriceRule.levels_named "LPCP (HKD)" levels); [reflexivity | discriminate].
  - intros ->. reflexivity.
  - intros data st r st' Hno H.
    apply (enrich_without_price_reference Mock.scripted sign Mock.to_str
             itemId data st r st' Hno H).
Qed.

Lemma price_selection_priority_witness :
  (exists st',
     RecordFetcher.fetchPriceInformation Mock.scripted Mock.sign Mock.to_str (Str "7")
       (Str "price/7") (Str "HKD")
       (mkSt (PriceRule.price_script
                [Obj [("links", Arr [Obj [("href", Str "price/7/2")]])];
                 Obj [("links", Arr [Obj [("href", Str "price/7/1")]])]]
                [Obj [("priceLevelName", Str "LPCP (HKD)"); ("price", Number (int 120))];
                 Obj [("priceLevelName", Str "WLP (Base)"); ("price", Number (int 100))]])
             [] tt)
     = (Ok (RecordFetcher.priceData (Number (int 120)) "HKD"
                                    (Number (int 100)) (Number (int 120))), st'))
  /\ (exists st',
       RecordFetcher.fetchPriceInformation Mock.scripted Mock.sign Mock.to_str (Str "7")
         (Str "price/7") Undefined
         (mkSt (PriceRule.price_script
                  [Obj [("links", Arr [Obj [("href", Str "price/7/1")]])]]
                  [Obj [("priceLevelName", Str "WLP (Base)"); ("price", Number (int 100))]])
               [] tt)
       = (Ok (RecordFetcher.priceData (Number (int 100)) "HKD"
                                      (Number (int 100)) zero), st')).
Proof.
  split.
  - apply (proj1 (price_selection_priority Mock.sign (Str "7") (Str "price/7")
                    (Str "HKD") "HKD"
                    [Obj [("priceLevelName", Str "WLP (Base)"); ("price", Number (int 100))];
                     Obj [("priceLevelName", Str "LPCP (HKD)"); ("price", Number (int 120))]]
                    []
                    (fun url => ex_intro _ "OAuth" eq_refl) eq_refl
                    ltac:(vm_compute; lia) ltac:(vm_compute; lia))).
    + apply perm_swap.
    + repeat constructor; eexists; reflexivity.
  - apply (proj1 (price_selection_priority Mock.sign (Str "7") (Str "price/7")
                    Undefined "HKD"
                    [Obj [("priceLevelName", Str "WLP (Base)"); ("price", Number (int 100))]]
                    []
                    (fun url => ex_intro _ "OAuth" eq_refl) eq_refl
                    ltac:(vm_compute; lia) ltac:(vm_compute; lia))).
    + apply Permutation_refl.
    + repeat constructor; eexists; reflexivity.
Defined.

(** With an empty price list the currency is the item's, not "HKD". *)
Lemma price_currency_follows_item :
  RecordFetcher.fetchPriceInformation Mock.scripted Mock.sign Mock.to_str (Str "7")
    (Str "price/7") (Str "EUR") (mkSt (PriceRule.price_script [] []) [] tt)
  = (Ok (RecordFetcher.priceData zero "EUR" zero zero),
     mkSt [] [Call (mkConfig "GET" (Str "price/7") Undefined 30000)] tt)
  /\ get (RecordFetcher.priceData zero "EUR" zero zero) "currency" <> Ok (Str "HKD").
Proof. split; [reflexivity | discriminate]. Qed.

(** ** Record fetcher: inactive items *)

Section InactiveShortCircuit.
Import RecordFetcher.

Context {W X : Type}.
Variable axios : Config -> W -> Result Val * W.
Variable generateOAuthHeaders : Val -> string -> Result string.
Variable baseUrl : string.
Variable to_str : Val -> string.

Lemma netsuiteRequest_log (retries : nat) (config : Config) :
  forall (st : St W X) r st',
    netsuiteRequest_from axios retries config st = (r, st') ->
    exists evs, trace st' = trace st ++ evs
                /\ Forall (fun ev => ev = Call config \/ exists ms, ev = Sleep ms) evs.
Proof.
  induction retries as [|fewer IH]; intros st r st' H;
    cbn [netsuiteRequest_from] in H; unfold try_catch, schedule in H;
    destruct (axios config (upstream st)) as [[d|e] w] eqn:A.
  - injection H as <- <-. exists [Call config]. split; [reflexivity|].
    constructor; [left; reflexivity | constructor].
  - injection H as <- <-. exists [Call config]. split; [reflexivity|].
    constructor; [left; reflexivity | constructor].
  - injection H as <- <-. exists [Call config]. split; [reflexivity|].
    constructor; [left; reflexivity | constructor].
  - destruct (decide (exn_status e = Some 429)).
    + unfold bind, sleep in H. cbn [upstream trace] in H.
      apply IH in H as (evs & Htr & Hall). cbn [trace] in Htr.
      exists (Call config :: Sleep ((4 - Z.of_nat (S fewer)) * 5000) :: evs).
      split; [rewrite Htr, <- !app_assoc; reflexivity|].
      constructor; [left; reflexivity|].
      constructor; [right; eexists; reflexivity | exact Hall].
    + injection H as <- <-. exists [Call config]. split; [reflexivity|].
      constructor; [left; reflexivity | constructor].
Qed.

Lemma signed_get_log (url : Val) (st : St W X) r st' :
  signed_get axios generateOAuthHeaders url st = (r, st') ->
  exists evs, trace st' = trace st ++ evs /\ Forall (request_event url) evs.
Proof.
  unfold signed_get, bind, lift.
  destruct (generateOAuthHeaders url "GET").
  - apply netsuiteRequest_log.
  - intros [= <- <-]. exists []. split; [rewrite app_nil_r; reflexivity | constructor].
Qed.

(** X11.  The sweep script returns the zeroed record of an inactive item
    as soon as the item itself is fetched, for every upstream and every
    identifier that can be converted to a string (as the URL requires): the
    only requests are those for the item, and the record has the default
    price data, no locations and a total quantity of 0. *)
Lemma sweep_inactive_short_circuit (itemId data : Val) (st : St W X) st1 :
  coercible itemId = true ->
  signed_get axios generateOAuthHeaders (item_url baseUrl to_str itemId) st
  = (Ok data, st1) ->
  is_true (get_opt data "isInactive") = true ->
  SweepScript.fetchInventoryItemDetail axios generateOAuthHeaders baseUrl to_str itemId st
  = (Ok (inactive_record data), st1)
  /\ (exists evs, trace st1 = trace st ++ evs
                  /\ Forall (request_event (item_url baseUrl to_str itemId)) evs)
  /\ get (inactive_record data) "priceData" = Ok defaultPriceData
  /\ get defaultPriceData "price" = Ok zero
  /\ get (inactive_record data) "locationsData" = Ok (Arr [])
  /\ get (inactive_record data) "totalQuantity" = Ok zero.
Proof.
  intros Hid Hget Hinactive.
  split; [|split; [apply (signed_get_log _ _ _ _ Hget)|]].
  - unfold SweepScript.fetchInventoryItemDetail, try_catch, bind, lift, ToString.
    rewrite Hid, Hget, Hinactive. reflexivity.
  - unfold inactive_record. cbn [get member set_fields fold_left fst snd].
    repeat split.
    + do 2 (rewrite assoc_set_field_ne by reflexivity).
      rewrite assoc_set_field_eq. reflexivity.
    + rewrite assoc_set_field_ne by reflexivity.
      rewrite assoc_set_field_eq. reflexivity.
    + rewrite assoc_set_field_eq. reflexivity.
Qed.

End InactiveShortCircuit.

(** C3 on [scripts/syncInventory.js]: its [fetchInventoryItemDetail] has no
    inactive check.  For an inactive item that carries a price and a
    locations link it fetches the price list, the price level, the location
    list and the location, and returns the enriched record. *)
Theorem basic_script_enriches_inactive_item :
  exists record,
    BasicScript.fetchInventoryItemDetail (Mock.routed Mock.inactive_route)
      Mock.sign Mock.base Mock.to_str (Str "7") (mkSt tt [] tt)
    = (Ok record,
       mkSt tt
         (map (fun url => Call (mkConfig "GET" (Str url) Undefined 30000))
              ["https://upstream/record/v1/inventoryitem/7";
               "price/7"; "price/7/1"; "locations/7"; "locations/7/1"]) tt)
    /\ get record "isInactive" = Ok (Bool true)
    /\ get record "priceData"
       = Ok (RecordFetcher.priceData (Number (int 120)) "HKD" zero (Number (int 120)))
    /\ get record "totalQuantity" = Ok (Number (int 5)).
Proof. eexists. split; [vm_compute; reflexivity|]. repeat split. Qed.

(** On the same upstream the sweep script stops after the item itself. *)
Lemma sweep_script_skips_inactive_item :
  SweepScript.fetchInventoryItemDetail (Mock.routed Mock.inactive_route)
    Mock.sign Mock.base Mock.to_str (Str "7") (mkSt tt [] tt)
  = (Ok (RecordFetcher.inactive_record Mock.inactive_item),
     mkSt tt [Call (mkConfig "GET" (Str "https://upstream/record/v1/inventoryitem/7")
                             Undefined 30000)] tt).
Proof.
  apply (sweep_inactive_short_circuit (Mock.routed Mock.inactive_route) Mock.sign
           Mock.base Mock.to_str (Str "7") Mock.inactive_item (mkSt tt [] tt));
    reflexivity.
Defined.

(** ** Paginator *)

Section Pagination.
Import Paginator.

Variable sign : Val -> string -> Result string.
Hypothesis sign_ok : forall url, exists h, sign url "GET" = Ok h.
Variable baseUrl : string.
Variable options : Options.

Lemma uncapped_le n n' :
  (n' <= n)%nat -> uncapped options n -> uncapped options n'.
Proof. unfold uncapped. destruct (maxItems options); [lia | trivial]. Qed.

Lemma capped_false s :
  uncapped options (length (allItems s)) -> capped options s = false.
Proof.
  unfold uncapped, capped. destruct (maxItems options); [|reflexivity].
  intros H. apply Z.leb_gt. exact H.
Qed.

(** The request of an iteration, spelled out. *)
Lemma page_url_spelled (s : Sweep) :
  page_url baseUrl options s
  = Str (baseUrl ++ "/inventoryItem?limit="
                 ++ pretty (match maxItems options with
                            | None => Z.min (batchSize options) 1000
                            | Some m => Z.min (Z.min (batchSize options) 1000)
                                              (m - Z.of_nat (length (allItems s)))
                            end)
                 ++ "&offset=" ++ pretty (offset s))%string.
Proof.
  unfold page_url, itemsToFetch, limit. destruct (maxItems options); reflexivity.
Qed.

(** A page that is served: the iteration appends its items and moves the
    offset by their number, after one request and, when the page reports
    more, one wait. *)
Lemma sweep_iteration_served (s : Sweep) (page : Listing) script tr :
  uncapped options (length (allItems s ++ page_items page)) ->
  offset s = Z.of_nat (length (allItems s)) ->
  sweep_iteration Mock.scripted sign baseUrl options s (mkSt (Ok page :: script) tr tt)
  = (Ok (Next (mkSweep (allItems s ++ page_items page) (page_hasMore page)
                       (offset s + Z.of_nat (length (page_items page)))
                       (match totalResults s with
                        | None => page_totalResults page
                        | Some t => Some t
                        end)
                       (batchNumber s + 1))),
     mkSt script (tr ++ served_log baseUrl options (offset s) [page]) tt).
Proof.
  intros Hcap Hoff. unfold sweep_iteration, try_catch, sweep_try.
  rewrite (capped_false s)
    by (eapply uncapped_le; [|exact Hcap]; rewrite length_app; lia).
  unfold bind at 1, lift at 1.
  destruct (sign_ok (page_url baseUrl options s)) as [h ->].
  unfold bind at 1. cbn [netsuiteRequest netsuiteRequest_from try_catch schedule
                         Mock.scripted upstream trace host].
  rewrite page_url_spelled. cbn [served_log]. rewrite <- Hoff.
  assert (Hbelow : match maxItems options with
                   | None => true
                   | Some m => Z.of_nat (length (allItems s ++ page_items page)) <? m
                   end = true).
  { unfold uncapped in Hcap. destruct (maxItems options); [|reflexivity].
    apply Z.ltb_lt. exact Hcap. }
  rewrite Hbelow, Bool.andb_true_r.
  unfold bind, sleep, ret.
  destruct (page_hasMore page); cbn [upstream trace host app];
    rewrite ?app_nil_r, <- ?app_assoc; reflexivity.
Qed.

Lemma served_log_app (fetched : Z) (pages more : list Listing) :
  served_log baseUrl options fetched (pages ++ more)
  = served_log baseUrl options fetched pages
    ++ served_log baseUrl options
         (fetched + Z.of_nat (length (concat (map page_items pages)))) more.
Proof.
  revert fetched. induction pages as [|page pages IH]; intros fetched.
  - cbn [app served_log map concat length]. rewrite Z.add_0_r. reflexivity.
  - cbn [app served_log map concat]. rewrite IH, length_app.
    rewrite <- !app_assoc. cbn [app]. do 3 f_equal. f_equal. lia.
Qed.

Lemma sweep_loop_pages (pages : list Listing) :
  forall (last : Listing) (s : Sweep) script tr fuel,
    Forall (fun p => page_hasMore p = true) pages ->
    page_hasMore last = false ->
    hasMore s = true ->
    offset s = Z.of_nat (length (allItems s)) ->
    (length pages < fuel)%nat ->
    uncapped options (length (allItems s
                              ++ concat (map page_items (pages ++ [last])))) ->
    sweep_loop Mock.scripted sign baseUrl options fuel s
               (mkSt (map Ok (pages ++ [last]) ++ script) tr tt)
    = (Ok (Some (allItems s ++ concat (map page_items (pages ++ [last])))),
       mkSt script (tr ++ served_log baseUrl options (offset s) (pages ++ [last])) tt).
Proof.
  induction pages as [|p pages IH];
    intros last s script tr fuel Hmore Hlast Hs Hoff Hfuel Hcap.
  - destruct fuel as [|fuel]; [cbn in Hfuel; lia|].
    cbn [sweep_loop app map]. rewrite Hs. cbn [negb].
    unfold bind at 1. rewrite (sweep_iteration_served s last script tr).
    + destruct fuel; cbn [sweep_loop hasMore]; rewrite Hlast;
        cbn [negb allItems concat]; rewrite app_nil_r; reflexivity.
    + eapply uncapped_le; [|exact Hcap]. cbn [app map concat].
      rewrite !length_app. cbn [length]. lia.
    + exact Hoff.
  - destruct fuel as [|fuel]; [cbn in Hfuel; lia|].
    inversion Hmore as [|? ? Hp Hrest]; subst.
    cbn [sweep_loop app map]. rewrite Hs. cbn [negb].
    unfold bind at 1.
    rewrite (sweep_iteration_served s p (map Ok (pages ++ [last]) ++ script) tr).
    2:{ eapply uncapped_le; [|exact Hcap]. cbn [app map concat].
        rewrite !length_app. lia. }
    2:{ exact Hoff. }
    rewrite IH.
    + cbn [allItems offset concat]. rewrite <- !app_assoc.
      change (p :: pages ++ [last]) with ([p] ++ (pages ++ [last])).
      rewrite (served_log_app (offset s) [p]). cbn [map concat].
      rewrite app_nil_r. reflexivity.
    + exact Hrest.
    + exact Hlast.
    + cbn [hasMore]. exact Hp.
    + cbn [offset allItems]. rewrite length_app. lia.
    + cbn in Hfuel. lia.
    + cbn [allItems]. rewrite <- app_assoc. exact Hcap.
Qed.

(** A page whose request fails: the iteration keeps the items, skips one
    page width, and clears [hasMore] exactly when the new offset is past
    the expected total. *)
Lemma sweep_iteration_failed {W X : Type} (axios : Config -> W -> Result Listing * W)
      (s : Sweep) (st : St W X) e st' :
  capped options s = false ->
  netsuiteRequest axios (mkConfig "GET" (page_url baseUrl options s) Undefined 30000) st
  = (Throw e, st') ->
  sweep_iteration axios sign baseUrl options s st
  = (Ok (Next (sweep_catch options s)), st').
Proof.
  intros Hcap Hreq. unfold sweep_iteration, try_catch, sweep_try.
  rewrite Hcap. unfold bind at 1, lift at 1.
  destruct (sign_ok (page_url baseUrl options s)) as [h ->].
  unfold bind at 1. rewrite Hreq. reflexivity.
Qed.

End Pagination.



(** ** Upserter *)

Section Upsert.
Import Store.

Context {K : Type} `{Countable K}.
Variable castKey : Val -> Result K.
Variable key_value : K -> Val.
Variable castPath : string -> Val -> Result Val.
Variable validate : list (string * Val) -> Result unit.
Variable defaults : gmap string Val.

(** The validators of the schema ([required], [enum]) do not read the
    [_id] of a sub-document. *)
Hypothesis validate_ids :
  forall l l', same_fields_but_ids l l' -> validate l = validate l'.

Local Abbreviation upsert := (findOneAndUpdate castKey key_value castPath validate defaults).
Local Abbreviation upserts := (upsert_at castKey key_value castPath validate defaults).

Lemma mint_but_ids (elements : list Val) :
  forall n n',
    without_ids (Arr (fst (mint n elements)))
    = without_ids (Arr (fst (mint n' elements))).
Proof.
  induction elements as [|element rest IH]; intros n n'; [reflexivity|].
  assert (Hrest : forall m m',
             map (fun element =>
                    match element with
                    | Obj fields =>
                        Obj (List.filter (fun kv => negb (String.eqb (fst kv) "_id"))
                                         fields)
                    | other => other
                    end) (fst (mint m rest))
             = map (fun element =>
                      match element with
                      | Obj fields =>
                          Obj (List.filter (fun kv => negb (String.eqb (fst kv) "_id"))
                                           fields)
                      | other => other
                      end) (fst (mint m' rest))).
  { intros m m'. pose proof (IH m m') as E. cbn [without_ids] in E.
    injection E as E. exact E. }
  cbn [without_ids]. f_equal.
  destruct element as [| |b|x|t|xs|fields|d| |k]; cbn [mint];
    try (destruct (mint n rest) as [s1 a1] eqn:E1;
         destruct (mint n' rest) as [s2 a2] eqn:E2; cbn [fst map]; f_equal;
         pose proof (Hrest n n') as E; rewrite E1, E2 in E; exact E).
  destruct (assoc "_id" fields).
  - destruct (mint n rest) as [s1 a1] eqn:E1;
      destruct (mint n' rest) as [s2 a2] eqn:E2; cbn [fst map]; f_equal.
    pose proof (Hrest n n') as E; rewrite E1, E2 in E; exact E.
  - destruct (mint (S n) rest) as [s1 a1] eqn:E1;
      destruct (mint (S n') rest) as [s2 a2] eqn:E2; cbn [fst map].
    rewrite !List.filter_app. cbn [List.filter fst String.eqb Ascii.eqb Bool.eqb negb].
    f_equal.
    pose proof (Hrest (S n) (S n')) as E; rewrite E1, E2 in E; exact E.
Qed.

(** The cast of an update does not depend on the ObjectIds created before
    it, but for the [_id] it gives to sub-documents. *)
Lemma cast_fields_again (fields : list (string * Val)) :
  forall n n' l1 n1,
    cast_fields castPath n fields = Ok (l1, n1) ->
    exists l2 n2,
      cast_fields castPath n' fields = Ok (l2, n2) /\ same_fields_but_ids l1 l2.
Proof.
  induction fields as [|[path value] rest IH]; intros n n' l1 n1.
  - cbn [cast_fields]. intros [= <- <-]. exists [], n'. split; [reflexivity|constructor].
  - cbn [cast_fields]. destruct (castPath path value) as [cast|e]; cbn [rbind];
      [|discriminate].
    set (placed := fun next : nat =>
                     match cast with
                     | Arr elements =>
                         if names_include document_arrays path
                         then let '(subdocs, n) := mint next elements in (Arr subdocs, n)
                         else (cast, next)
                     | _ => (cast, next)
                     end).
    change (match cast with
            | Arr elements =>
                if names_include document_arrays path
                then let '(subdocs, n) := mint n elements in (Arr subdocs, n)
                else (cast, n)
            | _ => (cast, n)
            end) with (placed n).
    change (match cast with
            | Arr elements =>
                if names_include document_arrays path
                then let '(subdocs, n) := mint n' elements in (Arr subdocs, n)
                else (cast, n')
            | _ => (cast, n')
            end) with (placed n').
    assert (Hplaced : if names_include document_arrays path
                      then without_ids (fst (placed n)) = without_ids (fst (placed n'))
                      else fst (placed n) = fst (placed n')).
    { subst placed. cbv beta.
      destruct (names_include document_arrays path) eqn:Hpath.
      - destruct cast as [| |b|x|t|elements|fields|d| |k]; try reflexivity.
        pose proof (mint_but_ids elements n n') as E.
        destruct (mint n elements), (mint n' elements). exact E.
      - destruct cast; reflexivity. }
    destruct (placed n) as [stored after], (placed n') as [stored' after'].
    cbn [fst] in Hplaced.
    destruct (cast_fields castPath after rest) as [[others m]|e] eqn:Hrest;
      cbn [rbind]; [|discriminate].
    intros [= <- <-].
    destruct (IH after after' others m Hrest) as (l2 & n2 & -> & Hsame).
    cbn [rbind fst snd]. eexists _, _. split; [reflexivity|].
    constructor; [|exact Hsame]. cbn [fst snd]. split; [reflexivity|exact Hplaced].
Qed.

Lemma same_fields_lookup (l l' : list (string * Val)) (f : string) :
  same_fields_but_ids l l' ->
  match (list_to_map l : Doc) !! f, (list_to_map l' : Doc) !! f with
  | Some v, Some v' =>
      if names_include document_arrays f
      then without_ids v = without_ids v' else v = v'
  | None, None => True
  | _, _ => False
  end.
Proof.
  induction 1 as [|[k v] [k' v'] l l' [Hk Hv] Hrest IH]; cbn [fst snd] in *.
  - cbn [list_to_map foldr]. rewrite !lookup_empty. exact I.
  - subst k'. cbn [list_to_map foldr uncurry fst snd].
    destruct (decide (k = f)) as [->|Hne].
    + rewrite !lookup_insert_eq. exact Hv.
    + rewrite !lookup_insert_ne by exact Hne. exact IH.
Qed.

(** An identical upsert over a record that is, but for [updatedAt] and the
    sub-document ids, the one the first call left. *)
Lemma findOneAndUpdate_over t n n0 id update db key l1 n1 (old doc1 : Doc) :
  castKey id = Ok key ->
  cast_fields castPath n0 (declared update) = Ok (l1, n1) ->
  validate l1 = Ok tt ->
  (forall f v, f <> "updatedAt" ->
               (list_to_map l1 : Doc) !! f = Some v -> doc1 !! f = Some v) ->
  same_but_updatedAt_and_ids old doc1 ->
  db !! key = Some old ->
  exists doc2 n2,
    upsert t n id update db = Ok (doc2, <[key := doc2]> db, n2)
    /\ doc2 !! "updatedAt" = Some (stamp t)
    /\ same_but_updatedAt_and_ids doc2 doc1.
Proof.
  intros Hk Hcast Hv Hwritten Hold Hdb.
  destruct (cast_fields_again (declared update) n0 n l1 n1 Hcast)
    as (l2 & n2 & Hcast2 & Hsame).
  unfold findOneAndUpdate. rewrite Hk, Hcast2. cbn [rbind fst snd].
  rewrite <- (validate_ids l1 l2 Hsame), Hv. cbn [rbind]. rewrite Hdb.
  eexists _, _. split; [reflexivity|]. split; [apply lookup_insert_eq|].
  intros f Hf. rewrite lookup_insert_ne by congruence. rewrite lookup_union.
  pose proof (same_fields_lookup l1 l2 f Hsame) as Hf12.
  pose proof (Hold f Hf) as Hfold.
  destruct ((list_to_map l1 : Doc) !! f) as [v1|] eqn:E1;
    destruct ((list_to_map l2 : Doc) !! f) as [v2|] eqn:E2; try contradiction.
  - rewrite (Hwritten f v1 Hf E1), ?E2.
    destruct (old !! f); destruct (names_include document_arrays f); cbn; congruence.
  - rewrite ?E2. destruct (old !! f); exact Hfold.
Qed.

Lemma findOneAndUpdate_shape t n id update db doc1 db1 n1 :
  upsert t n id update db = Ok (doc1, db1, n1) ->
  exists key l1,
    castKey id = Ok key
    /\ cast_fields castPath n (declared update) = Ok (l1, n1)
    /\ validate l1 = Ok tt
    /\ db1 = <[key := doc1]> db
    /\ doc1 !! "updatedAt" = Some (stamp t)
    /\ (forall f v, f <> "updatedAt" ->
                    (list_to_map l1 : Doc) !! f = Some v -> doc1 !! f = Some v).
Proof.
  unfold findOneAndUpdate.
  destruct (castKey id) as [key|]; cbn [rbind]; [|discriminate].
  destruct (cast_fields castPath n (declared update)) as [[l1 m]|]; cbn [rbind];
    [|discriminate].
  cbn [fst snd]. destruct (validate l1) as [[]|] eqn:Hv; cbn [rbind]; [|discriminate].
  intros [= <- <- <-]. exists key, l1.
  split; [reflexivity|]. split; [reflexivity|]. split; [exact Hv|].
  split; [reflexivity|]. split.
  - destruct (db !! key); apply lookup_insert_eq.
  - intros f v Hf Hl.
    destruct (db !! key); rewrite lookup_insert_ne by congruence;
      rewrite lookup_union, Hl;
      match goal with |- union (Some _) ?o = _ => destruct o; reflexivity end.
Qed.

Lemma same_but_updatedAt_and_ids_refl (doc : Doc) : same_but_updatedAt_and_ids doc doc.
Proof.
  intros f _. destruct (names_include document_arrays f); reflexivity.
Qed.

Lemma last_cons (later : list Z) (t1 t2 : Z) :
  List.last (t2 :: later) t1 = List.last later t2.
Proof.
  revert t1 t2. induction later as [|a l IH]; intros t1 t2; [reflexivity|].
  change (List.last (t2 :: a :: l) t1) with (List.last (a :: l) t1).
  rewrite (IH t1 a). symmetry. apply (IH t2 a).
Qed.

Lemma upsert_at_following (later : list Z) :
  forall t n n0 id update db key l1 n1 (old doc1 : Doc),
    castKey id = Ok key ->
    cast_fields castPath n0 (declared update) = Ok (l1, n1) ->
    validate l1 = Ok tt ->
    (forall f v, f <> "updatedAt" ->
                 (list_to_map l1 : Doc) !! f = Some v -> doc1 !! f = Some v) ->
    same_but_updatedAt_and_ids old doc1 ->
    old !! "updatedAt" = Some (stamp t) ->
    exists doc m,
      upserts later n id update (<[key := old]> db) = Ok (<[key := doc]> db, m)
      /\ doc !! "updatedAt" = Some (stamp (List.last later t))
      /\ same_but_updatedAt_and_ids doc doc1.
Proof.
  induction later as [|t2 later IH];
    intros t n n0 id update db key l1 n1 old doc1 Hk Hcast Hv Hwritten Hold Hat.
  - cbn [upsert_at List.last]. exists old, n. repeat split; assumption.
  - cbn [upsert_at].
    destruct (findOneAndUpdate_over t2 n n0 id update (<[key := old]> db) key l1 n1
                old doc1 Hk Hcast Hv Hwritten Hold (lookup_insert_eq _ _ _))
      as (doc2 & n2 & -> & Hat2 & Hsame2).
    cbn [rbind fst snd]. rewrite insert_insert_eq.
    destruct (IH t2 n2 n0 id update db key l1 n1 doc2 doc1 Hk Hcast Hv Hwritten
                Hsame2 Hat2) as (doc & m & -> & Hlast & Hsame).
    exists doc, m. rewrite last_cons. repeat split; assumption.
Qed.

End Upsert.

(** C9, as the code has it.  Once a record has been upserted, upserting the
    unchanged record again, at whatever time and whatever ObjectIds have been
    created in between, succeeds and stores under the same key a record that
    differs from the first at most in [updatedAt], which is the time of that
    call, and in the [_id] of the elements of [locations]; no other record
    is touched.  After any number of identical calls the collection is the
    one after the first call but for that record, which has the [updatedAt]
    of the last call and differs from the first at most in [updatedAt] and
    those [_id].  The casts and validators of the schema are taken as given,
    the validators not reading the [_id] of a sub-document. *)
Theorem upsert_idempotent_up_to_updatedAt
        {K : Type} `{Countable K}
        (castKey : Val -> Result K) (key_value : K -> Val)
        (castPath : string -> Val -> Result Val)
        (validate : list (string * Val) -> Result unit) (defaults : gmap string Val)
        (t1 : Z) (n : nat) (id : Val) (update : list (string * Val))
        (db : gmap K (gmap string Val)) (doc1 : gmap string Val)
        (db1 : gmap K (gmap string Val)) (n1 : nat) :
  (forall l l', Store.same_fields_but_ids l l' -> validate l = validate l') ->
  Store.findOneAndUpdate castKey key_value castPath validate defaults t1 n id update db
  = Ok (doc1, db1, n1) ->
  exists key,
    castKey id = Ok key
    /\ db1 !! key = Some doc1
    /\ doc1 !! "updatedAt" = Some (Store.stamp t1)
    /\ (forall t2 n2,
          exists doc2 n3,
            Store.findOneAndUpdate castKey key_value castPath validate defaults
              t2 n2 id update db1
            = Ok (doc2, <[key := doc2]> db1, n3)
            /\ doc2 !! "updatedAt" = Some (Store.stamp t2)
            /\ Store.same_but_updatedAt_and_ids doc2 doc1
            /\ (forall k, k <> key -> (<[key := doc2]> db1) !! k = db1 !! k))
    /\ (forall later,
          exists doc m,
            Store.upsert_at castKey key_value castPath validate defaults
              (t1 :: later) n id update db
            = Ok (<[key := doc]> db1, m)
            /\ doc !! "updatedAt" = Some (Store.stamp (List.last later t1))
            /\ Store.same_but_updatedAt_and_ids doc doc1).
Proof.
  intros Hids H1.
  destruct (findOneAndUpdate_shape castKey key_value castPath validate defaults
              _ _ _ _ _ _ _ _ H1)
    as (key & l1 & Hk & Hcast & Hv & Hdb1 & Hat & Hwritten).
  exists key. split; [exact Hk|]. split; [rewrite Hdb1; apply lookup_insert_eq|].
  split; [exact Hat|]. split.
  - intros t2 n2.
    destruct (findOneAndUpdate_over castKey key_value castPath validate defaults Hids
                t2 n2 n id update db1 key l1 n1 doc1 doc1 Hk Hcast Hv Hwritten
                (same_but_updatedAt_and_ids_refl doc1)
                ltac:(rewrite Hdb1; apply lookup_insert_eq))
      as (doc2 & n3 & Hcall & Hat2 & Hsame).
    exists doc2, n3. repeat split; try assumption.
    intros k Hne. apply lookup_insert_ne. congruence.
  - intros later. cbn [Store.upsert_at]. rewrite H1. cbn [rbind fst snd].
    rewrite Hdb1.
    destruct (upsert_at_following castKey key_value castPath validate defaults Hids
                later t1 n1 n id update db key l1 n1 doc1 doc1 Hk Hcast Hv Hwritten
                (same_but_updatedAt_and_ids_refl doc1) Hat)
      as (doc & m & Hcalls & Hlast & Hsame).
    exists doc, m. rewrite insert_insert_eq. repeat split; assumption.
Qed.

Lemma upsert_idempotent_up_to_updatedAt_witness :
  exists doc1 db1 n1,
    Store.findOneAndUpdate Mock.castKey Mock.key_value Mock.castPath Mock.accept ∅
      1 0 (Number (int 7))
      [("internalId", Number (int 7)); ("itemName", Str "Margaux 2015");
       ("locations", Arr [Obj [("locationId", Number (int 3));
                               ("quantityOnHand", Number (int 12))]])] ∅
    = Ok (doc1, db1, n1)
    /\ exists doc m,
         Store.upsert_at Mock.castKey Mock.key_value Mock.castPath Mock.accept ∅
           [1; 2; 3] 0 (Number (int 7))
           [("internalId", Number (int 7)); ("itemName", Str "Margaux 2015");
            ("locations", Arr [Obj [("locationId", Number (int 3));
                                    ("quantityOnHand", Number (int 12))]])] ∅
         = Ok (<[7 := doc]> db1, m)
         /\ doc !! "updatedAt" = Some (Store.stamp 3)
         /\ Store.same_but_updatedAt_and_ids doc doc1.
Proof.
  eexists _, _, _. split; [reflexivity|].
  destruct (upsert_idempotent_up_to_updatedAt
              Mock.castKey Mock.key_value Mock.castPath Mock.accept ∅ 1 0
              (Number (int 7))
              [("internalId", Number (int 7)); ("itemName", Str "Margaux 2015");
               ("locations", Arr [Obj [("locationId", Number (int 3));
                                       ("quantityOnHand", Number (int 12))]])]
              ∅ _ _ _ (fun _ _ _ => eq_refl) eq_refl)
    as (key & Hk & _ & _ & _ & Hlater).
  injection Hk as <-. exact (Hlater [2; 3]).
Defined.

(** Identical calls do not leave identical records: a second call at a later
    time stores the time of the second call in [updatedAt], and a second
    call at the very same clock reading stores [locations] whose elements
    have other [_id] than after the first. *)
Lemma upsert_refreshes_updatedAt :
  Store.upsert_at Mock.castKey Mock.key_value Mock.castPath Mock.accept ∅
    [1; 2] 0 (Number (int 7))
    [("internalId", Number (int 7)); ("itemName", Str "Margaux 2015")] ∅
  <> Store.upsert_at Mock.castKey Mock.key_value Mock.castPath Mock.accept ∅
       [1] 0 (Number (int 7))
       [("internalId", Number (int 7)); ("itemName", Str "Margaux 2015")] ∅
  /\ exists db2 m2 db1 m1,
       Store.upsert_at Mock.castKey Mock.key_value Mock.castPath Mock.accept ∅
         [1; 1] 0 (Number (int 7))
         [("internalId", Number (int 7));
          ("locations", Arr [Obj [("locationId", Number (int 3))]])] ∅
       = Ok (db2, m2)
       /\ Store.upsert_at Mock.castKey Mock.key_value Mock.castPath Mock.accept ∅
            [1] 0 (Number (int 7))
            [("internalId", Number (int 7));
             ("locations", Arr [Obj [("locationId", Number (int 3))]])] ∅
          = Ok (db1, m1)
       /\ (db2 !! 7) ≫= (fun doc => doc !! "locations")
          = Some (Arr [Obj [("locationId", Number (int 3));
                            ("_id", Store.ObjectId 1)]])
       /\ (db1 !! 7) ≫= (fun doc => doc !! "locations")
          = Some (Arr [Obj [("locationId", Number (int 3));
                            ("_id", Store.ObjectId 0)]]).
Proof.
  split.
  - intros E.
    apply (f_equal (fun r => match r with
                             | Ok (db, _) => (db !! 7) ≫= (fun doc => doc !! "updatedAt")
                             | Throw _ => None
                             end)) in E.
    vm_compute in E. discriminate.
  - eexists _, _, _, _. split; [reflexivity|]. split; [reflexivity|].
    split; vm_compute; reflexivity.
Qed.

(** ** Orchestration: per-record fault isolation *)

Section Keeping.

Context {W X : Type}.
Variable I : X -> Prop.

Lemma keeps_ret {A} (a : A) : keeps (W := W) I (ret a).
Proof. intros st r st' [= <- <-] H. exact H. Qed.

Lemma keeps_throw {A} (e : Exn) : keeps (W := W) (A := A) I (throw e).
Proof. intros st r st' [= <- <-] H. exact H. Qed.

Lemma keeps_lift {A} (r0 : Result A) : keeps (W := W) I (lift r0).
Proof. intros st r st' [= <- <-] H. exact H. Qed.

Lemma keeps_bind {A B} (m : M W X A) (k : A -> M W X B) :
  keeps I m -> (forall a, keeps I (k a)) -> keeps I (bind m k).
Proof.
  intros Hm Hk st r st' Hrun HI. unfold bind in Hrun.
  destruct (m st) as [[a|e] st1] eqn:E.
  - apply (Hk a st1 r st' Hrun). apply (Hm st _ st1 E HI).
  - injection Hrun as <- <-. apply (Hm st _ st1 E HI).
Qed.

Lemma keeps_try_catch {A} (body : M W X A) (handler : Exn -> M W X A) :
  keeps I body -> (forall e, keeps I (handler e)) -> keeps I (try_catch body handler).
Proof.
  intros Hb Hh st r st' Hrun HI. unfold try_catch in Hrun.
  destruct (body st) as [[a|e] st1] eqn:E.
  - injection Hrun as <- <-. apply (Hb st _ st1 E HI).
  - apply (Hh e st1 r st' Hrun). apply (Hb st _ st1 E HI).
Qed.

Lemma keeps_sleep ms : keeps (W := W) I (sleep ms).
Proof. intros st r st' [= <- <-] H. exact H. Qed.

Lemma keeps_schedule {R} (axios : Config -> W -> Result R * W) c :
  keeps I (schedule axios c).
Proof.
  intros st r st' Hrun H. unfold schedule in Hrun.
  destruct (axios c (upstream st)). injection Hrun as <- <-. exact H.
Qed.

Lemma keeps_netsuiteRequest {R} (axios : Config -> W -> Result R * W) c retries :
  keeps I (netsuiteRequest_from axios retries c).
Proof.
  induction retries as [|fewer IH]; cbn [netsuiteRequest_from];
    apply keeps_try_catch; try apply keeps_schedule; intros e;
    try apply keeps_throw.
  destruct (decide (exn_status e = Some 429)); [|apply keeps_throw].
  apply keeps_bind; [apply keeps_sleep | intros _; exact IH].
Qed.

End Keeping.

(** Splits a computation along its binds and handlers. *)
Ltac keeping_step :=
  match goal with
    | |- keeps _ (ret _) => apply keeps_ret
    | |- keeps _ (throw _) => apply keeps_throw
    | |- keeps _ (lift _) => apply keeps_lift
    | |- keeps _ (sleep _) => apply keeps_sleep
    | |- keeps _ (netsuiteRequest _ _) => apply keeps_netsuiteRequest
    | |- keeps _ (bind _ _) => apply keeps_bind; [|intros ?]
    | |- keeps _ (try_catch _ _) => apply keeps_try_catch; [|intros ?]
    | |- keeps _ (if ?c then _ else _) => destruct c
    | |- keeps _ (match ?x with _ => _ end) => destruct x
  end.

Ltac keeping :=
  repeat match goal with
    | |- keeps _ (ret _) => apply keeps_ret
    | |- keeps _ (throw _) => apply keeps_throw
    | |- keeps _ (lift _) => apply keeps_lift
    | |- keeps _ (sleep _) => apply keeps_sleep
    | |- keeps _ (netsuiteRequest _ _) => apply keeps_netsuiteRequest
    | |- keeps _ (bind _ _) => apply keeps_bind; [|intros ?]
    | |- keeps _ (try_catch _ _) => apply keeps_try_catch; [|intros ?]
    | |- keeps _ (if ?c then _ else _) => destruct c
    | |- keeps _ (match ?x with _ => _ end) => destruct x
    end.

Section FetcherKeeping.
Import RecordFetcher.

Context {W X : Type}.
Variable I : X -> Prop.
Variable axios : Config -> W -> Result Val * W.
Variable sign : Val -> string -> Result string.
Variable baseUrl : string.
Variable to_str : Val -> string.

Lemma keeps_signed_get url : keeps I (signed_get axios sign url).
Proof. unfold signed_get. keeping. Qed.

Lemma keeps_fetchPriceDetail itemId url :
  keeps I (fetchPriceDetail axios sign itemId url).
Proof. unfold fetchPriceDetail. keeping; try apply keeps_signed_get. Qed.

Lemma keeps_price_loop itemId items :
  forall st0, keeps I (price_loop axios sign itemId items st0).
Proof.
  induction items as [|it items IH]; intros st0; cbn [price_loop]; keeping;
    try first [apply IH | apply keeps_fetchPriceDetail].
Qed.

Lemma keeps_fetchPriceInformation itemId url cur :
  keeps I (fetchPriceInformation axios sign to_str itemId url cur).
Proof.
  unfold fetchPriceInformation. keeping;
    try first [apply keeps_price_loop | apply keeps_signed_get].
Qed.

Lemma keeps_fetchLocationDetails itemId url :
  keeps I (fetchLocationDetails axios sign to_str itemId url).
Proof. unfold fetchLocationDetails. keeping; try apply keeps_signed_get. Qed.

Lemma keeps_locations_loop itemId items :
  forall acc, keeps I (locations_loop axios sign to_str itemId items acc).
Proof.
  induction items as [|it items IH]; intros acc; cbn [locations_loop]; keeping;
    try first [apply IH | apply keeps_fetchLocationDetails].
Qed.

Lemma keeps_fetchItemLocations itemId url :
  keeps I (fetchItemLocations axios sign to_str itemId url).
Proof.
  unfold fetchItemLocations. keeping;
    try first [apply keeps_locations_loop | apply keeps_signed_get].
Qed.

Lemma keeps_enrich itemId data :
  keeps I (enrich axios sign to_str itemId data).
Proof.
  unfold enrich. keeping;
    try first [apply keeps_fetchPriceInformation | apply keeps_fetchItemLocations].
Qed.

Lemma keeps_sweep_fetch itemId :
  keeps I (SweepScript.fetchInventoryItemDetail axios sign baseUrl to_str itemId).
Proof.
  unfold SweepScript.fetchInventoryItemDetail. keeping;
    try first [apply keeps_enrich | apply keeps_signed_get].
Qed.

Lemma keeps_basic_fetch itemId :
  keeps I (BasicScript.fetchInventoryItemDetail axios sign baseUrl to_str itemId).
Proof.
  unfold BasicScript.fetchInventoryItemDetail. keeping;
    try first [apply keeps_enrich | apply keeps_signed_get].
Qed.

End FetcherKeeping.

Section HostKeeping.
Import Store Process.

Context {W V K : Type} `{Countable K}.
Variable I : Host K V -> Prop.
Variable castKey : Val -> Result K.
Variable key_value : K -> Val.
Variable castPath : string -> Val -> Result Val.
Variable validate : list (string * Val) -> Result unit.
Variable defaults : gmap string Val.
Variable clock : list Event -> Z.

Lemma keeps_now : keeps (W := W) I (now clock).
Proof. intros st r st' [= <- <-] Hi. exact Hi. Qed.

Lemma keeps_modify (f : V -> V) :
  (forall h, I h -> I (mkHost (database h) (errorLog h) (minted h) (f (vars h)))) ->
  keeps (W := W) I (modify f).
Proof. intros Hf st r st' [= <- <-] Hi. apply Hf. exact Hi. Qed.

Lemma keeps_writeErrorLog itemId message :
  (forall h log, I h -> I (mkHost (database h) log (minted h) (vars h))) ->
  keeps (W := W) I (writeErrorLog itemId message).
Proof.
  intros Hl st r st' Hrun Hi. unfold writeErrorLog in Hrun.
  destruct (coercible itemId); injection Hrun as <- <-; [apply Hl|]; exact Hi.
Qed.

Lemma keeps_db_findOneAndUpdate id update :
  (forall h t doc db' next,
      findOneAndUpdate castKey key_value castPath validate defaults t (minted h)
                       id update (database h) = Ok (doc, db', next) ->
      I h -> I (mkHost db' (errorLog h) next (vars h))) ->
  keeps (W := W) I
        (db_findOneAndUpdate castKey key_value castPath validate defaults clock
                             id update).
Proof.
  intros Hdb st r st' Hrun Hi. unfold db_findOneAndUpdate in Hrun.
  destruct (findOneAndUpdate castKey key_value castPath validate defaults
              (clock (trace st)) (minted (host st)) id update
              (database (host st))) as [[[doc db'] next]|e] eqn:E.
  - injection Hrun as <- <-. apply (Hdb _ _ _ _ _ E Hi).
  - injection Hrun as <- <-. exact Hi.
Qed.

Lemma try_catch_total (body : M W (Host K V) unit) handler :
  (forall e, total (handler e)) -> total (try_catch body handler).
Proof.
  intros Hh st. unfold try_catch.
  destruct (body st) as [[[]|e] st1]; [eexists; reflexivity | apply Hh].
Qed.

End HostKeeping.

Section RunInvariants.
Import Store Process.

Context {K : Type} `{Countable K}.
Variable castKey : Val -> Result K.

Lemma tally_failed count recorded itemId message (h : Host K Run.Vars) :
  Run.tally count recorded h ->
  Run.tally count recorded
    (mkHost (database h) (errorLog h) (minted h) (Run.failed itemId message (vars h))).
Proof.
  intros (Hc & [more Hm] & Hs). split; [exact Hc|]. split; [|exact Hs].
  exists (more ++ [(itemId, message)]). cbn. rewrite Hm, app_assoc. reflexivity.
Qed.

Lemma tally_skipped count recorded (h : Host K Run.Vars) :
  Run.tally count recorded h ->
  Run.tally count recorded
    (mkHost (database h) (errorLog h) (minted h) (Run.skipped (vars h))).
Proof. intros Ht. exact Ht. Qed.

Lemma tally_saved count recorded transformedData (h : Host K Run.Vars) :
  Run.tally count recorded h ->
  Run.tally count recorded
    (mkHost (database h) (errorLog h) (minted h)
            (Run.saved transformedData (vars h))).
Proof.
  intros (Hc & He & Hs). split; [exact Hc|]. split; [exact He|].
  cbn. rewrite Hs, length_app. cbn. lia.
Qed.

Lemma stored_failed itemId message (h : Host K Run.Vars) :
  Run.saved_in_store castKey h ->
  Run.saved_in_store castKey
    (mkHost (database h) (errorLog h) (minted h) (Run.failed itemId message (vars h))).
Proof. intros Hs. exact Hs. Qed.

Lemma stored_skipped (h : Host K Run.Vars) :
  Run.saved_in_store castKey h ->
  Run.saved_in_store castKey
    (mkHost (database h) (errorLog h) (minted h) (Run.skipped (vars h))).
Proof. intros Hs. exact Hs. Qed.

Lemma tally_start (h : Host K Run.Vars) :
  vars h = Run.start -> Run.tally 0 [] h.
Proof.
  intros Hstart. unfold Run.tally, Run.errors_extend. rewrite Hstart. cbn.
  split; [reflexivity|]. split; [exists []; reflexivity | reflexivity].
Qed.

Lemma stored_start (h : Host K Run.Vars) :
  vars h = Run.start -> Run.saved_in_store castKey h.
Proof. intros Hstart t Hin. rewrite Hstart in Hin. destruct Hin. Qed.

End RunInvariants.

Section SaveKeeping.
Import Store Process.

Context {W K : Type} `{Countable K}.
Variable castKey : Val -> Result K.
Variable key_value : K -> Val.
Variable castPath : string -> Val -> Result Val.
Variable validate : list (string * Val) -> Result unit.
Variable defaults : gmap string Val.
Variable clock : list Event -> Z.

(** The save and its count, together: the record counted is the record
    just written. *)
Lemma keeps_save (transformedData : list (string * Val))
      (rest : unit -> M W (Host K Run.Vars) unit) :
  (forall u, keeps (Run.saved_in_store castKey) (rest u)) ->
  keeps (Run.saved_in_store castKey)
    (let! _ := db_findOneAndUpdate castKey key_value castPath validate defaults clock
                 (Run.member transformedData "internalId") transformedData in
     let! u := modify (Run.saved transformedData) in
     rest u).
Proof.
  intros Hrest st r st' Hrun Hs. unfold bind at 1 in Hrun.
  unfold db_findOneAndUpdate in Hrun.
  destruct (findOneAndUpdate castKey key_value castPath validate defaults
              (clock (trace st)) (minted (host st))
              (Run.member transformedData "internalId") transformedData
              (database (host st))) as [[[doc db'] next]|e] eqn:E.
  - unfold bind, modify in Hrun. cbn [host with_host] in Hrun.
    eapply (Hrest tt); [exact Hrun|]. cbn [host with_host].
    apply findOneAndUpdate_shape in E as (key & l1 & Hk & _ & _ & -> & _).
    intros t Hin. cbn [vars Run.saved Run.savedItems] in Hin.
    apply in_app_or in Hin as [Hin|[<-|[]]].
    + destruct (Hs t Hin) as (k & Hkk & Hsome). exists k. split; [exact Hkk|].
      cbn [database]. destruct (decide (key = k)) as [->|Hne].
      * rewrite lookup_insert_eq. eexists; reflexivity.
      * rewrite lookup_insert_ne by exact Hne. exact Hsome.
    + exists key. split; [exact Hk|]. cbn [database].
      rewrite lookup_insert_eq. eexists; reflexivity.
  - injection Hrun as <- <-. exact Hs.
Qed.

End SaveKeeping.

Section SweepIsolation.
Import Store Process Transformer.

Context {W K : Type} `{Countable K}.
Variable axios : Config -> W -> Result Val * W.
Variable sign : Val -> string -> Result string.
Variable baseUrl : string.
Variable to_str : Val -> string.
Variable Date_of : Val -> Date.
Variable stringify : Val -> string.
Variable castKey : Val -> Result K.
Variable key_value : K -> Val.
Variable castPath : string -> Val -> Result Val.
Variable validate : list (string * Val) -> Result unit.
Variable defaults : gmap string Val.
Variable clock : list Event -> Z.
Variable shortName : Val -> Result Val.

Local Abbreviation item_turn :=
  (SweepScript.syncAllInventory_item axios sign baseUrl to_str Date_of stringify
     castKey key_value castPath validate defaults clock shortName).
Local Abbreviation items_loop :=
  (SweepScript.syncAllInventory_items axios sign baseUrl to_str Date_of stringify
     castKey key_value castPath validate defaults clock shortName).
Local Abbreviation item_try :=
  (SweepScript.item_try axios sign baseUrl to_str Date_of stringify
     castKey key_value castPath validate defaults clock shortName).
Local Abbreviation item_catch := (SweepScript.item_catch (W := W) (K := K) to_str).
Local Abbreviation upsert :=
  (findOneAndUpdate castKey key_value castPath validate defaults).

Ltac sweep_keeping :=
  unfold SweepScript.item_try, SweepScript.item_catch, SweepScript.save_try,
    SweepScript.save_catch;
  repeat first
    [ apply keeps_save; intros ?
    | keeping_step
    | apply keeps_sweep_fetch
    | apply keeps_now
    | apply keeps_modify; intros ? ?;
      first [apply tally_failed | apply tally_skipped | apply tally_saved
            | apply stored_failed | apply stored_skipped];
      assumption
    | apply keeps_writeErrorLog; intros ? ? ?; assumption
    | apply keeps_db_findOneAndUpdate; intros ? ? ? ? ? ? ?; assumption ].

Lemma keeps_turn_tally count recorded itemId :
  keeps (Run.tally count recorded) (try_catch (item_try itemId) (item_catch itemId)).
Proof. sweep_keeping. Qed.

Lemma keeps_turn_stored itemId :
  keeps (Run.saved_in_store castKey)
        (try_catch (item_try itemId) (item_catch itemId)).
Proof. sweep_keeping. Qed.

Lemma item_catch_total itemId e :
  coercible itemId = true -> total (item_catch itemId e).
Proof.
  intros Hc st. unfold SweepScript.item_catch, bind, lift, ToString, modify,
                  writeErrorLog.
  rewrite Hc. eexists. reflexivity.
Qed.

(** A turn of the loop over a candidate whose [id] can be printed never
    throws: it counts the record and leaves the tally and the store
    consistent. *)
Lemma sweep_item_turn item st count recorded :
  Run.has_printable_id item ->
  Run.tally count recorded (host st) ->
  Run.saved_in_store castKey (host st) ->
  exists st',
    item_turn item st = (Ok tt, st')
    /\ Run.tally (count + 1) recorded (host st')
    /\ Run.saved_in_store castKey (host st').
Proof.
  intros (itemId & Hid & Hc) Ht Hs. unfold SweepScript.syncAllInventory_item.
  unfold bind at 1, lift at 1. rewrite Hid.
  unfold bind at 1, modify at 1.
  set (st1 := with_host st _).
  unfold bind at 1, lift at 1, ToString at 1. rewrite Hc.
  destruct (try_catch_total (item_try itemId) (item_catch itemId)
              (fun e => item_catch_total itemId e Hc) st1) as [st' Hrun].
  exists st'. split; [exact Hrun|]. split.
  - apply (keeps_turn_tally (count + 1) recorded itemId st1 _ st' Hrun).
    destruct Ht as (Hcount & He & Hsv). repeat split; cbn; try assumption. lia.
  - apply (keeps_turn_stored itemId st1 _ st' Hrun). exact Hs.
Qed.

Lemma sweep_items_run (items : list Val) :
  forall st count recorded,
    Forall Run.has_printable_id items ->
    Run.tally count recorded (host st) ->
    Run.saved_in_store castKey (host st) ->
    exists st',
      items_loop items st = (Ok tt, st')
      /\ Run.tally (count + Z.of_nat (length items)) recorded (host st')
      /\ Run.saved_in_store castKey (host st').
Proof.
  induction items as [|item items IH]; intros st count recorded Hids Ht Hs.
  - exists st. split; [reflexivity|]. split; [|exact Hs].
    cbn [length]. rewrite Z.add_0_r. exact Ht.
  - inversion Hids as [|? ? Hid Hrest]; subst.
    destruct (sweep_item_turn item st count recorded Hid Ht Hs)
      as (st1 & Hturn & Ht1 & Hs1).
    destruct (IH st1 (count + 1) recorded Hrest Ht1 Hs1) as (st' & Hloop & Ht' & Hs').
    exists st'. split.
    + cbn [SweepScript.syncAllInventory_items]. unfold bind at 1.
      rewrite Hturn. exact Hloop.
    + split; [|exact Hs'].
      replace (count + Z.of_nat (length (item :: items)))
        with (count + 1 + Z.of_nat (length items)) by (cbn [length]; lia).
      exact Ht'.
Qed.

(** The start of a turn, up to the [try]. *)
Lemma sweep_turn_start item itemId st :
  get item "id" = Ok itemId ->
  coercible itemId = true ->
  item_turn item st
  = try_catch (item_try itemId) (item_catch itemId) (Run.counted st).
Proof.
  intros Hid Hc. unfold SweepScript.syncAllInventory_item.
  unfold bind at 1, lift at 1. rewrite Hid.
  unfold bind at 1, modify at 1. fold (Run.counted st).
  unfold bind at 1, lift at 1, ToString at 1. rewrite Hc. reflexivity.
Qed.

Lemma sweep_turn_unprintable item itemId st :
  get item "id" = Ok itemId ->
  coercible itemId = false ->
  item_turn item st
  = (Throw (TypeError "Cannot convert object to primitive value"), Run.counted st).
Proof.
  intros Hid Hc. unfold SweepScript.syncAllInventory_item.
  unfold bind at 1, lift at 1. rewrite Hid.
  unfold bind at 1, modify at 1. fold (Run.counted st).
  unfold bind at 1, lift at 1, ToString at 1. rewrite Hc. reflexivity.
Qed.

Lemma sweep_fetch_failure item itemId st d st2 :
  get item "id" = Ok itemId ->
  coercible itemId = true ->
  SweepScript.fetchInventoryItemDetail axios sign baseUrl to_str itemId (Run.counted st)
  = (Ok d, st2) ->
  truthy d = false ->
  item_turn item st
  = (Ok tt, Run.recorded_failure true itemId "Failed to fetch details" st2).
Proof.
  intros Hid Hc Hfetch Hfalsy. rewrite (sweep_turn_start item itemId st Hid Hc).
  unfold try_catch, SweepScript.item_try. unfold bind at 1.
  rewrite Hfetch, Hfalsy.
  unfold bind, lift, ToString, modify, writeErrorLog. rewrite Hc. reflexivity.
Qed.

Lemma sweep_transform_failure item itemId st d st2 e :
  get item "id" = Ok itemId ->
  coercible itemId = true ->
  SweepScript.fetchInventoryItemDetail axios sign baseUrl to_str itemId (Run.counted st)
  = (Ok d, st2) ->
  truthy d = true ->
  is_true (get_opt d "isInactive") = false ->
  transformInventoryData to_str Date_of stringify false (clock (trace st2)) d
  = Throw e ->
  item_turn item st = (Ok tt, Run.recorded_failure true itemId (exn_message e) st2).
Proof.
  intros Hid Hc Hfetch Htruthy Hactive Htransform.
  rewrite (sweep_turn_start item itemId st Hid Hc).
  unfold try_catch at 1, SweepScript.item_try. unfold bind at 1.
  rewrite Hfetch, Htruthy.
  unfold bind at 1, lift at 1. rewrite (get_truthy d _ Htruthy), Hactive.
  unfold bind at 1, now at 1. unfold bind at 1, lift at 1.
  rewrite Htransform.
  unfold SweepScript.item_catch, bind, lift, ToString, modify, writeErrorLog.
  rewrite Hc. reflexivity.
Qed.

Lemma sweep_save_failure item itemId st d st2 transformedData e :
  get item "id" = Ok itemId ->
  coercible itemId = true ->
  SweepScript.fetchInventoryItemDetail axios sign baseUrl to_str itemId (Run.counted st)
  = (Ok d, st2) ->
  truthy d = true ->
  is_true (get_opt d "isInactive") = false ->
  transformInventoryData to_str Date_of stringify false (clock (trace st2)) d
  = Ok transformedData ->
  upsert (clock (trace st2)) (minted (host st2))
    (Run.member transformedData "internalId") transformedData (database (host st2))
  = Throw e ->
  item_turn item st = (Ok tt, Run.recorded_failure false itemId (exn_message e) st2).
Proof.
  intros Hid Hc Hfetch Htruthy Hactive Htransform Hsave.
  rewrite (sweep_turn_start item itemId st Hid Hc).
  unfold try_catch at 1, SweepScript.item_try. unfold bind at 1.
  rewrite Hfetch, Htruthy.
  unfold bind at 1, lift at 1. rewrite (get_truthy d _ Htruthy), Hactive.
  unfold bind at 1, now at 1. unfold bind at 1, lift at 1.
  rewrite Htransform.
  unfold try_catch at 1, SweepScript.save_try. unfold bind at 1.
  unfold db_findOneAndUpdate. rewrite Hsave.
  unfold SweepScript.save_catch, bind, lift, ToString, modify.
  rewrite Hc. reflexivity.
Qed.

(** A save that returns: the record is written and counted; the log line
    that follows is inside the [try] around the save. *)
Lemma sweep_save_success item itemId st d st2 transformedData doc db' next :
  get item "id" = Ok itemId ->
  coercible itemId = true ->
  SweepScript.fetchInventoryItemDetail axios sign baseUrl to_str itemId (Run.counted st)
  = (Ok d, st2) ->
  truthy d = true ->
  is_true (get_opt d "isInactive") = false ->
  transformInventoryData to_str Date_of stringify false (clock (trace st2)) d
  = Ok transformedData ->
  upsert (clock (trace st2)) (minted (host st2))
    (Run.member transformedData "internalId") transformedData (database (host st2))
  = Ok (doc, db', next) ->
  item_turn item st
  = (Ok tt,
     Run.logged_save itemId
       (SweepScript.save_line to_str shortName itemId transformedData)
       (Run.recorded_save transformedData db' next st2)).
Proof.
  intros Hid Hc Hfetch Htruthy Hactive Htransform Hsave.
  rewrite (sweep_turn_start item itemId st Hid Hc).
  unfold try_catch at 1, SweepScript.item_try. unfold bind at 1.
  rewrite Hfetch, Htruthy.
  unfold bind at 1, lift at 1. rewrite (get_truthy d _ Htruthy), Hactive.
  unfold bind at 1, now at 1. unfold bind at 1, lift at 1.
  rewrite Htransform.
  unfold try_catch at 1, SweepScript.save_try. unfold bind at 1.
  unfold db_findOneAndUpdate. rewrite Hsave.
  unfold bind at 1, modify at 1. cbn [host with_host upstream trace].
  unfold bind at 1, lift at 1.
  destruct (SweepScript.save_line to_str shortName itemId transformedData) as [line|e'];
    [reflexivity|].
  unfold SweepScript.save_catch, bind, lift, ToString, modify.
  rewrite Hc. reflexivity.
Qed.

End SweepIsolation.

Section BasicIsolation.
Import Store Process Transformer RecordFetcher.

Context {W K : Type} `{Countable K}.
Variable axios : Config -> W -> Result Val * W.
Variable sign : Val -> string -> Result string.
Variable baseUrl : string.
Variable to_str : Val -> string.
Variable Date_of : Val -> Date.
Variable stringify : Val -> string.
Variable castKey : Val -> Result K.
Variable key_value : K -> Val.
Variable castPath : string -> Val -> Result Val.
Variable validate : list (string * Val) -> Result unit.
Variable defaults : gmap string Val.
Variable clock : list Event -> Z.
Variable shortName : Val -> Result Val.

Local Abbreviation item_turn :=
  (BasicScript.syncInventory_item axios sign baseUrl to_str Date_of stringify
     castKey key_value castPath validate defaults clock shortName).
Local Abbreviation items_loop :=
  (BasicScript.syncInventory_items axios sign baseUrl to_str Date_of stringify
     castKey key_value castPath validate defaults clock shortName).
Local Abbreviation item_work :=
  (BasicScript.item_work axios sign baseUrl to_str Date_of stringify
     castKey key_value castPath validate defaults clock shortName).
Local Abbreviation upsert :=
  (findOneAndUpdate castKey key_value castPath validate defaults).

Ltac basic_keeping :=
  unfold BasicScript.item_work, BasicScript.save_try, BasicScript.save_catch;
  repeat first
    [ apply keeps_save; intros ?
    | keeping_step
    | apply keeps_basic_fetch
    | apply keeps_now
    | apply keeps_modify; intros ? ?;
      first [apply tally_failed | apply tally_saved | apply stored_failed];
      assumption
    | apply keeps_db_findOneAndUpdate; intros ? ? ? ? ? ? ?; assumption ].

Lemma keeps_work_tally count recorded itemId :
  keeps (Run.tally count recorded) (item_work itemId).
Proof. basic_keeping. Qed.

Lemma keeps_work_stored itemId :
  keeps (Run.saved_in_store castKey) (item_work itemId).
Proof. basic_keeping. Qed.

(** A turn of the loop, whether it returns or throws, leaves the tally and
    the store consistent; it counts the record when it returns. *)
Lemma basic_item_turn item st count recorded :
  Run.tally count recorded (host st) ->
  Run.saved_in_store castKey (host st) ->
  exists r st',
    item_turn item st = (r, st')
    /\ Run.saved_in_store castKey (host st')
    /\ match r with
       | Ok _ => Run.tally (count + 1) recorded (host st')
       | Throw _ => Run.tally count recorded (host st')
       end.
Proof.
  intros Ht Hs. unfold BasicScript.syncInventory_item.
  unfold bind at 1, lift at 1.
  destruct (get item "id") as [itemId|e]; [|exists (Throw e), st; auto].
  unfold bind at 1, lift at 1.
  destruct (ToString to_str itemId) as [text|e]; [|exists (Throw e), st; auto].
  unfold bind at 1.
  destruct (item_work itemId st) as [[[]|e] st1] eqn:Hwork.
  - pose proof (keeps_work_tally count recorded itemId st _ st1 Hwork Ht)
      as (Hc & He & Hsv).
    pose proof (keeps_work_stored itemId st _ st1 Hwork Hs) as Hs1.
    eexists _, _. split; [reflexivity|]. cbn [host with_host].
    split; [exact Hs1|]. repeat split; cbn; try assumption. lia.
  - exists (Throw e), st1. split; [reflexivity|]. split.
    + apply (keeps_work_stored itemId st _ st1 Hwork Hs).
    + apply (keeps_work_tally count recorded itemId st _ st1 Hwork Ht).
Qed.

Lemma basic_items_run (items : list Val) :
  forall st count recorded,
    Run.tally count recorded (host st) ->
    Run.saved_in_store castKey (host st) ->
    exists r st',
      items_loop items st = (r, st')
      /\ Run.saved_in_store castKey (host st')
      /\ Run.savedCount (vars (host st'))
         = Z.of_nat (length (Run.savedItems (vars (host st'))))
      /\ match r with
         | Ok _ => Run.processedCount (vars (host st'))
                   = count + Z.of_nat (length items)
         | Throw _ => Run.processedCount (vars (host st'))
                      < count + Z.of_nat (length items)
         end.
Proof.
  induction items as [|item items IH]; intros st count recorded Ht Hs.
  - exists (Ok tt), st. split; [reflexivity|]. split; [exact Hs|].
    destruct Ht as (Hc & _ & Hsv). split; [exact Hsv|]. cbn [length]. lia.
  - destruct (basic_item_turn item st count recorded Ht Hs)
      as (r1 & st1 & Hturn & Hs1 & Ht1).
    cbn [BasicScript.syncInventory_items]. unfold bind at 1. rewrite Hturn.
    destruct r1 as [[]|e].
    + destruct (IH st1 (count + 1) recorded Ht1 Hs1)
        as (r & st' & Hloop & Hs' & Hsv & Hcount).
      exists r, st'. split; [exact Hloop|]. split; [exact Hs'|].
      split; [exact Hsv|]. cbn [length]. destruct r; lia.
    + exists (Throw e), st1. split; [reflexivity|]. split; [exact Hs1|].
      destruct Ht1 as (Hc & _ & Hsv). split; [exact Hsv|]. cbn [length]. lia.
Qed.

(** The start of a turn, up to the fetch. *)
Lemma basic_turn_start item itemId st :
  get item "id" = Ok itemId ->
  coercible itemId = true ->
  item_turn item st
  = (let! _ := item_work itemId in
     let! _ := modify Run.processed in
     sleep 500) st.
Proof.
  intros Hid Hc. unfold BasicScript.syncInventory_item.
  unfold bind at 1, lift at 1. rewrite Hid.
  unfold bind at 1, lift at 1, ToString at 1. rewrite Hc. reflexivity.
Qed.

Lemma basic_fetch_failure item itemId st d st2 :
  get item "id" = Ok itemId ->
  coercible itemId = true ->
  BasicScript.fetchInventoryItemDetail axios sign baseUrl to_str itemId st
  = (Ok d, st2) ->
  truthy d = false ->
  item_turn item st
  = (Ok tt, Run.paused (Run.recorded_failure false itemId "Failed to fetch details" st2)).
Proof.
  intros Hid Hc Hfetch Hfalsy. rewrite (basic_turn_start item itemId st Hid Hc).
  unfold bind at 1, BasicScript.item_work. unfold bind at 1.
  rewrite Hfetch, Hfalsy.
  unfold bind, lift, ToString, modify, sleep. rewrite Hc. reflexivity.
Qed.

(** The transformation is not inside a [try]: when it throws, the turn
    throws. *)
Lemma basic_transform_failure item itemId st d st2 e :
  get item "id" = Ok itemId ->
  coercible itemId = true ->
  BasicScript.fetchInventoryItemDetail axios sign baseUrl to_str itemId st
  = (Ok d, st2) ->
  truthy d = true ->
  transformInventoryData to_str Date_of stringify true (clock (trace st2)) d
  = Throw e ->
  item_turn item st = (Throw e, st2).
Proof.
  intros Hid Hc Hfetch Htruthy Htransform.
  rewrite (basic_turn_start item itemId st Hid Hc).
  unfold bind at 1, BasicScript.item_work. unfold bind at 1.
  rewrite Hfetch, Htruthy.
  unfold bind at 1, now at 1. unfold bind at 1, lift at 1.
  rewrite Htransform. reflexivity.
Qed.

Lemma basic_save_failure item itemId st d st2 transformedData e :
  get item "id" = Ok itemId ->
  coercible itemId = true ->
  BasicScript.fetchInventoryItemDetail axios sign baseUrl to_str itemId st
  = (Ok d, st2) ->
  truthy d = true ->
  transformInventoryData to_str Date_of stringify true (clock (trace st2)) d
  = Ok transformedData ->
  upsert (clock (trace st2)) (minted (host st2))
    (Run.member transformedData "internalId") transformedData (database (host st2))
  = Throw e ->
  item_turn item st
  = (Ok tt, Run.paused (Run.recorded_failure false itemId (exn_message e) st2)).
Proof.
  intros Hid Hc Hfetch Htruthy Htransform Hsave.
  rewrite (basic_turn_start item itemId st Hid Hc).
  unfold bind at 1, BasicScript.item_work. unfold bind at 1.
  rewrite Hfetch, Htruthy.
  unfold bind at 1, now at 1. unfold bind at 1, lift at 1.
  rewrite Htransform.
  unfold try_catch at 1, BasicScript.save_try. unfold bind at 1.
  unfold db_findOneAndUpdate. rewrite Hsave.
  unfold BasicScript.save_catch, bind, lift, ToString, modify, sleep.
  rewrite Hc. reflexivity.
Qed.

Lemma basic_save_success item itemId st d st2 transformedData doc db' next :
  get item "id" = Ok itemId ->
  coercible itemId = true ->
  BasicScript.fetchInventoryItemDetail axios sign baseUrl to_str itemId st
  = (Ok d, st2) ->
  truthy d = true ->
  transformInventoryData to_str Date_of stringify true (clock (trace st2)) d
  = Ok transformedData ->
  upsert (clock (trace st2)) (minted (host st2))
    (Run.member transformedData "internalId") transformedData (database (host st2))
  = Ok (doc, db', next) ->
  item_turn item st
  = (Ok tt,
     Run.paused
       (Run.logged_save itemId
          (SweepScript.save_line to_str shortName itemId transformedData)
          (Run.recorded_save transformedData db' next st2))).
Proof.
  intros Hid Hc Hfetch Htruthy Htransform Hsave.
  rewrite (basic_turn_start item itemId st Hid Hc).
  unfold bind at 1, BasicScript.item_work. unfold bind at 1.
  rewrite Hfetch, Htruthy.
  unfold bind at 1, now at 1. unfold bind at 1, lift at 1.
  rewrite Htransform.
  unfold try_catch at 1, BasicScript.save_try. unfold bind at 1.
  unfold db_findOneAndUpdate. rewrite Hsave.
  unfold bind at 1, modify at 1. cbn [host with_host upstream trace].
  unfold bind at 1, lift at 1.
  destruct (SweepScript.save_line to_str shortName itemId transformedData) as [line|e'].
  - reflexivity.
  - unfold BasicScript.save_catch, bind, lift, ToString, modify, sleep.
    rewrite Hc. reflexivity.
Qed.

(** A turn that throws ends the loop. *)
Lemma basic_loop_aborts item rest st e st' :
  item_turn item st = (Throw e, st') ->
  items_loop (item :: rest) st = (Throw e, st').
Proof.
  intros Hturn. cbn [BasicScript.syncInventory_items]. unfold bind at 1.
  rewrite Hturn. reflexivity.
Qed.

End BasicIsolation.

(** C4.  Over a list of [n] candidates whose [id] can be read and printed,
    the loop of [syncAllInventory] never throws: it returns with
    [processed = n], with as many saves counted as records kept, and with
    every record it counts as saved present in the collection under its
    [internalId].  In a turn of that loop a record that cannot be fetched, a
    transformation that throws and a save that throws each end the turn
    normally with the [id] and the message appended to the error list, and a
    save that returns leaves the record in the collection under its key and
    in the list of saved records.  The loop of [syncInventory] does the same
    for a failed fetch, a failed save and a save that returns, but its
    transformation is not inside a [try]: when the transformation throws,
    the turn throws and the loop ends there, with fewer than [n] records
    processed.  On three candidates of which the second has a record whose
    [id] cannot be converted to a string, [syncAllInventory] processes
    three, records one error and stores the first and the third, while
    [syncInventory] throws after the first and never reaches the third. *)
Theorem per_record_fault_isolation
        {W K : Type} `{Countable K}
        (axios : Config -> W -> Result Val * W)
        (sign : Val -> string -> Result string) (baseUrl : string)
        (to_str : Val -> string) (Date_of : Val -> Date) (stringify : Val -> string)
        (castKey : Val -> Result K) (key_value : K -> Val)
        (castPath : string -> Val -> Result Val)
        (validate : list (string * Val) -> Result unit) (defaults : gmap string Val)
        (clock : list Event -> Z) (shortName : Val -> Result Val)
        (items : list Val) (st : St W (Store.Host K Run.Vars)) :
  Forall Run.has_printable_id items ->
  Store.vars (host st) = Run.start ->
  (exists st',
      SweepScript.syncAllInventory_items axios sign baseUrl to_str Date_of stringify
        castKey key_value castPath validate defaults clock shortName items st
      = (Ok tt, st')
      /\ Run.processedCount (Store.vars (host st')) = Z.of_nat (length items)
      /\ Run.savedCount (Store.vars (host st'))
         = Z.of_nat (length (Run.savedItems (Store.vars (host st'))))
      /\ Run.saved_in_store castKey (host st'))
  /\ (exists r st',
        BasicScript.syncInventory_items axios sign baseUrl to_str Date_of stringify
          castKey key_value castPath validate defaults clock shortName items st
        = (r, st')
        /\ Run.saved_in_store castKey (host st')
        /\ Run.savedCount (Store.vars (host st'))
           = Z.of_nat (length (Run.savedItems (Store.vars (host st'))))
        /\ match r with
           | Ok _ => Run.processedCount (Store.vars (host st'))
                     = Z.of_nat (length items)
           | Throw _ => Run.processedCount (Store.vars (host st'))
                        < Z.of_nat (length items)
           end)
  /\ (forall item itemId (s : St W (Store.Host K Run.Vars)) d s2,
        get item "id" = Ok itemId ->
        coercible itemId = true ->
        SweepScript.fetchInventoryItemDetail axios sign baseUrl to_str itemId
          (Run.counted s) = (Ok d, s2) ->
        (truthy d = false ->
         SweepScript.syncAllInventory_item axios sign baseUrl to_str Date_of stringify
           castKey key_value castPath validate defaults clock shortName item s
         = (Ok tt, Run.recorded_failure true itemId "Failed to fetch details" s2))
        /\ (truthy d = true -> is_true (get_opt d "isInactive") = false ->
            (forall e,
                Transformer.transformInventoryData to_str Date_of stringify false
                  (clock (trace s2)) d = Throw e ->
                SweepScript.syncAllInventory_item axios sign baseUrl to_str Date_of
                  stringify castKey key_value castPath validate defaults clock
                  shortName item s
                = (Ok tt, Run.recorded_failure true itemId (exn_message e) s2))
            /\ (forall transformedData e,
                  Transformer.transformInventoryData to_str Date_of stringify false
                    (clock (trace s2)) d = Ok transformedData ->
                  Store.findOneAndUpdate castKey key_value castPath validate defaults
                    (clock (trace s2)) (Store.minted (host s2))
                    (Run.member transformedData "internalId") transformedData
                    (Store.database (host s2)) = Throw e ->
                  SweepScript.syncAllInventory_item axios sign baseUrl to_str Date_of
                    stringify castKey key_value castPath validate defaults clock
                    shortName item s
                  = (Ok tt, Run.recorded_failure false itemId (exn_message e) s2))
            /\ (forall transformedData doc db' next,
                  Transformer.transformInventoryData to_str Date_of stringify false
                    (clock (trace s2)) d = Ok transformedData ->
                  Store.findOneAndUpdate castKey key_value castPath validate defaults
                    (clock (trace s2)) (Store.minted (host s2))
                    (Run.member transformedData "internalId") transformedData
                    (Store.database (host s2)) = Ok (doc, db', next) ->
                  let s3 :=
                    Run.logged_save itemId
                      (SweepScript.save_line to_str shortName itemId transformedData)
                      (Run.recorded_save transformedData db' next s2) in
                  SweepScript.syncAllInventory_item axios sign baseUrl to_str Date_of
                    stringify castKey key_value castPath validate defaults clock
                    shortName item s
                  = (Ok tt, s3)
                  /\ In transformedData (Run.savedItems (Store.vars (host s3)))
                  /\ exists key,
                       castKey (Run.member transformedData "internalId") = Ok key
                       /\ Store.database (host s3) !! key = Some doc)))
  /\ (forall item itemId (s : St W (Store.Host K Run.Vars)) d s2,
        get item "id" = Ok itemId ->
        coercible itemId = true ->
        BasicScript.fetchInventoryItemDetail axios sign baseUrl to_str itemId s
        = (Ok d, s2) ->
        (truthy d = false ->
         BasicScript.syncInventory_item axios sign baseUrl to_str Date_of stringify
           castKey key_value castPath validate defaults clock shortName item s
         = (Ok tt, Run.paused (Run.recorded_failure false itemId
                                 "Failed to fetch details" s2)))
        /\ (truthy d = true ->
            (forall e,
                Transformer.transformInventoryData to_str Date_of stringify true
                  (clock (trace s2)) d = Throw e ->
                forall rest,
                  BasicScript.syncInventory_items axios sign baseUrl to_str Date_of
                    stringify castKey key_value castPath validate defaults clock
                    shortName (item :: rest) s
                  = (Throw e, s2))
            /\ (forall transformedData e,
                  Transformer.transformInventoryData to_str Date_of stringify true
                    (clock (trace s2)) d = Ok transformedData ->
                  Store.findOneAndUpdate castKey key_value castPath validate defaults
                    (clock (trace s2)) (Store.minted (host s2))
                    (Run.member transformedData "internalId") transformedData
                    (Store.database (host s2)) = Throw e ->
                  BasicScript.syncInventory_item axios sign baseUrl to_str Date_of
                    stringify castKey key_value castPath validate defaults clock
                    shortName item s
                  = (Ok tt, Run.paused (Run.recorded_failure false itemId
                                          (exn_message e) s2)))
            /\ (forall transformedData doc db' next,
                  Transformer.transformInventoryData to_str Date_of stringify true
                    (clock (trace s2)) d = Ok transformedData ->
                  Store.findOneAndUpdate castKey key_value castPath validate defaults
                    (clock (trace s2)) (Store.minted (host s2))
                    (Run.member transformedData "internalId") transformedData
                    (Store.database (host s2)) = Ok (doc, db', next) ->
                  let s3 :=
                    Run.paused
                      (Run.logged_save itemId
                         (SweepScript.save_line to_str shortName itemId
                                                transformedData)
                         (Run.recorded_save transformedData db' next s2)) in
                  BasicScript.syncInventory_item axios sign baseUrl to_str Date_of
                    stringify castKey key_value castPath validate defaults clock
                    shortName item s
                  = (Ok tt, s3)
                  /\ In transformedData (Run.savedItems (Store.vars (host s3)))
                  /\ exists key,
                       castKey (Run.member transformedData "internalId") = Ok key
                       /\ Store.database (host s3) !! key = Some doc)))
  /\ (fst (Mock.sweep_run Mock.unprintable_route) = Ok tt
      /\ Run.processedCount (Store.vars (host (snd (Mock.sweep_run Mock.unprintable_route))))
         = 3
      /\ Run.savedCount (Store.vars (host (snd (Mock.sweep_run Mock.unprintable_route))))
         = 2
      /\ Run.errors (Store.vars (host (snd (Mock.sweep_run Mock.unprintable_route))))
         = [(Str "2", "Cannot convert object to primitive value")]
      /\ Mock.stored_keys (snd (Mock.sweep_run Mock.unprintable_route)) = [3; 1])
  /\ (fst (Mock.basic_run Mock.unprintable_route)
      = Throw (TypeError "Cannot convert object to primitive value")
      /\ Run.processedCount (Store.vars (host (snd (Mock.basic_run Mock.unprintable_route))))
         = 1
      /\ Run.errors (Store.vars (host (snd (Mock.basic_run Mock.unprintable_route))))
         = []
      /\ Mock.stored_keys (snd (Mock.basic_run Mock.unprintable_route)) = [1]).
Proof.
  intros Hids Hstart.
  pose proof (tally_start (host st) Hstart) as Ht.
  pose proof (stored_start castKey (host st) Hstart) as Hs.
  split; [|split; [|split; [|split; [|split]]]].
  - destruct (sweep_items_run axios sign baseUrl to_str Date_of stringify castKey
                key_value castPath validate defaults clock shortName items st 0 []
                Hids Ht Hs)
      as (st' & Hrun & (Hc & _ & Hsv) & Hst).
    exists st'. split; [exact Hrun|]. split; [rewrite Hc; lia|].
    split; [exact Hsv | exact Hst].
  - destruct (basic_items_run axios sign baseUrl to_str Date_of stringify castKey
                key_value castPath validate defaults clock shortName items st 0 []
                Ht Hs)
      as (r & st' & Hrun & Hst & Hsv & Hcount).
    exists r, st'. split; [exact Hrun|]. split; [exact Hst|].
    split; [exact Hsv|]. destruct r; lia.
  - intros item itemId s d s2 Hid Hc Hfetch. split.
    + intros Hfalsy. eapply sweep_fetch_failure; eassumption.
    + intros Htruthy Hactive. split; [|split].
      * intros e Htransform. eapply sweep_transform_failure; eassumption.
      * intros t e Htransform Hsave. eapply sweep_save_failure; eassumption.
      * intros t doc db' next Htransform Hsave s3. split; [|split].
        -- eapply sweep_save_success; eassumption.
        -- subst s3.
           destruct (SweepScript.save_line to_str shortName itemId t);
             cbn; apply in_or_app; right; left; reflexivity.
        -- apply findOneAndUpdate_shape in Hsave
             as (key & l1 & Hk & _ & _ & -> & _).
           exists key. split; [exact Hk|]. subst s3.
           destruct (SweepScript.save_line to_str shortName itemId t);
             cbn; apply lookup_insert_eq.
  - intros item itemId s d s2 Hid Hc Hfetch. split.
    + intros Hfalsy. eapply basic_fetch_failure; eassumption.
    + intros Htruthy. split; [|split].
      * intros e Htransform rest. apply basic_loop_aborts.
        eapply basic_transform_failure; eassumption.
      * intros t e Htransform Hsave. eapply basic_save_failure; eassumption.
      * intros t doc db' next Htransform Hsave s3. split; [|split].
        -- eapply basic_save_success; eassumption.
        -- subst s3.
           destruct (SweepScript.save_line to_str shortName itemId t);
             cbn; apply in_or_app; right; left; reflexivity.
        -- apply findOneAndUpdate_shape in Hsave
             as (key & l1 & Hk & _ & _ & -> & _).
           exists key. split; [exact Hk|]. subst s3.
           destruct (SweepScript.save_line to_str shortName itemId t);
             cbn; apply lookup_insert_eq.
  - split; [vm_compute; reflexivity|]. split; [vm_compute; reflexivity|].
    split; [vm_compute; reflexivity|]. split; vm_compute; reflexivity.
  - split; [vm_compute; reflexivity|]. split; [vm_compute; reflexivity|].
    split; vm_compute; reflexivity.
Qed.

Lemma per_record_fault_isolation_witness :
  exists st',
    SweepScript.syncAllInventory_items (Mock.routed Mock.candidate_route) Mock.sign
      Mock.base Mock.to_str Mock.Date_of Mock.stringify Mock.castKey Mock.key_value
      Mock.castPath Mock.accept ∅ Mock.clock Mock.shortName Mock.candidates
      Mock.fresh = (Ok tt, st')
    /\ Run.processedCount (Store.vars (host st')) = 3
    /\ Run.savedCount (Store.vars (host st'))
       = Z.of_nat (length (Run.savedItems (Store.vars (host st'))))
    /\ Run.saved_in_store Mock.castKey (host st').
Proof.
  apply (proj1 (per_record_fault_isolation (Mock.routed Mock.candidate_route)
                  Mock.sign Mock.base Mock.to_str Mock.Date_of Mock.stringify
                  Mock.castKey Mock.key_value Mock.castPath
                  Mock.accept ∅ Mock.clock Mock.shortName Mock.candidates Mock.fresh
                  ltac:(repeat constructor; eexists; split; reflexivity) eq_refl)).
Defined.

(** A full sweep over three candidates of which the second cannot be
    fetched: three processed, two saved and present in the collection, one
    error recorded and logged. *)
Example isolation_on_three_candidates :
  fst (Mock.sweep_run Mock.candidate_route) = Ok tt
  /\ Run.processedCount (Store.vars (host (snd (Mock.sweep_run Mock.candidate_route))))
     = 3
  /\ Run.savedCount (Store.vars (host (snd (Mock.sweep_run Mock.candidate_route)))) = 2
  /\ Run.errors (Store.vars (host (snd (Mock.sweep_run Mock.candidate_route))))
     = [(Str "2", "Failed to fetch details")]
  /\ Store.errorLog (host (snd (Mock.sweep_run Mock.candidate_route)))
     = [(Str "2", "Failed to fetch details")]
  /\ Mock.stored_keys (snd (Mock.sweep_run Mock.candidate_route)) = [3; 1].
Proof.
  split; [vm_compute; reflexivity|]. split; [vm_compute; reflexivity|].
  split; [vm_compute; reflexivity|]. split; [vm_compute; reflexivity|].
  split; vm_compute; reflexivity.
Qed.

(** ** Movement pass *)

Section MovementJoin.
Import Store Process Movement.

Context {W : Type}.
Variable axios : Config -> W -> Result Val * W.
Variable sign : Val -> string -> Result string.
Variable to_str : Val -> string.
Variable castKey : Val -> Result Z.
Variable castPath : string -> Val -> Result Val.
Variable validate : list (string * Val) -> Result unit.
Variable clock : list Event -> Z.
Variable suiteqlUrl : string.

Hypothesis accepts : forall fields, validate fields = Ok tt.
Hypothesis castKey_int : forall key, castKey (Number (int key)) = Ok key.

Local Abbreviation binding := (Movement.binding to_str).

Lemma add_row_binding m item :
  readable item -> add_row to_str m item = Ok (binding item ++ m).
Proof.
  intros (T & Hid & Hdate). unfold add_row, Movement.binding, row_key, row_entry.
  rewrite !(get_truthy item _ T). cbn [rbind].
  unfold ToString. rewrite Hid. cbn [rbind].
  destruct (negb (isNaN (parseInt (to_str (get_opt item "item_id"))))); [|reflexivity].
  destruct (truthy (get_opt item "last_movement_date")); [|reflexivity].
  destruct (parseNetSuiteDate_returns (get_opt item "last_movement_date") Hdate)
    as (d & -> & _).
  reflexivity.
Qed.

Lemma build_map_bindings rows :
  forall m, Forall readable rows ->
            build_map to_str rows m = Ok (flat_map binding (rev rows) ++ m).
Proof.
  induction rows as [|item rows IH]; intros m Hrows; [reflexivity|].
  inversion Hrows as [|? ? T Hrest]; subst.
  cbn [build_map]. rewrite (add_row_binding m item T). cbn [rbind].
  rewrite (IH _ Hrest). cbn [rev]. rewrite flat_map_app. cbn [flat_map].
  rewrite app_nil_r, <- app_assoc. reflexivity.
Qed.

Lemma map_get_bindings key (rows : list Val) :
  map_get (Number (int key)) (flat_map binding rows)
  = row_entry <$>
      List.find (fun item => negb (isNaN (row_key to_str item))
                             && same_number (row_key to_str item) (int key)) rows.
Proof.
  unfold map_get. induction rows as [|item rows IH]; [reflexivity|].
  cbn [flat_map List.find]. unfold Movement.binding at 1.
  destruct (negb (isNaN (row_key to_str item))); cbn [app andb List.find fst].
  - destruct (same_number (row_key to_str item) (int key)); [reflexivity | exact IH].
  - exact IH.
Qed.

(** X12.  The map the movement handler builds from the rows of a query
    result, when each row can be read (it has members, and its [item_id]
    and [last_movement_date] can be converted to strings), holds for every
    integer key the entry of the last row whose [item_id] reads as that
    number (moved iff the flag is "1", 1 or true; the parsed date only when
    moved), and nothing when no row does; rows whose [item_id] does not read
    as a number are ignored. *)
Lemma movement_map_joins_rows (rows : list Val) (key : Z) :
  Forall readable rows ->
  exists movementMap,
    build_map to_str rows [] = Ok movementMap
    /\ map_get (Number (int key)) movementMap = row_entry <$> joined to_str key rows.
Proof.
  intros Hrows. eexists. split; [apply (build_map_bindings rows [] Hrows)|].
  rewrite app_nil_r. apply map_get_bindings.
Qed.

(** The schema declares neither movement field: nothing of the update
    reaches the database. *)
Lemma declared_movement_fields (e : Entry) : declared (movement_fields e) = [].
Proof. reflexivity. Qed.

Lemma declared_no_movement : declared no_movement = [].
Proof. reflexivity. Qed.

Lemma update_item_stored movementMap key (st : St W (Host Z Vars)) old :
  database (host st) !! key = Some old ->
  exists st',
    update_item to_str castKey castPath validate clock movementMap
                (Number (int key)) st = (Ok tt, st')
    /\ database (host st')
       = <[key := <["updatedAt" := stamp (clock (trace st))]> old]> (database (host st)).
Proof.
  intros Hold. unfold update_item, try_catch.
  destruct (map_get (Number (int key)) movementMap) as [movement|].
  - unfold bind at 1, db_updateOne, updateOne.
    rewrite castKey_int, declared_movement_fields.
    cbn [rbind cast_fields fst snd]. rewrite accepts.
    cbn [rbind list_to_map foldr].
    rewrite Hold, (left_id_L ∅ (∪)).
    destruct (moved_last_12_months movement); eexists; split; reflexivity.
  - unfold db_updateOne, updateOne.
    rewrite castKey_int, declared_no_movement.
    cbn [rbind cast_fields fst snd]. rewrite accepts.
    cbn [rbind list_to_map foldr].
    rewrite Hold, (left_id_L ∅ (∪)).
    eexists; split; reflexivity.
Qed.

Lemma update_items_stored movementMap (keys : list Z) :
  forall st : St W (Host Z Vars),
    (forall k, In k keys -> is_Some (database (host st) !! k)) ->
    exists st',
      update_items to_str castKey castPath validate clock movementMap
                   (map (fun k => Number (int k)) keys) st
      = (Ok tt, st')
      /\ (forall k old, database (host st) !! k = Some old ->
                        exists doc, database (host st') !! k = Some doc
                                    /\ same_but_updatedAt doc old).
Proof.
  induction keys as [|key keys IH]; intros st Hstored.
  - exists st. split; [reflexivity|]. intros k old Hk. exists old. split; [exact Hk|].
    intros f _. reflexivity.
  - destruct (Hstored key (or_introl eq_refl)) as [old0 Hold].
    destruct (update_item_stored movementMap key st old0 Hold) as (st1 & Hupd & Hdb1).
    destruct (IH st1) as (st' & Hrest & Hkept).
    { intros k Hk. rewrite Hdb1.
      destruct (decide (key = k)) as [->|Hne].
      - rewrite lookup_insert_eq. eexists; reflexivity.
      - rewrite lookup_insert_ne by exact Hne. apply Hstored. right. exact Hk. }
    exists st'. split.
    + cbn [map update_items]. unfold bind at 1. rewrite Hupd. exact Hrest.
    + intros k old Hk.
      destruct (decide (key = k)) as [->|Hne].
      * assert (old = old0) as -> by congruence.
        destruct (Hkept k (<["updatedAt" := stamp (clock (trace st))]> old0))
          as (doc & Hdoc & Hsame).
        { rewrite Hdb1. apply lookup_insert_eq. }
        exists doc. split; [exact Hdoc|]. intros f Hf.
        rewrite (Hsame f Hf). apply lookup_insert_ne. congruence.
      * apply Hkept. rewrite Hdb1, lookup_insert_ne by exact Hne. exact Hk.
Qed.

Lemma keeps_shared_request {X R : Type} (I : X -> Prop)
      (ax : Config -> W -> Result R * W) c retries :
  keeps I (shared_netsuiteRequest_from ax sign retries c).
Proof.
  induction retries as [|fewer IH]; cbn [shared_netsuiteRequest_from];
    (apply keeps_try_catch;
     [unfold schedule_signed; apply keeps_bind;
      [apply keeps_lift | intros _; apply keeps_schedule]|]);
    intros e; try apply keeps_throw.
  destruct (decide (exn_status e = Some 429)); [|apply keeps_throw].
  apply keeps_bind; [apply keeps_sleep | intros _; exact IH].
Qed.

Lemma keeps_fetchMovementData (I : Host Z Vars -> Prop) itemIds :
  keeps I (fetchMovementDataForItems axios sign to_str suiteqlUrl itemIds).
Proof.
  unfold fetchMovementDataForItems. apply keeps_try_catch; [|intros e; apply keeps_throw].
  destruct itemIds; [apply keeps_ret|].
  apply keeps_bind; [apply keeps_shared_request | intros d; apply keeps_ret].
Qed.

End MovementJoin.

(** C8 on the handler with the schema of [InventoryItem]: the schema declares
    neither [moved_last_12_months] nor [last_movement_date], so the updates of
    the movement pass reach the database without them.  For a batch of stored
    identifiers, when the query is answered with rows that can be read and
    the store accepts the writes, the pass returns and every stored record
    is as before but for [updatedAt]: a record of the batch is left with
    whatever movement fields it had, whether or not a row is joined to it.
    The collection is keyed by integers, and the cast of the filter leaves an
    integer as it is. *)
Theorem movement_fields_not_stored
        {W : Type} (axios : Config -> W -> Result Val * W)
        (sign : Val -> string -> Result string) (to_str : Val -> string)
        (castKey : Val -> Result Z) (castPath : string -> Val -> Result Val)
        (validate : list (string * Val) -> Result unit) (clock : list Event -> Z)
        (suiteqlUrl : string) (keys : list Z) (rows : list Val)
        (st st1 : St W (Store.Host Z Movement.Vars)) :
  (forall fields, validate fields = Ok tt) ->
  (forall key, castKey (Number (int key)) = Ok key) ->
  (forall k, In k keys -> is_Some (Store.database (host st) !! k)) ->
  Movement.fetchMovementDataForItems axios sign to_str suiteqlUrl
    (map (fun k => Number (int k)) keys) st = (Ok (Arr rows), st1) ->
  Forall Movement.readable rows ->
  exists st',
    Movement.movement_batch axios sign to_str castKey castPath validate clock
      suiteqlUrl (map (fun k => Number (int k)) keys) st = (Ok tt, st')
    /\ forall k old, Store.database (host st) !! k = Some old ->
         exists doc,
           Store.database (host st') !! k = Some doc
           /\ doc !! "moved_last_12_months" = old !! "moved_last_12_months"
           /\ doc !! "last_movement_date" = old !! "last_movement_date".
Proof.
  intros Haccept Hcast Hstored Hfetch Hrows.
  assert (Hhost : Store.database (host st1) = Store.database (host st)).
  { apply (keeps_fetchMovementData axios sign to_str suiteqlUrl
             (fun h => Store.database h = Store.database (host st))
             _ st _ st1 Hfetch eq_refl). }
  destruct (update_items_stored to_str castKey castPath validate clock Haccept Hcast
              (flat_map (Movement.binding to_str) (rev rows)) keys st1)
    as (st' & Hupd & Hkept).
  { rewrite Hhost. exact Hstored. }
  exists st'. split.
  - unfold Movement.movement_batch. unfold bind at 1. rewrite Hfetch.
    unfold bind at 1, lift at 1. cbn [Movement.rows_of].
    unfold bind at 1, lift at 1.
    rewrite (build_map_bindings to_str rows [] Hrows), app_nil_r. exact Hupd.
  - intros k old Hk. rewrite <- Hhost in Hk.
    destruct (Hkept k old Hk) as (doc & Hdoc & Hsame).
    exists doc. split; [exact Hdoc|].
    split; apply Hsame; discriminate.
Qed.

Lemma movement_fields_not_stored_witness :
  exists st',
    Movement.movement_batch Mock.scripted Mock.sign Mock.to_str Mock.castKey
      Mock.castPath Mock.accept Mock.clock
      "https://upstream/query/v1/suiteql"
      (map (fun k => Number (int k)) [1; 2; 3]) Mock.stored
    = (Ok tt, st')
    /\ forall k old, Store.database (host Mock.stored) !! k = Some old ->
         exists doc,
           Store.database (host st') !! k = Some doc
           /\ doc !! "moved_last_12_months" = old !! "moved_last_12_months"
           /\ doc !! "last_movement_date" = old !! "last_movement_date".
Proof.
  apply (movement_fields_not_stored Mock.scripted Mock.sign Mock.to_str Mock.castKey
           Mock.castPath Mock.accept
           Mock.clock "https://upstream/query/v1/suiteql" [1; 2; 3]
           Mock.movement_rows Mock.stored
           (mkSt [] [Call (mkConfig "POST" (Str "https://upstream/query/v1/suiteql")
                                    (Obj [("q", Str (Movement.query_head ++ "1, 2, 3"
                                                     ++ Movement.query_tail)%string)])
                                    60000)]
                 (host Mock.stored))).
  - intros fields. reflexivity.
  - intros key. reflexivity.
  - intros k Hk. cbn in Hk.
    destruct Hk as [<-|[<-|[<-|[]]]]; vm_compute; eexists; reflexivity.
  - reflexivity.
  - repeat constructor.
Defined.

(** The pass on stored ids 1, 2 and 3 when the result holds a row for 2
    only.  The handler joins the row to 2 (moved, 2024-03-15) and nothing to
    1 and 3, yet after the pass none of the three records has a movement
    field. *)
Example movement_on_three_ids :
  (exists movementMap,
     Movement.build_map Mock.to_str Mock.movement_rows [] = Ok movementMap
     /\ Movement.map_get (Number (int 1)) movementMap = None
     /\ Movement.map_get (Number (int 2)) movementMap
        = Some (Movement.mkEntry (DateV (DateAt (days_from_civil 2024 3 15))) true)
     /\ Movement.map_get (Number (int 3)) movementMap = None)
  /\ fst (Mock.movement_run [1; 2; 3]) = Ok tt
  /\ Mock.movement_field 1 "moved_last_12_months" (snd (Mock.movement_run [1; 2; 3]))
     = None
  /\ Mock.movement_field 1 "last_movement_date" (snd (Mock.movement_run [1; 2; 3]))
     = None
  /\ Mock.movement_field 2 "moved_last_12_months" (snd (Mock.movement_run [1; 2; 3]))
     = None
  /\ Mock.movement_field 2 "last_movement_date" (snd (Mock.movement_run [1; 2; 3]))
     = None
  /\ Mock.movement_field 3 "moved_last_12_months" (snd (Mock.movement_run [1; 2; 3]))
     = None
  /\ Mock.movement_field 3 "last_movement_date" (snd (Mock.movement_run [1; 2; 3]))
     = None.
Proof.
  split.
  - eexists. split; [reflexivity|]. repeat split.
  - split; [vm_compute; reflexivity|]. split; [vm_compute; reflexivity|].
    split; [vm_compute; reflexivity|]. split; [vm_compute; reflexivity|].
    split; [vm_compute; reflexivity|]. split; vm_compute; reflexivity.
Qed.

(** * Further properties of the request helper and the fetchers *)

Section RequestLog.

Context {W R X : Type}.
Variable axios : Config -> W -> Result R * W.

Ltac attempt_done n :=
  eexists _, _, n;
  split; [reflexivity|];
  split; [lia|];
  split; [cbn [firstn exhausted_log Nat.mul Nat.add]; rewrite <- ?app_assoc; reflexivity|];
  split; [reflexivity|];
  intros ? [= <-] ?; try contradiction; reflexivity.

(** X1.  Whatever the upstream answers, a call of [netsuiteRequest] logs a
    prefix of "call, wait 5000, call, wait 10000, call, wait 15000, call"
    that ends with a call: at most four attempts, each retry after its own
    wait, and nothing else.  It leaves the rest of the process state alone,
    and an error with status 429 reaches the caller only from the fourth
    attempt. *)
Theorem netsuiteRequest_attempts (config : Config) (st : St W X) :
  exists r st' n,
    netsuiteRequest axios config st = (r, st')
    /\ (n <= 3)%nat
    /\ trace st' = trace st ++ firstn (2 * n + 1) (exhausted_log config)
    /\ host st' = host st
    /\ (forall e, r = Throw e -> exn_status e = Some 429 -> n = 3%nat).
Proof.
  destruct st as [w0 tr x].
  unfold netsuiteRequest. cbn [netsuiteRequest_from].
  unfold try_catch, schedule, bind, sleep, throw. cbn [upstream trace host].
  destruct (axios config w0) as [[d|e1] w1]; [attempt_done 0%nat|].
  destruct (decide (exn_status e1 = Some 429)) as [H1|]; [|attempt_done 0%nat].
  cbn [upstream trace host].
  destruct (axios config w1) as [[d|e2] w2]; [attempt_done 1%nat|].
  destruct (decide (exn_status e2 = Some 429)) as [H2|]; [|attempt_done 1%nat].
  cbn [upstream trace host].
  destruct (axios config w2) as [[d|e3] w3]; [attempt_done 2%nat|].
  destruct (decide (exn_status e3 = Some 429)) as [H3|]; [|attempt_done 2%nat].
  cbn [upstream trace host].
  destruct (axios config w3) as [[d|e4] w4]; attempt_done 3%nat.
Qed.

End RequestLog.

Section FetcherResults.
Import RecordFetcher.

Context {W X : Type}.
Variable axios : Config -> W -> Result Val * W.
Variable sign : Val -> string -> Result string.
Variable baseUrl : string.
Variable to_str : Val -> string.

Lemma initial_currency_enum itemCurrency cur :
  initial_currency itemCurrency = Ok cur -> In cur Schema.currency_enum.
Proof.
  unfold initial_currency.
  destruct (includes_opt itemCurrency "EUR") as [[|]|]; cbn [rbind]; try discriminate.
  - intros [= <-]. cbn. auto.
  - destruct (includes_opt itemCurrency "USD") as [[|]|]; cbn [rbind];
      try discriminate; intros [= <-]; cbn; auto.
Qed.

Lemma price_body_currency (st st' : PriceScan) (detail : Val) :
  price_body st detail = Ok st' ->
  currency st' = currency st \/ currency st' = "HKD".
Proof.
  unfold price_body.
  destruct (get detail "priceLevelName") as [name|]; cbn [rbind]; [|discriminate].
  destruct (get detail "price") as [p|]; cbn [rbind].
  - destruct (is_str "WLP (Base)" name); cbn [rbind];
      destruct (is_str "LPCP (HKD)" name); intros [= <-]; cbn; auto.
  - destruct (is_str "WLP (Base)" name); cbn [rbind]; [discriminate|].
    destruct (is_str "LPCP (HKD)" name); [discriminate|].
    intros [= <-]. auto.
Qed.

Lemma price_loop_currency itemId (items : list Val) :
  forall (scan : PriceScan) (st : St W X) r st',
    price_loop axios sign itemId items scan st = (Ok r, st') ->
    In (currency scan) Schema.currency_enum ->
    In (currency r) Schema.currency_enum.
Proof.
  induction items as [|priceItem items IH]; intros scan st r st' H Hin.
  - injection H as <- _. exact Hin.
  - cbn [price_loop] in H.
    destruct (hasTradePrice scan && hasRetailPrice scan);
      [injection H as <- _; exact Hin|].
    apply bind_ok in H as (href & s1 & _ & H).
    apply bind_ok in H as (detail & s2 & _ & H).
    destruct (negb (truthy detail)); [apply (IH _ _ _ _ H Hin)|].
    apply bind_ok in H as (scan' & s3 & Hbody & H).
    unfold lift in Hbody. injection Hbody as Hbody _.
    apply (IH _ _ _ _ H).
    destruct (price_body_currency _ _ _ Hbody) as [-> | ->]; [exact Hin | cbn; auto].
Qed.

(** The price lookup answers with price data, or throws from its [catch]
    block when [itemId] cannot be converted to a string. *)
Lemma fetchPriceInformation_outcome itemId priceUrl itemCurrency (st : St W X) :
  exists r st',
    fetchPriceInformation axios sign to_str itemId priceUrl itemCurrency st = (r, st')
    /\ match r with
       | Ok v => exists p c t rt, v = priceData p c t rt /\ In c Schema.currency_enum
       | Throw e =>
           coercible itemId = false
           /\ e = TypeError "Cannot convert object to primitive value"
       end.
Proof.
  unfold fetchPriceInformation, try_catch.
  match goal with |- context [match ?m st with _ => _ end] =>
    destruct (m st) as [[r|e] st'] eqn:E end.
  - apply bind_ok in E as (data & s1 & _ & E).
    apply bind_ok in E as (cur & s2 & Hcur & E).
    unfold lift in Hcur. injection Hcur as Hcur _.
    apply bind_ok in E as (listed & s3 & _ & E).
    apply bind_ok in E as (items & s4 & _ & E).
    apply bind_ok in E as (scan & s5 & Hloop & E).
    injection E as <- <-. eexists (Ok _), _. split; [reflexivity|].
    do 4 eexists. split; [reflexivity|].
    apply (price_loop_currency _ _ _ _ _ _ Hloop). cbn [currency].
    apply (initial_currency_enum _ _ Hcur).
  - unfold bind, lift, ToString. destruct (coercible itemId).
    + eexists (Ok _), _. split; [reflexivity|].
      do 4 eexists. split; [reflexivity|]. cbn. auto.
    + eexists (Throw _), _. split; [reflexivity|]. split; reflexivity.
Qed.

Lemma fetchPriceInformation_shape itemId priceUrl itemCurrency (st : St W X) v st' :
  fetchPriceInformation axios sign to_str itemId priceUrl itemCurrency st = (Ok v, st') ->
  exists p c t rt, v = priceData p c t rt /\ In c Schema.currency_enum.
Proof.
  intros Hrun.
  destruct (fetchPriceInformation_outcome itemId priceUrl itemCurrency st)
    as (r & st2 & Hout & Hr).
  rewrite Hrun in Hout. injection Hout as <- _. exact Hr.
Qed.

End FetcherResults.

(** X2.  [fetchPriceInformation] returns, whatever the upstream and the
    signer do, an object with [price], [currency], [tradePrice] and
    [retailPrice] whose [currency] is one of the three values the schema
    accepts, "HKD", "EUR" or "USD"; the one exception is an [itemId] that
    cannot be converted to a string, for which the log line of the [catch]
    block throws a TypeError.  For every [itemId] that can be converted,
    strings and numbers among them, it never throws. *)
Theorem fetchPriceInformation_never_throws
        {W X : Type} (axios : Config -> W -> Result Val * W)
        (sign : Val -> string -> Result string) (to_str : Val -> string)
        (itemId priceUrl itemCurrency : Val) (st : St W X) :
  (exists r st',
      RecordFetcher.fetchPriceInformation axios sign to_str itemId priceUrl
        itemCurrency st = (r, st')
      /\ match r with
         | Ok v =>
             exists p c t rt,
               v = Obj [("price", p); ("currency", Str c);
                        ("tradePrice", t); ("retailPrice", rt)]
               /\ In c Schema.currency_enum
         | Throw e =>
             coercible itemId = false
             /\ e = TypeError "Cannot convert object to primitive value"
         end)
  /\ (coercible itemId = true ->
      exists p c t rt st',
        RecordFetcher.fetchPriceInformation axios sign to_str itemId priceUrl
          itemCurrency st
        = (Ok (Obj [("price", p); ("currency", Str c);
                    ("tradePrice", t); ("retailPrice", rt)]), st')
        /\ In c Schema.currency_enum)
  /\ (forall s, coercible (Str s) = true)
  /\ (forall n, coercible (Number n) = true).
Proof.
  destruct (fetchPriceInformation_outcome axios sign to_str itemId priceUrl
              itemCurrency st) as (r & st' & Hrun & Hr).
  split; [|split; [|split; reflexivity]].
  - exists r, st'. split; [exact Hrun | exact Hr].
  - intros Hc. destruct r as [v|e].
    + destruct Hr as (p & c & t & rt & -> & Hin).
      exists p, c, t, rt, st'. split; [exact Hrun | exact Hin].
    + destruct Hr as [Hno _]. congruence.
Qed.

Lemma fetchPriceInformation_never_throws_witness :
  exists p c t rt st',
    RecordFetcher.fetchPriceInformation (Mock.routed Mock.inactive_route) Mock.sign
      Mock.to_str (Str "7") (Str "price/7") Undefined (mkSt tt [] tt)
    = (Ok (Obj [("price", p); ("currency", Str c);
                ("tradePrice", t); ("retailPrice", rt)]), st')
    /\ In c Schema.currency_enum.
Proof.
  apply (proj1 (proj2 (fetchPriceInformation_never_throws
                         (Mock.routed Mock.inactive_route) Mock.sign Mock.to_str
                         (Str "7") (Str "price/7") Undefined (mkSt tt [] tt)))).
  reflexivity.
Defined.

Section FetchedRecords.
Import RecordFetcher.

Context {W X : Type}.
Variable axios : Config -> W -> Result Val * W.
Variable sign : Val -> string -> Result string.
Variable baseUrl : string.
Variable to_str : Val -> string.

(** A record as the item fetcher assembles it: price data with a currency
    of the schema, an array of locations and a total quantity. *)
Lemma enrich_shape itemId data (st : St W X) r st' :
  enrich axios sign to_str itemId data st = (Ok r, st') ->
  exists fields p c t rt locs total,
    r = Obj fields
    /\ assoc "priceData" fields = Some (priceData p c t rt)
    /\ In c Schema.currency_enum
    /\ assoc "locationsData" fields = Some (Arr locs)
    /\ assoc "totalQuantity" fields = Some total.
Proof.
  intros H. unfold enrich in H.
  apply bind_ok in H as (priceRef & s1 & _ & H).
  apply bind_ok in H as (pd & s2 & Hpd & H).
  apply bind_ok in H as (locRef & s3 & _ & H).
  apply bind_ok in H as (located & s4 & _ & H).
  injection H as <- _.
  assert (exists p c t rt, pd = priceData p c t rt /\ In c Schema.currency_enum)
    as (p & c & t & rt & -> & Hc).
  { destruct (has_links priceRef).
    - apply bind_ok in Hpd as (href & s5 & _ & Hpd).
      apply bind_ok in Hpd as (cur & s6 & _ & Hpd).
      apply (fetchPriceInformation_shape axios sign to_str _ _ _ _ _ _ Hpd).
    - injection Hpd as <- _. do 4 eexists. split; [reflexivity | cbn; auto]. }
  do 7 eexists. split; [reflexivity|].
  cbn [set_fields fold_left fst snd]. repeat split.
  - do 2 (rewrite assoc_set_field_ne by reflexivity). apply assoc_set_field_eq.
  - exact Hc.
  - rewrite assoc_set_field_ne by reflexivity. apply assoc_set_field_eq.
  - apply assoc_set_field_eq.
Qed.

Lemma inactive_record_shape data :
  exists fields,
    inactive_record data = Obj fields
    /\ assoc "priceData" fields = Some defaultPriceData
    /\ assoc "locationsData" fields = Some (Arr [])
    /\ assoc "totalQuantity" fields = Some zero.
Proof.
  eexists. split; [reflexivity|]. cbn [set_fields fold_left fst snd]. repeat split.
  - do 2 (rewrite assoc_set_field_ne by reflexivity). apply assoc_set_field_eq.
  - rewrite assoc_set_field_ne by reflexivity. apply assoc_set_field_eq.
  - apply assoc_set_field_eq.
Qed.

End FetchedRecords.

(** The item fetchers return, unless [itemId] cannot be converted to a
    string. *)
Lemma sweep_fetch_outcome {W X : Type} (axios : Config -> W -> Result Val * W)
      (sign : Val -> string -> Result string) (baseUrl : string)
      (to_str : Val -> string) (itemId : Val) (st : St W X) :
  exists r st',
    SweepScript.fetchInventoryItemDetail axios sign baseUrl to_str itemId st = (r, st')
    /\ host st' = host st
    /\ match r with
       | Ok d =>
           d = Null
           \/ exists fields p c t rt locs total,
                d = Obj fields
                /\ assoc "priceData" fields = Some (RecordFetcher.priceData p c t rt)
                /\ In c Schema.currency_enum
                /\ assoc "locationsData" fields = Some (Arr locs)
                /\ assoc "totalQuantity" fields = Some total
       | Throw e =>
           coercible itemId = false
           /\ e = TypeError "Cannot convert object to primitive value"
       end.
Proof.
  pose proof (keeps_sweep_fetch (fun h => h = host st) axios sign baseUrl to_str
                itemId st) as Hkeep.
  destruct (SweepScript.fetchInventoryItemDetail axios sign baseUrl to_str itemId st)
    as [r st'] eqn:Hrun.
  exists r, st'. split; [reflexivity|]. split; [apply (Hkeep _ _ eq_refl eq_refl)|].
  unfold SweepScript.fetchInventoryItemDetail, try_catch in Hrun.
  match type of Hrun with context [match ?m st with _ => _ end] =>
    destruct (m st) as [[d|e] st1] eqn:E end.
  - injection Hrun as <- <-.
    apply bind_ok in E as (text & s0 & _ & E).
    apply bind_ok in E as (data & s1 & _ & E).
    destruct (is_true (get_opt data "isInactive")).
    + injection E as <- _.
      destruct (inactive_record_shape data) as (fields & -> & Hp & Hl & Ht).
      right. exists fields, zero, "HKD", zero, zero, [], zero.
      repeat split; try assumption. cbn; auto.
    + right. apply (enrich_shape _ _ _ _ _ _ _ _ E).
  - unfold bind, lift, ToString in Hrun. destruct (coercible itemId).
    + injection Hrun as <- <-. left. reflexivity.
    + injection Hrun as <- <-. split; reflexivity.
Qed.

Lemma basic_fetch_outcome {W X : Type} (axios : Config -> W -> Result Val * W)
      (sign : Val -> string -> Result string) (baseUrl : string)
      (to_str : Val -> string) (itemId : Val) (st : St W X) :
  exists r st',
    BasicScript.fetchInventoryItemDetail axios sign baseUrl to_str itemId st = (r, st')
    /\ host st' = host st
    /\ match r with
       | Ok d =>
           d = Null
           \/ exists fields p c t rt locs total,
                d = Obj fields
                /\ assoc "priceData" fields = Some (RecordFetcher.priceData p c t rt)
                /\ In c Schema.currency_enum
                /\ assoc "locationsData" fields = Some (Arr locs)
                /\ assoc "totalQuantity" fields = Some total
       | Throw e =>
           coercible itemId = false
           /\ e = TypeError "Cannot convert object to primitive value"
       end.
Proof.
  pose proof (keeps_basic_fetch (fun h => h = host st) axios sign baseUrl to_str
                itemId st) as Hkeep.
  destruct (BasicScript.fetchInventoryItemDetail axios sign baseUrl to_str itemId st)
    as [r st'] eqn:Hrun.
  exists r, st'. split; [reflexivity|]. split; [apply (Hkeep _ _ eq_refl eq_refl)|].
  unfold BasicScript.fetchInventoryItemDetail, try_catch in Hrun.
  match type of Hrun with context [match ?m st with _ => _ end] =>
    destruct (m st) as [[d|e] st1] eqn:E end.
  - injection Hrun as <- <-.
    apply bind_ok in E as (text & s0 & _ & E).
    apply bind_ok in E as (data & s1 & _ & E).
    right. apply (enrich_shape _ _ _ _ _ _ _ _ E).
  - unfold bind, lift, ToString in Hrun. destruct (coercible itemId).
    + injection Hrun as <- <-. left. reflexivity.
    + injection Hrun as <- <-. split; reflexivity.
Qed.

(** X3.  Both copies of [fetchInventoryItemDetail] never touch the rest of
    the process state and, whatever the upstream and the signer do, return
    [null] or an object that holds [priceData] (with a currency the schema
    accepts), an array [locationsData] and [totalQuantity]; the one
    exception is an [itemId] that cannot be converted to a string, for which
    the log line of the [catch] block throws a TypeError.  For every
    [itemId] that can be converted, strings and numbers among them, they
    never throw. *)
Theorem fetchInventoryItemDetail_never_throws
        {W X : Type} (axios : Config -> W -> Result Val * W)
        (sign : Val -> string -> Result string) (baseUrl : string)
        (to_str : Val -> string) (itemId : Val) (st : St W X) :
  let fetched (d : Val) :=
    d = Null
    \/ exists fields p c t rt locs total,
         d = Obj fields
         /\ assoc "priceData" fields = Some (RecordFetcher.priceData p c t rt)
         /\ In c Schema.currency_enum
         /\ assoc "locationsData" fields = Some (Arr locs)
         /\ assoc "totalQuantity" fields = Some total in
  let outcome (r : Result Val) :=
    match r with
    | Ok d => fetched d
    | Throw e =>
        coercible itemId = false
        /\ e = TypeError "Cannot convert object to primitive value"
    end in
  (exists r st',
      SweepScript.fetchInventoryItemDetail axios sign baseUrl to_str itemId st
      = (r, st')
      /\ host st' = host st /\ outcome r)
  /\ (exists r st',
        BasicScript.fetchInventoryItemDetail axios sign baseUrl to_str itemId st
        = (r, st')
        /\ host st' = host st /\ outcome r)
  /\ (coercible itemId = true ->
      (exists d st',
          SweepScript.fetchInventoryItemDetail axios sign baseUrl to_str itemId st
          = (Ok d, st')
          /\ host st' = host st /\ fetched d)
      /\ (exists d st',
            BasicScript.fetchInventoryItemDetail axios sign baseUrl to_str itemId st
            = (Ok d, st')
            /\ host st' = host st /\ fetched d))
  /\ (forall s, coercible (Str s) = true)
  /\ (forall n, coercible (Number n) = true).
Proof.
  intros fetched outcome.
  destruct (sweep_fetch_outcome axios sign baseUrl to_str itemId st)
    as (r1 & s1 & Hrun1 & Hhost1 & Hr1).
  destruct (basic_fetch_outcome axios sign baseUrl to_str itemId st)
    as (r2 & s2 & Hrun2 & Hhost2 & Hr2).
  split; [|split; [|split; [|split; reflexivity]]].
  - exists r1, s1. repeat split; assumption.
  - exists r2, s2. repeat split; assumption.
  - intros Hc. split.
    + destruct r1 as [d|e]; [|destruct Hr1; congruence].
      exists d, s1. repeat split; assumption.
    + destruct r2 as [d|e]; [|destruct Hr2; congruence].
      exists d, s2. repeat split; assumption.
Qed.

Lemma fetchInventoryItemDetail_never_throws_witness :
  exists d st',
    BasicScript.fetchInventoryItemDetail (Mock.routed Mock.inactive_route) Mock.sign
      Mock.base Mock.to_str (Str "7") (mkSt tt [] tt)
    = (Ok d, st')
    /\ host st' = tt
    /\ (d = Null
        \/ exists fields p c t rt locs total,
             d = Obj fields
             /\ assoc "priceData" fields = Some (RecordFetcher.priceData p c t rt)
             /\ In c Schema.currency_enum
             /\ assoc "locationsData" fields = Some (Arr locs)
             /\ assoc "totalQuantity" fields = Some total).
Proof.
  apply (proj2 (proj1 (proj2 (proj2 (fetchInventoryItemDetail_never_throws
                                      (Mock.routed Mock.inactive_route) Mock.sign
                                      Mock.base Mock.to_str (Str "7")
                                      (mkSt tt [] tt))))
                      eq_refl)).
Defined.

(** * Further properties of the transformer and the store *)

Section CanonicalRecord.
Import Transformer.

Variable to_str : Val -> string.
Variable Date_of : Val -> Date.
Variable stringify : Val -> string.

Lemma read_fields_keys (d : Val) (wanted : list (string * Source)) :
  forall vs, read_fields d wanted = Ok vs -> map fst vs = map fst wanted.
Proof.
  induction wanted as [|[name src] wanted IH]; intros vs H.
  - injection H as <-. reflexivity.
  - cbn [read_fields] in H.
    destruct (read_source d src) as [v|]; cbn [rbind] in H; [|discriminate].
    destruct (read_fields d wanted) as [vs'|]; cbn [rbind] in H; [|discriminate].
    injection H as <-. cbn [map fst]. f_equal. apply IH. reflexivity.
Qed.

Lemma assoc_none_keys k (l : list (string * Val)) :
  ~ In k (map fst l) -> assoc k l = None.
Proof.
  induction l as [|[k' v] l IH]; intros Hk; [reflexivity|].
  cbn [assoc]. destruct (String.eqb_spec k k') as [->|_].
  - exfalso. apply Hk. left. reflexivity.
  - apply IH. intros Hin. apply Hk. right. exact Hin.
Qed.

Lemma assoc_app_none k (l1 l2 : list (string * Val)) :
  assoc k l1 = None -> assoc k (l1 ++ l2) = assoc k l2.
Proof.
  induction l1 as [|[k' v] l1 IH]; intros H; [reflexivity|].
  cbn [assoc app] in *. destruct (String.eqb k k'); [discriminate | auto].
Qed.

Lemma declared_all (t : list (string * Val)) :
  forallb (names_include Store.schema_paths) (map fst t) = true ->
  Store.declared t = t.
Proof.
  unfold Store.declared. induction t as [|[k v] t IH]; intros H; [reflexivity|].
  cbn [map fst forallb] in H. apply andb_prop in H as [Hk Ht].
  cbn [List.filter fst]. rewrite Hk, (IH Ht). reflexivity.
Qed.

Lemma extractValue_returns (data : Val) (fieldPath : string) :
  exists r, extractValue data fieldPath = Ok r.
Proof.
  unfold extractValue. rewrite extractValue_walk_spec.
  destruct (lookup_path (split_on "." fieldPath) data) as [value|]; cbn [rbind].
  - destruct (extractValue_tail value) as (r & Hr & _). exists r. exact Hr.
  - eexists; reflexivity.
Qed.

Lemma extractNumericValue_returns (fields : list (string * Val)) (fieldName : string) :
  exists n, extractNumericValue (Obj fields) fieldName = Ok n.
Proof.
  destruct (assoc fieldName fields) as [v|] eqn:E;
    [|exists (int 0); apply extractNumericValue_unstored; exact E].
  unfold extractNumericValue. cbn [truthy has_property get member rbind].
  rewrite E. cbn [rbind]. destruct v; eexists; reflexivity.
Qed.

Lemma read_fields_returns (fields : list (string * Val))
      (wanted : list (string * Source)) :
  exists vs, read_fields (Obj fields) wanted = Ok vs.
Proof.
  induction wanted as [|[name src] wanted [vs IH]]; [eexists; reflexivity|].
  cbn [read_fields]. destruct src as [fieldPath|key fallback]; cbn [read_source].
  - destruct (extractValue_returns (Obj fields) fieldPath) as [r ->].
    cbn [rbind]. rewrite IH. eexists; reflexivity.
  - cbn [get rbind]. rewrite IH. eexists; reflexivity.
Qed.

Lemma coercible_or_else (a b : Val) :
  coercible a = true -> coercible b = true -> coercible (or_else a b) = true.
Proof. intros Ha Hb. unfold or_else. destruct (truthy a); assumption. Qed.

(** The identifier of the record is read when its log line can be
    written. *)
Lemma internalId_of_returns (fields : list (string * Val)) :
  coercible (or_else (get_opt (Obj fields) "internalId") (get_opt (Obj fields) "id"))
  = true ->
  exists internalId, internalId_of to_str (Obj fields) = Ok internalId.
Proof.
  intros Hc. unfold internalId_of.
  rewrite !(get_truthy (Obj fields) _ eq_refl). cbn [rbind].
  unfold or_else in Hc.
  destruct (truthy (get_opt (Obj fields) "internalId")); [eexists; reflexivity|].
  unfold ToString. rewrite Hc. cbn [rbind]. eexists; reflexivity.
Qed.

(** The record written by the transformer, member by member. *)
Lemma transformInventoryData_members (rawData : bool) (now : Z)
      (fields : list (string * Val)) :
  printable Date_of (Obj fields) = true ->
  exists internalId described averageCost totalValue p,
    transformInventoryData to_str Date_of stringify rawData now (Obj fields)
    = Ok ([("internalId", internalId)] ++ described
          ++ [("price", t_price p);
              ("currency", t_currency p);
              ("pricing", Obj [("tradePrice", t_tradePrice p);
                               ("retailPrice", t_retailPrice p)]);
              ("locations", t_locations p);
              ("totalQuantity", t_totalQuantity p);
              ("averageCost", Number averageCost);
              ("totalValue", Number totalValue);
              ("createdDate", t_createdDate p);
              ("lastModifiedDate", t_lastModifiedDate p)]
          ++ (if rawData then [("rawData", Str (stringify (Obj fields)))] else [])
          ++ [("lastSynced", DateV (Instant now))])
    /\ map fst described = map fst descriptive_fields
    /\ p = parsed_of Date_of (Obj fields).
Proof.
  intros Hp. unfold printable in Hp.
  apply andb_prop in Hp as [Hp Hretail]. apply andb_prop in Hp as [Hid Htrade].
  unfold transformInventoryData. fold (parsed_of Date_of (Obj fields)).
  destruct (extractNumericValue_returns fields "averageCost") as [a ->].
  destruct (extractNumericValue_returns fields "totalValue") as [t ->].
  cbn [rbind]. unfold log_financial_data.
  rewrite !(get_truthy (Obj fields) _ eq_refl). cbn [rbind].
  unfold ToString at 1 2 3. rewrite Hid, Htrade, Hretail. cbn [rbind].
  destruct (internalId_of_returns fields Hid) as [i ->]. cbn [rbind].
  destruct (read_fields_returns fields descriptive_fields) as [vs Hvs].
  rewrite Hvs. cbn [rbind]. do 5 eexists. split; [reflexivity|].
  split; [apply (read_fields_keys _ _ _ Hvs) | reflexivity].
Qed.

(** When a log line cannot be written the transformer throws. *)
Lemma transformInventoryData_unprintable (rawData : bool) (now : Z)
      (fields : list (string * Val)) :
  printable Date_of (Obj fields) = false ->
  transformInventoryData to_str Date_of stringify rawData now (Obj fields)
  = Throw (TypeError "Cannot convert object to primitive value").
Proof.
  intros Hp. unfold printable in Hp.
  unfold transformInventoryData. fold (parsed_of Date_of (Obj fields)).
  destruct (extractNumericValue_returns fields "averageCost") as [a ->].
  destruct (extractNumericValue_returns fields "totalValue") as [t ->].
  cbn [rbind]. unfold log_financial_data.
  rewrite !(get_truthy (Obj fields) _ eq_refl). cbn [rbind].
  unfold ToString at 1 2 3.
  destruct (coercible (or_else (get_opt (Obj fields) "internalId")
                               (get_opt (Obj fields) "id"))); [|reflexivity].
  destruct (coercible (t_tradePrice (parsed_of Date_of (Obj fields)))); [|reflexivity].
  destruct (coercible (t_retailPrice (parsed_of Date_of (Obj fields))));
    [discriminate | reflexivity].
Qed.

End CanonicalRecord.

(** X4.  On an object whose log lines can be written (its identifier and
    its two prices can be converted to strings, as every string and number
    can) [transformInventoryData] returns without throwing; on any other
    object it throws a TypeError.  The record it returns always has the same
    members in the same order, whatever the input holds.  Each of them is a
    path the schema declares, so none is dropped when the record is
    written. *)
Theorem transformInventoryData_shape
        (to_str : Val -> string) (Date_of : Val -> Date) (stringify : Val -> string)
        (rawData : bool) (now : Z) (fields : list (string * Val)) :
  (Transformer.printable Date_of (Obj fields) = true ->
   exists transformedData,
     Transformer.transformInventoryData to_str Date_of stringify rawData now
       (Obj fields) = Ok transformedData
     /\ map fst transformedData = Schema.canonical_keys rawData
     /\ Store.declared transformedData = transformedData)
  /\ (Transformer.printable Date_of (Obj fields) = false ->
      Transformer.transformInventoryData to_str Date_of stringify rawData now
        (Obj fields)
      = Throw (TypeError "Cannot convert object to primitive value"))
  /\ (forall transformedData,
        Transformer.transformInventoryData to_str Date_of stringify rawData now
          (Obj fields) = Ok transformedData ->
        map fst transformedData = Schema.canonical_keys rawData
        /\ Store.declared transformedData = transformedData).
Proof.
  assert (Hshape : Transformer.printable Date_of (Obj fields) = true ->
            exists transformedData,
              Transformer.transformInventoryData to_str Date_of stringify rawData now
                (Obj fields) = Ok transformedData
              /\ map fst transformedData = Schema.canonical_keys rawData
              /\ Store.declared transformedData = transformedData).
  { intros Hp.
    destruct (transformInventoryData_members to_str Date_of stringify rawData now
                fields Hp)
      as (i & described & a & t & p & -> & Hkeys & _).
    eexists. split; [reflexivity|].
    assert (Hmap : map fst ([("internalId", i)] ++ described
                    ++ [("price", Transformer.t_price p);
                        ("currency", Transformer.t_currency p);
                        ("pricing", Obj [("tradePrice", Transformer.t_tradePrice p);
                                         ("retailPrice", Transformer.t_retailPrice p)]);
                        ("locations", Transformer.t_locations p);
                        ("totalQuantity", Transformer.t_totalQuantity p);
                        ("averageCost", Number a);
                        ("totalValue", Number t);
                        ("createdDate", Transformer.t_createdDate p);
                        ("lastModifiedDate", Transformer.t_lastModifiedDate p)]
                    ++ (if rawData then [("rawData", Str (stringify (Obj fields)))] else [])
                    ++ [("lastSynced", DateV (Instant now))])
                   = Schema.canonical_keys rawData).
    { rewrite !map_app, Hkeys. unfold Schema.canonical_keys.
      destruct rawData; reflexivity. }
    split; [exact Hmap|].
    apply declared_all. rewrite Hmap. destruct rawData; reflexivity. }
  split; [exact Hshape|]. split.
  - apply transformInventoryData_unprintable.
  - intros t Ht.
    destruct (Transformer.printable Date_of (Obj fields)) eqn:Hp.
    + destruct (Hshape eq_refl) as (t' & Ht' & Hkeys & Hdecl).
      rewrite Ht in Ht'. injection Ht' as <-. split; assumption.
    + rewrite (transformInventoryData_unprintable to_str Date_of stringify rawData
                 now fields Hp) in Ht. discriminate.
Qed.

Lemma transformInventoryData_shape_witness :
  exists transformedData,
    Transformer.transformInventoryData Mock.to_str Mock.Date_of Mock.stringify true 0
      (Obj [("id", Str "7"); ("itemId", Str "Margaux 2015")]) = Ok transformedData
    /\ map fst transformedData = Schema.canonical_keys true
    /\ Store.declared transformedData = transformedData.
Proof.
  apply (proj1 (transformInventoryData_shape Mock.to_str Mock.Date_of Mock.stringify
                  true 0 [("id", Str "7"); ("itemId", Str "Margaux 2015")])).
  reflexivity.
Defined.

Section FetchedThenTransformed.
Import Transformer.

Variable to_str : Val -> string.
Variable Date_of : Val -> Date.
Variable stringify : Val -> string.

Lemma not_descriptive (k : string) (described : list (string * Val)) :
  map fst described = map fst descriptive_fields ->
  names_include (map fst descriptive_fields) k = false ->
  assoc k described = None.
Proof.
  intros Hkeys Hk. apply assoc_none_keys. rewrite Hkeys. intros Hin.
  unfold names_include in Hk.
  assert (existsb (String.eqb k) (map fst descriptive_fields) = true) as Ht.
  { apply existsb_exists. exists k. split; [exact Hin | apply String.eqb_refl]. }
  rewrite Ht in Hk. discriminate.
Qed.

(** The two date statements of the [try] block leave the other variables
    alone. *)
Lemma parse_dates_keep (d : Val) (p p' : Parsed) :
  parse_created Date_of d p = Ok p' \/ parse_modified Date_of d p = Ok p' ->
  t_price p' = t_price p /\ t_currency p' = t_currency p
  /\ t_tradePrice p' = t_tradePrice p /\ t_retailPrice p' = t_retailPrice p
  /\ t_locations p' = t_locations p /\ t_totalQuantity p' = t_totalQuantity p.
Proof.
  unfold parse_created, parse_modified.
  intros [H|H];
    (destruct (get d _) as [v|]; cbn [rbind] in H; [|discriminate]);
    (destruct (truthy v);
     [unfold new_Date_of in H; destruct (coercible v); cbn [rbind] in H;
      [|discriminate]|]);
    injection H as <-; repeat split.
Qed.

(** What the [try] block of the transformer assigns from a record that
    holds price data and locations. *)
Lemma try_statements_fetched fields pd locs total p :
  assoc "priceData" fields = Some pd -> truthy pd = true ->
  assoc "locationsData" fields = Some (Arr locs) ->
  assoc "totalQuantity" fields = Some total ->
  p = parsed_of Date_of (Obj fields) ->
  t_price p = or_else (get_opt pd "price") zero
  /\ t_currency p = or_else (get_opt pd "currency") (Str "HKD")
  /\ t_tradePrice p = or_else (get_opt pd "tradePrice") zero
  /\ t_retailPrice p = or_else (get_opt pd "retailPrice") zero
  /\ t_locations p = Arr locs
  /\ t_totalQuantity p = or_else total zero.
Proof.
  intros Hpd Tpd Hloc Htot Hp.
  unfold parsed_of in Hp. cbn [try_statements] in Hp. unfold parse_price at 1 in Hp. cbn [get member rbind] in Hp.
  rewrite Hpd, Tpd in Hp. rewrite !(get_truthy pd _ Tpd) in Hp. cbn [rbind] in Hp.
  unfold parse_locations at 1 in Hp. cbn [get member rbind] in Hp.
  rewrite Hloc, Htot in Hp. cbn [truthy rbind] in Hp.
  match type of Hp with context [parse_created Date_of (Obj fields) ?p2] =>
    set (parsed := p2) in Hp end.
  destruct (parse_created Date_of (Obj fields) parsed) as [p3|] eqn:E3;
    [|subst p; repeat split].
  destruct (parse_dates_keep _ _ _ (or_introl E3)) as (H1 & H2 & H3 & H4 & H5 & H6).
  destruct (parse_modified Date_of (Obj fields) p3) as [p4|] eqn:E4; subst p.
  - destruct (parse_dates_keep _ _ _ (or_intror E4)) as (K1 & K2 & K3 & K4 & K5 & K6).
    repeat split;
      [exact (eq_trans K1 H1) | exact (eq_trans K2 H2) | exact (eq_trans K3 H3)
      | exact (eq_trans K4 H4) | exact (eq_trans K5 H5) | exact (eq_trans K6 H6)].
  - repeat split; [exact H1 | exact H2 | exact H3 | exact H4 | exact H5 | exact H6].
Qed.

End FetchedThenTransformed.

(** X5.  The fetcher and the transformer compose: from a record as
    [fetchInventoryItemDetail] assembles it, whose identifier and two prices
    can be converted to strings, [transformInventoryData] takes the display
    price, the currency, the two prices of [pricing], the locations and the
    total quantity as they were fetched, a missing price or quantity reading
    as 0.  In particular the stored currency is the fetcher's, one the schema
    accepts. *)
Theorem transform_keeps_fetched_price_and_stock
        (to_str : Val -> string) (Date_of : Val -> Date) (stringify : Val -> string)
        (rawData : bool) (now : Z) (fields : list (string * Val))
        (p : Val) (c : string) (t rt : Val) (locs : list Val) (total : Val) :
  assoc "priceData" fields = Some (RecordFetcher.priceData p c t rt) ->
  In c Schema.currency_enum ->
  assoc "locationsData" fields = Some (Arr locs) ->
  assoc "totalQuantity" fields = Some total ->
  coercible (or_else (get_opt (Obj fields) "internalId") (get_opt (Obj fields) "id"))
  = true ->
  coercible t = true ->
  coercible rt = true ->
  exists transformedData,
    Transformer.transformInventoryData to_str Date_of stringify rawData now (Obj fields)
    = Ok transformedData
    /\ assoc "price" transformedData = Some (or_else p zero)
    /\ assoc "currency" transformedData = Some (Str c)
    /\ assoc "pricing" transformedData
       = Some (Obj [("tradePrice", or_else t zero); ("retailPrice", or_else rt zero)])
    /\ assoc "locations" transformedData = Some (Arr locs)
    /\ assoc "totalQuantity" transformedData = Some (or_else total zero).
Proof.
  intros Hpd Hc Hloc Htot Hid Htrade Hretail.
  destruct (try_statements_fetched Date_of fields _ locs total _
              Hpd eq_refl Hloc Htot eq_refl)
    as (Hp & Hcur & Ht & Hrt & Hl & Hq).
  assert (Hprintable : Transformer.printable Date_of (Obj fields) = true).
  { unfold Transformer.printable. rewrite Hid, Ht, Hrt.
    cbn [get_opt get member RecordFetcher.priceData assoc String.eqb Ascii.eqb
         Bool.eqb andb].
    rewrite !coercible_or_else by (try assumption; reflexivity). reflexivity. }
  destruct (transformInventoryData_members to_str Date_of stringify rawData now fields
              Hprintable)
    as (i & described & a & tv & parsed & -> & Hkeys & ->).
  assert (Hcs : or_else (Str c) (Str "HKD") = Str c).
  { cbn in Hc. destruct Hc as [<-|[<-|[<-|[]]]]; reflexivity. }
  eexists. split; [reflexivity|].
  cbn [app assoc String.eqb Ascii.eqb Bool.eqb].
  repeat split;
    (rewrite assoc_app_none
       by (apply (not_descriptive _ _ Hkeys); reflexivity));
    cbn [assoc String.eqb Ascii.eqb Bool.eqb];
    rewrite ?Hp, ?Hcur, ?Ht, ?Hrt, ?Hl, ?Hq;
    cbn [get_opt get member RecordFetcher.priceData assoc String.eqb Ascii.eqb Bool.eqb];
    rewrite ?Hcs; reflexivity.
Qed.

Lemma transform_keeps_fetched_price_and_stock_witness :
  exists transformedData,
    Transformer.transformInventoryData Mock.to_str Mock.Date_of Mock.stringify
      false 0
      (Obj [("id", Str "7");
            ("priceData", RecordFetcher.priceData (Number (int 120)) "EUR"
                            (Number (int 100)) zero);
            ("locationsData", Arr []); ("totalQuantity", zero)])
    = Ok transformedData
    /\ assoc "price" transformedData = Some (Number (int 120))
    /\ assoc "currency" transformedData = Some (Str "EUR")
    /\ assoc "pricing" transformedData
       = Some (Obj [("tradePrice", Number (int 100)); ("retailPrice", zero)])
    /\ assoc "locations" transformedData = Some (Arr [])
    /\ assoc "totalQuantity" transformedData = Some zero.
Proof.
  apply (transform_keeps_fetched_price_and_stock Mock.to_str Mock.Date_of
           Mock.stringify false 0
           [("id", Str "7");
            ("priceData", RecordFetcher.priceData (Number (int 120)) "EUR"
                            (Number (int 100)) zero);
            ("locationsData", Arr []); ("totalQuantity", zero)]
           (Number (int 120)) "EUR" (Number (int 100))
           zero [] zero eq_refl ltac:(cbn; auto) eq_refl eq_refl
           eq_refl eq_refl eq_refl).
Defined.

Section UpsertContents.
Import Store.

Lemma lookup_list_to_map_assoc (l : list (string * Val)) (k : string) :
  (list_to_map l : gmap string Val) !! k = assoc k l.
Proof.
  induction l as [|[k' v] l IH]; [reflexivity|].
  change (list_to_map ((k', v) :: l) : gmap string Val)
    with (<[k' := v]> (list_to_map l : gmap string Val)).
  cbn [assoc]. destruct (String.eqb_spec k k') as [->|Hne].
  - apply lookup_insert_eq.
  - rewrite lookup_insert_ne by (intros E; apply Hne; symmetry; exact E). exact IH.
Qed.

Lemma assoc_declared (update : list (string * Val)) (f : string) :
  assoc f (declared update)
  = if names_include schema_paths f then assoc f update else None.
Proof.
  unfold declared. induction update as [|[k v] update IH]; cbn [List.filter assoc fst].
  - destruct (names_include schema_paths f); reflexivity.
  - destruct (names_include schema_paths k) eqn:Ek; cbn [assoc];
      destruct (String.eqb_spec f k) as [->|Hne]; rewrite ?IH, ?Ek; reflexivity.
Qed.

(** The cast of an update keeps its paths, in order. *)
Lemma cast_fields_paths (castPath : string -> Val -> Result Val)
      (fields : list (string * Val)) :
  forall n cast n',
    cast_fields castPath n fields = Ok (cast, n') -> map fst cast = map fst fields.
Proof.
  induction fields as [|[path value] rest IH]; intros n cast n'.
  - cbn [cast_fields]. intros [= <- _]. reflexivity.
  - cbn [cast_fields]. destruct (castPath path value) as [c|]; cbn [rbind];
      [|discriminate].
    match goal with |- context [let '(_, _) := ?placed in _] =>
      destruct placed as [stored after] end.
    destruct (cast_fields castPath after rest) as [[others m]|] eqn:Hrest;
      cbn [rbind]; [|discriminate].
    intros [= <- _]. cbn [map fst]. f_equal. apply (IH _ _ _ Hrest).
Qed.

Lemma assoc_same_paths (l l' : list (string * Val)) (f : string) :
  map fst l = map fst l' -> assoc f l' = None -> assoc f l = None.
Proof.
  revert l'. induction l as [|[k v] l IH]; intros [|[k' v'] l'] Hkeys Hnone;
    try discriminate; [reflexivity|].
  cbn [map fst] in Hkeys. injection Hkeys as <- Hkeys.
  cbn [assoc] in *. destruct (String.eqb f k); [discriminate|].
  apply (IH l' Hkeys Hnone).
Qed.

End UpsertContents.



(** * Further properties of the sync loops *)

Section RunReport.
Import Store Process Transformer.

Context {W K : Type} `{Countable K}.
Variable axios : Config -> W -> Result Val * W.
Variable sign : Val -> string -> Result string.
Variable baseUrl : string.
Variable to_str : Val -> string.
Variable Date_of : Val -> Date.
Variable stringify : Val -> string.
Variable castKey : Val -> Result K.
Variable key_value : K -> Val.
Variable castPath : string -> Val -> Result Val.
Variable validate : list (string * Val) -> Result unit.
Variable defaults : gmap string Val.
Variable clock : list Event -> Z.
Variable shortName : Val -> Result Val.

(** Shortening a display name does not throw (it does not when the name is
    a string). *)
Hypothesis shortName_returns : forall name, exists short, shortName name = Ok short.

Lemma displayName_returns name itemId :
  coercible itemId = true ->
  exists shown, SweepScript.displayName to_str name itemId = Ok shown.
Proof.
  intros Hc. unfold SweepScript.displayName, ToString. rewrite Hc.
  destruct (truthy name); eexists; reflexivity.
Qed.

Lemma save_line_returns itemId transformedData :
  coercible itemId = true ->
  exists line,
    SweepScript.save_line to_str shortName itemId transformedData = Ok line.
Proof.
  intros Hc. unfold SweepScript.save_line.
  destruct (displayName_returns (Run.member transformedData "itemName") itemId Hc)
    as [shown ->].
  cbn [rbind]. apply shortName_returns.
Qed.

(** A turn of the full sweep moves exactly one of the three outcomes. *)
Lemma sweep_turn_accounted item (st : St W (Host K Run.Vars)) :
  Run.has_printable_id item ->
  Report.accounted (vars (host st)) ->
  exists st',
    SweepScript.syncAllInventory_item axios sign baseUrl to_str Date_of stringify
      castKey key_value castPath validate defaults clock shortName item st
    = (Ok tt, st')
    /\ Report.accounted (vars (host st')).
Proof.
  intros (itemId & Hid & Hc) Hacc.
  rewrite (sweep_turn_start axios sign baseUrl to_str Date_of stringify castKey
             key_value castPath validate defaults clock shortName item itemId st
             Hid Hc).
  set (st0 := Run.counted st).
  assert (Hacc0 : Run.processedCount (vars (host st0))
                  = Run.savedCount (vars (host st0))
                    + Run.skippedInactiveCount (vars (host st0))
                    + Z.of_nat (length (Run.errors (vars (host st0)))) + 1).
  { subst st0. cbn. unfold Report.accounted in Hacc. lia. }
  clearbody st0. clear Hacc st.
  destruct (sweep_fetch_outcome axios sign baseUrl to_str itemId st0)
    as (r & st1 & Hfetch & Hhost & Hr).
  destruct r as [d|e]; [|destruct Hr; congruence].
  rewrite <- Hhost in Hacc0.
  unfold try_catch at 1, SweepScript.item_try. unfold bind at 1. rewrite Hfetch.
  destruct Hr as [-> | (fields & _ & _ & _ & _ & _ & _ & -> & _)]; cbn [truthy].
  - unfold bind, lift, ToString, modify, writeErrorLog. rewrite Hc.
    eexists. split; [reflexivity|]. cbn. unfold Report.accounted. cbn.
    rewrite length_app. cbn. lia.
  - unfold bind at 1, lift at 1. rewrite (get_truthy (Obj fields) _ eq_refl).
    destruct (is_true _).
    + unfold bind at 1, modify at 1. unfold bind at 1, lift at 1.
      rewrite (get_truthy (Obj fields) _ eq_refl).
      unfold bind at 1, lift at 1.
      destruct (displayName_returns (get_opt (Obj fields) "itemId") itemId Hc)
        as [shown ->].
      unfold bind at 1, lift at 1.
      destruct (shortName_returns shown) as [short ->].
      eexists. split; [reflexivity|]. cbn. unfold Report.accounted. cbn. lia.
    + unfold bind at 1, now at 1. unfold bind at 1, lift at 1.
      destruct (transformInventoryData to_str Date_of stringify false
                  (clock (trace st1)) (Obj fields)) as [t|e].
      * unfold try_catch at 1, SweepScript.save_try. unfold bind at 1.
        unfold db_findOneAndUpdate.
        destruct (findOneAndUpdate castKey key_value castPath validate defaults
                    (clock (trace st1)) (minted (host st1))
                    (Run.member t "internalId") t (database (host st1)))
          as [[[doc db'] next]|e].
        -- unfold bind at 1, modify at 1. unfold bind at 1, lift at 1.
           destruct (save_line_returns itemId t Hc) as [line ->].
           eexists. split; [reflexivity|]. cbn. unfold Report.accounted. cbn. lia.
        -- unfold SweepScript.save_catch, bind, lift, ToString, modify. rewrite Hc.
           eexists. split; [reflexivity|]. cbn. unfold Report.accounted. cbn.
           rewrite length_app. cbn. lia.
      * unfold SweepScript.item_catch, bind, lift, ToString, modify, writeErrorLog.
        rewrite Hc.
        eexists. split; [reflexivity|]. cbn. unfold Report.accounted. cbn.
        rewrite length_app. cbn. lia.
Qed.

Lemma sweep_items_accounted (items : list Val) :
  forall st : St W (Host K Run.Vars),
    Forall Run.has_printable_id items ->
    Report.accounted (vars (host st)) ->
    exists st',
      SweepScript.syncAllInventory_items axios sign baseUrl to_str Date_of stringify
        castKey key_value castPath validate defaults clock shortName items st
      = (Ok tt, st')
      /\ Report.accounted (vars (host st')).
Proof.
  induction items as [|item items IH]; intros st Hids Hacc.
  - exists st. split; [reflexivity | exact Hacc].
  - inversion Hids as [|? ? Hid Hrest]; subst.
    destruct (sweep_turn_accounted item st Hid Hacc) as (st1 & Hturn & Hacc1).
    destruct (IH st1 Hrest Hacc1) as (st' & Hloop & Hacc').
    exists st'. split; [|exact Hacc'].
    cbn [SweepScript.syncAllInventory_items]. unfold bind at 1.
    rewrite Hturn. exact Hloop.
Qed.

End RunReport.

(** X7.  The report of a full sweep adds up.  When shortening a display name
    does not throw, every turn of the loop of [syncAllInventory] moves
    exactly one outcome: after a run over candidates whose [id] can be read
    and converted to a string, the number processed is the number saved plus
    the number skipped as inactive plus the number of errors recorded. *)
Theorem sweep_report_adds_up
        {W K : Type} `{Countable K} (axios : Config -> W -> Result Val * W)
        (sign : Val -> string -> Result string) (baseUrl : string)
        (to_str : Val -> string) (Date_of : Val -> Date) (stringify : Val -> string)
        (castKey : Val -> Result K) (key_value : K -> Val)
        (castPath : string -> Val -> Result Val)
        (validate : list (string * Val) -> Result unit) (defaults : gmap string Val)
        (clock : list Event -> Z) (shortName : Val -> Result Val)
        (items : list Val) (st : St W (Store.Host K Run.Vars)) :
  (forall name, exists short, shortName name = Ok short) ->
  Forall Run.has_printable_id items ->
  Store.vars (host st) = Run.start ->
  exists st',
    SweepScript.syncAllInventory_items axios sign baseUrl to_str Date_of stringify
      castKey key_value castPath validate defaults clock shortName items st
    = (Ok tt, st')
    /\ Run.processedCount (Store.vars (host st'))
       = Run.savedCount (Store.vars (host st'))
         + Run.skippedInactiveCount (Store.vars (host st'))
         + Z.of_nat (length (Run.errors (Store.vars (host st')))).
Proof.
  intros Hshort Hids Hstart.
  apply (sweep_items_accounted axios sign baseUrl to_str Date_of stringify castKey
           key_value castPath validate defaults clock shortName Hshort items st Hids).
  unfold Report.accounted. rewrite Hstart. reflexivity.
Qed.

Lemma sweep_report_adds_up_witness :
  exists st',
    SweepScript.syncAllInventory_items (Mock.routed Mock.candidate_route) Mock.sign
      Mock.base Mock.to_str Mock.Date_of Mock.stringify Mock.castKey Mock.key_value
      Mock.castPath Mock.accept ∅ Mock.clock
      Mock.shortName Mock.candidates Mock.fresh = (Ok tt, st')
    /\ Run.processedCount (Store.vars (host st'))
       = Run.savedCount (Store.vars (host st'))
         + Run.skippedInactiveCount (Store.vars (host st'))
         + Z.of_nat (length (Run.errors (Store.vars (host st')))).
Proof.
  apply (sweep_report_adds_up (Mock.routed Mock.candidate_route) Mock.sign
           Mock.base Mock.to_str Mock.Date_of Mock.stringify Mock.castKey
           Mock.key_value Mock.castPath Mock.accept ∅ Mock.clock
           Mock.shortName Mock.candidates Mock.fresh
           (fun name => ex_intro _ name eq_refl)
           ltac:(repeat constructor; eexists; split; reflexivity) eq_refl).
Defined.

Section NothingLost.
Import Store Process Transformer.

Context {W K : Type} `{Countable K}.
Variable axios : Config -> W -> Result Val * W.
Variable sign : Val -> string -> Result string.
Variable baseUrl : string.
Variable to_str : Val -> string.
Variable Date_of : Val -> Date.
Variable stringify : Val -> string.
Variable castKey : Val -> Result K.
Variable key_value : K -> Val.
Variable castPath : string -> Val -> Result Val.
Variable validate : list (string * Val) -> Result unit.
Variable defaults : gmap string Val.
Variable clock : list Event -> Z.
Variable shortName : Val -> Result Val.
Variable before : gmap K (gmap string Val).

Lemma none_lost_upsert (h : Host K Run.Vars) t id update doc db' next :
  findOneAndUpdate castKey key_value castPath validate defaults t (minted h) id
                   update (database h) = Ok (doc, db', next) ->
  Report.none_lost before h ->
  Report.none_lost before (mkHost db' (errorLog h) next (vars h)).
Proof.
  intros E Hkept k Hk.
  apply findOneAndUpdate_shape in E as (key & l1 & _ & _ & _ & -> & _).
  cbn [database]. destruct (decide (key = k)) as [->|Hne].
  - rewrite lookup_insert_eq. eexists; reflexivity.
  - rewrite lookup_insert_ne by exact Hne. apply Hkept. exact Hk.
Qed.

Ltac lost_keeping :=
  repeat first
    [ keeping_step
    | apply keeps_sweep_fetch
    | apply keeps_basic_fetch
    | apply keeps_now
    | apply keeps_modify; intros ? ?; assumption
    | apply keeps_writeErrorLog; intros ? ? ?; assumption
    | apply keeps_db_findOneAndUpdate; intros ? ? ? ? ? E ?;
      apply (none_lost_upsert _ _ _ _ _ _ _ E); assumption ].

Lemma sweep_items_none_lost (items : list Val) :
  keeps (Report.none_lost before)
    (SweepScript.syncAllInventory_items axios sign baseUrl to_str Date_of stringify
       castKey key_value castPath validate defaults clock shortName items).
Proof.
  induction items as [|item items IH]; cbn [SweepScript.syncAllInventory_items];
    [apply keeps_ret|].
  apply keeps_bind; [|intros _; exact IH].
  unfold SweepScript.syncAllInventory_item, SweepScript.item_try,
    SweepScript.item_catch, SweepScript.save_try, SweepScript.save_catch.
  lost_keeping.
Qed.

Lemma basic_items_none_lost (items : list Val) :
  keeps (Report.none_lost before)
    (BasicScript.syncInventory_items axios sign baseUrl to_str Date_of stringify
       castKey key_value castPath validate defaults clock shortName items).
Proof.
  induction items as [|item items IH]; cbn [BasicScript.syncInventory_items];
    [apply keeps_ret|].
  apply keeps_bind; [|intros _; exact IH].
  unfold BasicScript.syncInventory_item, BasicScript.item_work,
    BasicScript.save_try, BasicScript.save_catch.
  lost_keeping.
Qed.

End NothingLost.

(** X8.  A sync run never removes a record.  Whatever the upstream answers
    and however the run ends, every [internalId] that was in the collection
    before the loop of [syncAllInventory] or of [syncInventory] is still in
    it afterwards: the loops only insert and rewrite. *)
Theorem sync_never_removes
        {W K : Type} `{Countable K} (axios : Config -> W -> Result Val * W)
        (sign : Val -> string -> Result string) (baseUrl : string)
        (to_str : Val -> string) (Date_of : Val -> Date) (stringify : Val -> string)
        (castKey : Val -> Result K) (key_value : K -> Val)
        (castPath : string -> Val -> Result Val)
        (validate : list (string * Val) -> Result unit) (defaults : gmap string Val)
        (clock : list Event -> Z) (shortName : Val -> Result Val)
        (items : list Val) (st : St W (Store.Host K Run.Vars)) :
  (forall r st',
      SweepScript.syncAllInventory_items axios sign baseUrl to_str Date_of stringify
        castKey key_value castPath validate defaults clock shortName items st
      = (r, st') ->
      forall k, is_Some (Store.database (host st) !! k) ->
                is_Some (Store.database (host st') !! k))
  /\ (forall r st',
        BasicScript.syncInventory_items axios sign baseUrl to_str Date_of stringify
          castKey key_value castPath validate defaults clock shortName items st
        = (r, st') ->
        forall k, is_Some (Store.database (host st) !! k) ->
                  is_Some (Store.database (host st') !! k)).
Proof.
  split; intros r st' Hrun.
  - apply (sweep_items_none_lost axios sign baseUrl to_str Date_of stringify castKey
             key_value castPath validate defaults clock shortName
             (Store.database (host st)) items st r st' Hrun).
    intros k Hk. exact Hk.
  - apply (basic_items_none_lost axios sign baseUrl to_str Date_of stringify castKey
             key_value castPath validate defaults clock shortName
             (Store.database (host st)) items st r st' Hrun).
    intros k Hk. exact Hk.
Qed.

Lemma sync_never_removes_witness :
  is_Some (Store.database
             (host (snd (SweepScript.syncAllInventory_items
                           (Mock.routed Mock.candidate_route) Mock.sign
                           Mock.base Mock.to_str Mock.Date_of Mock.stringify
                           Mock.castKey Mock.key_value Mock.castPath Mock.accept ∅
                           Mock.clock Mock.shortName Mock.candidates
                           Samples.stocked))) !! 9).
Proof.
  apply (proj1 (sync_never_removes (Mock.routed Mock.candidate_route) Mock.sign
                  Mock.base Mock.to_str Mock.Date_of Mock.stringify Mock.castKey
                  Mock.key_value Mock.castPath Mock.accept ∅
                  Mock.clock Mock.shortName Mock.candidates Samples.stocked)
               _ _ (surjective_pairing _)).
  vm_compute. eexists. reflexivity.
Defined.

(** * Further properties of the paginator *)

Section SweepBounds.
Import Paginator.

Context {W X : Type}.
Variable axios : Config -> W -> Result Listing * W.
Variable sign : Val -> string -> Result string.
Variable baseUrl : string.
Variable options : Options.

Lemma request_fails (retries : nat) (c : Config) :
  (forall w, exists e w', axios c w = (Throw e, w')) ->
  forall st : St W X,
    exists e st', netsuiteRequest_from axios retries c st = (Throw e, st').
Proof.
  intros Hfail. induction retries as [|fewer IH]; intros st;
    cbn [netsuiteRequest_from]; unfold try_catch, schedule;
    destruct (Hfail (upstream st)) as (e & w' & ->).
  - eexists _, _. reflexivity.
  - destruct (decide (exn_status e = Some 429)); [|eexists _, _; reflexivity].
    unfold bind, sleep. apply IH.
Qed.

Lemma request_served (retries : nat) (c : Config) :
  forall (st : St W X) page st',
    netsuiteRequest_from axios retries c st = (Ok page, st') ->
    exists w w', axios c w = (Ok page, w').
Proof.
  induction retries as [|fewer IH]; intros st page st' H;
    cbn [netsuiteRequest_from] in H; unfold try_catch, schedule in H;
    destruct (axios c (upstream st)) as [[d|e] w1] eqn:A;
    try (injection H as <- _; eexists _, _; exact A); try discriminate.
  destruct (decide (exn_status e = Some 429)); [|discriminate].
  unfold bind, sleep in H. apply (IH _ _ _ H).
Qed.

(** An iteration whose page cannot be fetched ends in the [catch]. *)
Lemma sweep_iteration_unserved (s : Sweep) (st : St W X) :
  (forall c w, exists e w', axios c w = (Throw e, w')) ->
  capped options s = false ->
  exists st', sweep_iteration axios sign baseUrl options s st
              = (Ok (Next (sweep_catch options s)), st').
Proof.
  intros Hfail Hcap. unfold sweep_iteration, try_catch, sweep_try. rewrite Hcap.
  unfold bind at 1, lift at 1.
  destruct (sign (page_url baseUrl options s) "GET") as [h|e]; [|eexists; reflexivity].
  unfold bind at 1.
  destruct (request_fails 3 (mkConfig "GET" (page_url baseUrl options s) Undefined 30000)
              (Hfail _) st) as (e & st' & Hreq).
  unfold netsuiteRequest. rewrite Hreq. eexists; reflexivity.
Qed.

Lemma sweep_loop_unserved (n : nat) :
  (forall c w, exists e w', axios c w = (Throw e, w')) ->
  0 < limit options ->
  forall (s : Sweep) (st : St W X) (fuel : nat),
    allItems s = [] -> hasMore s = true -> totalResults s = None ->
    capped options s = false ->
    offset s <= 100000 ->
    (100000 - offset s) / limit options = Z.of_nat n ->
    exists st',
      sweep_loop axios sign baseUrl options fuel s st
      = (Ok (if (n <? fuel)%nat then Some [] else None), st').
Proof.
  intros Hfail Hlimit. induction n as [|n IH];
    intros s st fuel Hitems Hmore Htotal Hcap Hoff Hdiv.
  - destruct fuel as [|fuel]; cbn [sweep_loop]; rewrite Hmore; cbn [negb];
      [eexists; reflexivity|].
    destruct (sweep_iteration_unserved s st Hfail Hcap) as [st1 Hstep].
    unfold bind at 1. rewrite Hstep.
    assert (Hstop : hasMore (sweep_catch options s) = false).
    { unfold sweep_catch. cbn [hasMore]. rewrite Htotal. cbn [expected_total].
      assert ((100000 <? offset s + limit options) = true) as ->; [|reflexivity].
      apply Z.ltb_lt.
      assert (100000 - offset s < limit options); [|lia].
      apply Z.div_small_iff in Hdiv; lia. }
    destruct fuel; cbn [sweep_loop]; rewrite Hstop; cbn [negb];
      unfold ret, sweep_catch; cbn [allItems]; rewrite Hitems; eexists; reflexivity.
  - destruct fuel as [|fuel]; cbn [sweep_loop]; rewrite Hmore; cbn [negb];
      [eexists; reflexivity|].
    destruct (sweep_iteration_unserved s st Hfail Hcap) as [st1 Hstep].
    unfold bind at 1. rewrite Hstep.
    assert (Hge : limit options <= 100000 - offset s).
    { destruct (Z.lt_ge_cases (100000 - offset s) (limit options)) as [Hlt|Hge];
        [|exact Hge].
      rewrite Z.div_small in Hdiv by lia. lia. }
    destruct (IH (sweep_catch options s) st1 fuel) as [st' Hloop].
    + exact Hitems.
    + unfold sweep_catch. cbn [hasMore]. rewrite Htotal. cbn [expected_total].
      assert ((100000 <? offset s + limit options) = false) as ->; [|exact Hmore].
      apply Z.ltb_ge. lia.
    + exact Htotal.
    + unfold capped in *. cbn [allItems sweep_catch]. exact Hcap.
    + cbn [offset sweep_catch]. lia.
    + cbn [offset sweep_catch].
      replace (100000 - (offset s + limit options))
        with (100000 - offset s + (-1) * limit options) by lia.
      rewrite Z.div_add by lia. lia.
    + exists st'. rewrite Hloop. reflexivity.
Qed.

(** X9.  When no page can be fetched at all (every request fails, whatever
    the error), the sweep of [fetchAllInventoryItems] neither throws nor
    runs on: with a positive page width [limit = min(batchSize, 1000)] and a
    cap, if any, above 0, it skips [floor(100000 / limit) + 1] pages and
    returns the empty list; the loop is left after exactly that many
    iterations. *)
Theorem sweep_gives_up_when_unserved :
  (forall c w, exists e w', axios c w = (Throw e, w')) ->
  0 < limit options ->
  uncapped options 0 ->
  forall (fuel : nat) (st : St W X),
    exists st',
      fetchAllInventoryItems axios sign baseUrl options fuel st
      = (Ok (if (Z.to_nat (100000 / limit options) <? fuel)%nat
             then Some [] else None), st').
Proof.
  intros Hfail Hlimit Hcap fuel st.
  destruct (sweep_loop_unserved (Z.to_nat (100000 / limit options)) Hfail Hlimit
              (mkSweep [] true 0 None 0) st fuel) as [st' Hloop];
    try reflexivity.
  - unfold capped, uncapped in *. cbn [allItems length].
    destruct (maxItems options); [apply Z.leb_gt; exact Hcap|reflexivity].
  - cbn [offset]. lia.
  - cbn [offset]. rewrite Z.sub_0_r, Z2Nat.id; [reflexivity|].
    apply Z.div_pos; lia.
  - exists st'. unfold fetchAllInventoryItems, try_catch. rewrite Hloop. reflexivity.
Qed.

End SweepBounds.

Lemma sweep_gives_up_when_unserved_witness :
  exists st',
    Paginator.fetchAllInventoryItems Samples.unreachable Mock.sign Mock.base Paginator.defaultOptions 101
      (mkSt tt [] tt)
    = (Ok (if (Z.to_nat (100000 / Paginator.limit Paginator.defaultOptions) <? 101)%nat
           then Some [] else None), st').
Proof.
  apply (sweep_gives_up_when_unserved Samples.unreachable Mock.sign Mock.base
           Paginator.defaultOptions (fun c w => ex_intro _ _ (ex_intro _ w eq_refl))
           eq_refl I 101%nat (mkSt tt [] tt)).
Defined.

Section SweepCap.
Import Paginator.

Context {W X : Type}.
Variable axios : Config -> W -> Result Listing * W.
Variable sign : Val -> string -> Result string.
Variable baseUrl : string.
Variable options : Options.
Variable m : Z.

Hypothesis cap : maxItems options = Some m.
Hypothesis cap_nonneg : 0 <= m.

(** The upstream honours the [limit] of the query string. *)
Hypothesis honours :
  forall s w page w',
    capped options s = false ->
    axios (mkConfig "GET" (page_url baseUrl options s) Undefined 30000) w = (Ok page, w') ->
    Z.of_nat (length (page_items page)) <= itemsToFetch options s.

Lemma sweep_iteration_within_cap (s : Sweep) (st : St W X) step st' :
  Z.of_nat (length (allItems s)) <= m ->
  sweep_iteration axios sign baseUrl options s st = (Ok step, st') ->
  Z.of_nat (length (allItems (after step))) <= m.
Proof.
  intros Hlen. unfold sweep_iteration, try_catch.
  destruct (sweep_try axios sign baseUrl options s st) as [[step'|e] st1] eqn:T.
  2:{ unfold ret. intros [= <- _]. exact Hlen. }
  intros [= <- _]. revert T. unfold sweep_try.
  destruct (capped options s) eqn:Hcap.
  - unfold ret. intros [= <- _]. cbn [after allItems]. rewrite cap. cbn [default].
    unfold slice0, id. destruct (Z.ltb_spec m 0); [lia|].
    rewrite length_take. lia.
  - unfold bind at 1, lift at 1.
    destruct (sign (page_url baseUrl options s) "GET"); [|discriminate].
    unfold bind at 1.
    destruct (netsuiteRequest axios _ _) as [[page|e] st2] eqn:R; [|discriminate].
    destruct (request_served _ _ _ _ _ _ R) as (w & w' & A).
    pose proof (honours s w page w' Hcap A) as Hpage.
    assert (Hsum : Z.of_nat (length (allItems s ++ page_items page)) <= m).
    { rewrite length_app. unfold itemsToFetch in Hpage. rewrite cap in Hpage. lia. }
    unfold bind.
    destruct (page_hasMore page && _); unfold sleep, ret;
      intros [= <- _]; exact Hsum.
Qed.

Lemma sweep_loop_within_cap (fuel : nat) :
  forall (s : Sweep) (st : St W X) items st',
    Z.of_nat (length (allItems s)) <= m ->
    sweep_loop axios sign baseUrl options fuel s st = (Ok (Some items), st') ->
    Z.of_nat (length items) <= m.
Proof.
  induction fuel as [|fuel IH]; intros s st items st' Hlen; cbn [sweep_loop];
    destruct (hasMore s); cbn [negb]; unfold ret at 1;
    try (intros [= <- _]; exact Hlen); try discriminate.
  unfold bind at 1.
  destruct (sweep_iteration axios sign baseUrl options s st) as [[step|e] st1] eqn:It;
    [|discriminate].
  pose proof (sweep_iteration_within_cap s st step st1 Hlen It) as Hstep.
  destruct step as [s'|s']; cbn [after] in Hstep.
  - unfold ret. intros [= <- _]. exact Hstep.
  - apply IH. exact Hstep.
Qed.

(** X10.  With [maxItems = m] (m >= 0) and an upstream that never serves
    more items on a page than the [limit] of its query string asks for,
    [fetchAllInventoryItems] returns at most [m] items, however many pages
    fail or succeed. *)
Theorem sweep_respects_maxItems (fuel : nat) (st : St W X) items st' :
  fetchAllInventoryItems axios sign baseUrl options fuel st = (Ok (Some items), st') ->
  Z.of_nat (length items) <= m.
Proof.
  unfold fetchAllInventoryItems, try_catch.
  destruct (sweep_loop axios sign baseUrl options fuel _ st) as [[r|e] st1] eqn:L.
  - intros [= -> _]. eapply sweep_loop_within_cap; [|exact L].
    cbn [allItems length]. exact cap_nonneg.
  - unfold ret. intros [= <- _]. cbn [length]. exact cap_nonneg.
Qed.

End SweepCap.

Lemma sweep_respects_maxItems_witness :
  Z.of_nat (length [Number (int 7); Number (int 7)]) <= 2.
Proof.
  apply (sweep_respects_maxItems Samples.one_per_page Mock.sign Mock.base
           (Paginator.mkOptions 1000 (Some 2) 200) 2 eq_refl ltac:(lia)
           ltac:(intros s w page w' Hcap [= <- _];
                 unfold Paginator.itemsToFetch, Paginator.capped, Paginator.limit in *;
                 cbn in *; lia)
           5%nat (mkSt tt [] tt) _
           (snd (Paginator.fetchAllInventoryItems Samples.one_per_page Mock.sign Mock.base
                   (Paginator.mkOptions 1000 (Some 2) 200) 5 (mkSt tt [] tt)))).
  vm_compute. reflexivity.
Defined.

Lemma movement_map_joins_rows_witness :
  exists movementMap,
    Movement.build_map Mock.to_str
      (Obj [("item_id", Str "2"); ("moved_last_12_months", Str "0")]
       :: Obj [("item_id", Str "n/a"); ("moved_last_12_months", Str "1")]
       :: Mock.movement_rows) []
    = Ok movementMap
    /\ Movement.map_get (Number (int 2)) movementMap
       = Movement.row_entry
           <$> Movement.joined Mock.to_str 2
                 (Obj [("item_id", Str "2"); ("moved_last_12_months", Str "0")]
                  :: Obj [("item_id", Str "n/a"); ("moved_last_12_months", Str "1")]
                  :: Mock.movement_rows).
Proof. apply movement_map_joins_rows. repeat constructor. Defined.

(** * The service class *)

Section ServicePagination.
Import Service.

Variable sign : Val -> string -> Result string.
Variable encodeQueryString : list (string * Val) -> string.
Variable restApiUrl : string.
Variable query : string.

Hypothesis signs : forall url, exists h, sign url "GET" = Ok h.

Local Abbreviation run := (page_loop (X := unit) Mock.scripted sign encodeQueryString restApiUrl query).
Local Abbreviation log := (page_log encodeQueryString restApiUrl query).

(** The outcome that ends the loop: a failed request, or a page whose
    [hasMore] is falsy. *)
Lemma page_loop_stop (stop : Result Val) rest (fuel : nat) (s : Pages) t :
  truthy (hasMore s) = true ->
  match stop with
  | Ok last => truthy last = true /\ truthy (get_opt last "hasMore") = false
  | Throw _ => True
  end ->
  run (S fuel) s (mkSt (stop :: rest) t tt)
  = (Ok (Some (match stop with
               | Ok last => concat (allItems s) (get_opt last "items")
               | Throw _ => allItems s
               end)),
     mkSt rest (t ++ log (offset s) 0) tt).
Proof.
  intros Hmore Hstop. cbn [page_loop]. rewrite Hmore. cbn [negb].
  unfold bind at 1, try_catch at 1, page_try, getAllInventoryItems.
  unfold bind at 1, lift at 1.
  destruct (signs (listing_url encodeQueryString restApiUrl query 1000 (offset s)))
    as [h ->].
  unfold bind at 1, try_catch at 1, request, schedule. cbn [upstream Mock.scripted].
  destruct stop as [last|e].
  - destruct Hstop as [Hlast Hend].
    cbn [trace host]. unfold bind at 1, lift at 1.
    rewrite (get_truthy last "items" Hlast).
    unfold bind at 1, lift at 1. rewrite (get_truthy last "hasMore" Hlast).
    unfold bind at 1. rewrite Hend. unfold ret at 1. unfold ret at 1.
    destruct fuel; cbn [page_loop hasMore allItems]; rewrite Hend; reflexivity.
  - cbn [trace host]. unfold throw, ret at 1.
    destruct fuel; cbn [page_loop hasMore truthy negb allItems]; reflexivity.
Qed.

Lemma page_loop_pages (pages : list Val) (stop : Result Val) rest :
  Forall (fun page => truthy page = true /\ truthy (get_opt page "hasMore") = true)
         pages ->
  match stop with
  | Ok last => truthy last = true /\ truthy (get_opt last "hasMore") = false
  | Throw _ => True
  end ->
  forall (fuel : nat) (s : Pages) t,
    (length pages < fuel)%nat ->
    truthy (hasMore s) = true ->
    run fuel s (mkSt (map Ok pages ++ stop :: rest) t tt)
    = (Ok (Some (fold_left concat
                   (map (fun page => get_opt page "items")
                        (pages ++ match stop with Ok last => [last] | Throw _ => [] end))
                   (allItems s))),
       mkSt rest (t ++ log (offset s) (length pages)) tt).
Proof.
  intros Hpages Hstop. induction Hpages as [|page pages [Hpage Hnext] _ IH];
    intros fuel s t Hfuel Hmore.
  - destruct fuel as [|fuel]; [cbn in Hfuel; lia|].
    cbn [map app length]. rewrite (page_loop_stop stop rest fuel s t Hmore Hstop).
    destruct stop; reflexivity.
  - destruct fuel as [|fuel]; [cbn in Hfuel; lia|].
    cbn [map app length page_loop]. rewrite Hmore. cbn [negb].
    unfold bind at 1, try_catch at 1, page_try, getAllInventoryItems.
    unfold bind at 1, lift at 1.
    destruct (signs (listing_url encodeQueryString restApiUrl query 1000 (offset s)))
      as [h ->].
    unfold bind at 1, try_catch at 1, request, schedule. cbn [upstream Mock.scripted].
    cbn [trace host]. unfold bind at 1, lift at 1.
    rewrite (get_truthy page "items" Hpage).
    unfold bind at 1, lift at 1. rewrite (get_truthy page "hasMore" Hpage).
    unfold bind at 1. rewrite Hnext. unfold sleep at 1. cbn [upstream trace host].
    unfold ret at 1.
    rewrite IH by (cbn [hasMore]; first [exact Hnext | cbn in Hfuel; lia]).
    cbn [allItems offset fold_left page_log]. rewrite <- !app_assoc. reflexivity.
Qed.


End ServicePagination.


Section ServiceBatches.
Import Service.

Context {W X : Type}.
Variable fetch : Val -> M W X Val.
Variable pause : Z.

Lemma attempt_all_outcomes (batch : list Val) :
  forall st, exists batchResults st',
    attempt_all fetch batch st = (Ok batchResults, st')
    /\ Forall2 reports batch batchResults.
Proof.
  induction batch as [|itemId batch IH]; intros st; cbn [attempt_all].
  - eexists _, _. split; [reflexivity | constructor].
  - unfold bind at 1, attempt, try_catch. unfold bind at 1.
    destruct (fetch itemId st) as [[item|e] st1]; unfold ret at 1;
      destruct (IH st1) as (results & st2 & Hrest & Hall);
      unfold bind; rewrite Hrest; eexists _, _;
      (split; [reflexivity | constructor; [exact I || reflexivity | exact Hall]]).
Qed.

Lemma collect_partition (batch : list Val) (batchResults : list Outcome) :
  Forall2 reports batch batchResults ->
  forall acc,
    (length (fst (collect batchResults acc)) + length (snd (collect batchResults acc))
     = length (fst acc) + length (snd acc) + length batch)%nat
    /\ exists failed,
         map fst (snd (collect batchResults acc)) = map fst (snd acc) ++ failed
         /\ sublist failed batch.
Proof.
  unfold collect.
  induction 1 as [|itemId result batch batchResults Hone _ IH]; intros acc;
    cbn [fold_left length].
  - split; [lia|]. exists []. rewrite app_nil_r. split; [reflexivity | constructor].
  - destruct result as [data|failed error]; cbn [reports] in Hone.
    + destruct (IH (fst acc ++ [data], snd acc)) as (Hlen & failed & Hmap & Hsub).
      cbn [fst snd] in *. rewrite length_app in Hlen. cbn [length] in Hlen.
      split; [lia|]. exists failed. split; [exact Hmap | constructor; exact Hsub].
    + subst failed.
      destruct (IH (fst acc, snd acc ++ [(itemId, error)])) as (Hlen & failed & Hmap & Hsub).
      cbn [fst snd] in *. rewrite length_app in Hlen. cbn [length] in Hlen.
      split; [lia|]. exists (itemId :: failed). split.
      * rewrite Hmap, map_app, <- app_assoc. reflexivity.
      * constructor. exact Hsub.
Qed.

Lemma slice_within (l : list Val) (i b : Z) :
  0 <= i < Z.of_nat (length l) -> 0 < b ->
  slice l i (i + b) = take (Z.to_nat b) (drop (Z.to_nat i) l).
Proof.
  intros Hi Hb. unfold slice, clamp.
  destruct (Z.ltb_spec i 0); [lia|]. destruct (Z.ltb_spec (i + b) 0); [lia|].
  rewrite (Z.min_l i) by lia.
  destruct (Z.le_gt_cases (i + b) (Z.of_nat (length l))).
  - rewrite Z.min_l by lia. f_equal. lia.
  - rewrite Z.min_r by lia.
    rewrite !take_ge; [reflexivity | rewrite length_drop; lia | rewrite length_drop; lia].
Qed.

Lemma take_plus (l : list Val) (n m : nat) :
  take (n + m) l = take n l ++ take m (drop n l).
Proof.
  revert l. induction n as [|n IH]; intros l; [reflexivity|].
  destruct l as [|x l]; cbn [Nat.add take drop app].
  - destruct m; reflexivity.
  - rewrite IH. reflexivity.
Qed.

Lemma batch_loop_partition (itemIds : list Val) (batchSize : Z) :
  0 < batchSize ->
  forall (fuel : nat) (i : Z) acc st,
    0 <= i ->
    Z.of_nat (length itemIds) - i <= Z.of_nat fuel ->
    (length (fst acc) + length (snd acc) = Nat.min (Z.to_nat i) (length itemIds))%nat ->
    sublist (map fst (snd acc)) (take (Z.to_nat i) itemIds) ->
    exists results errors st',
      batch_loop fetch pause itemIds batchSize fuel i acc st
      = (Ok (Some (results, errors)), st')
      /\ (length results + length errors = length itemIds)%nat
      /\ sublist (map fst errors) itemIds.
Proof.
  intros Hsize. induction fuel as [|fuel IH]; intros i acc st Hi Hfuel Hlen Hsub.
  - cbn [batch_loop]. destruct (Z.ltb_spec i (Z.of_nat (length itemIds))); [lia|].
    cbn [negb]. destruct acc as [results errors]. eexists _, _, _.
    split; [reflexivity|]. cbn [fst snd] in *. split; [lia|].
    rewrite take_ge in Hsub by lia. exact Hsub.
  - cbn [batch_loop]. destruct (Z.ltb_spec i (Z.of_nat (length itemIds))) as [Hin|Hout];
      cbn [negb].
    2:{ destruct acc as [results errors]. eexists _, _, _.
        split; [reflexivity|]. cbn [fst snd] in *. split; [lia|].
        rewrite take_ge in Hsub by lia. exact Hsub. }
    rewrite (slice_within itemIds i batchSize) by lia.
    destruct (attempt_all_outcomes (take (Z.to_nat batchSize) (drop (Z.to_nat i) itemIds)) st)
      as (batchResults & st1 & Hbatch & Hall).
    unfold bind at 1. rewrite Hbatch.
    destruct (collect_partition _ _ Hall acc) as (Hlen' & failed & Hmap & Hfailed).
    rewrite length_take, length_drop in Hlen'.
    assert (Hnext : forall st2,
               exists results errors st',
                 batch_loop fetch pause itemIds batchSize fuel (i + batchSize)
                            (collect batchResults acc) st2
                 = (Ok (Some (results, errors)), st')
                 /\ (length results + length errors = length itemIds)%nat
                 /\ sublist (map fst errors) itemIds).
    { intros st2. apply IH; [lia | lia | lia |].
      rewrite Hmap. replace (Z.to_nat (i + batchSize))
        with (Z.to_nat i + Z.to_nat batchSize)%nat by lia.
      rewrite take_plus. apply sublist_app; assumption. }
    unfold bind.
    destruct (i + batchSize <? Z.of_nat (length itemIds)); unfold sleep, ret;
      apply Hnext.
Qed.

End ServiceBatches.

(** X14.  [batchGetItems] and [batchGetItemsWithPrice] account for every
    identifier: for a batch size of at least 1 the loop ends without
    throwing, whatever the upstream answers, and every identifier ends up
    either with its record in [results] or with its message in [errors];
    the failed identifiers are listed in the order they were given. *)
Theorem service_batches_partition
        {W X : Type} (axios : Config -> W -> Result Val * W)
        (sign : Val -> string -> Result string) (restApiUrl : string)
        (to_str : Val -> string)
        (itemIds : list Val) (batchSize : Z) (fuel : nat) (st : St W X) :
  0 < batchSize ->
  (length itemIds <= fuel)%nat ->
  (exists results errors st',
      Service.batchGetItems axios sign restApiUrl to_str itemIds batchSize fuel st
      = (Ok (Some (results, errors)), st')
      /\ (length results + length errors = length itemIds)%nat
      /\ sublist (map fst errors) itemIds)
  /\ (exists results errors st',
        Service.batchGetItemsWithPrice axios sign restApiUrl to_str itemIds batchSize
          fuel st
        = (Ok (Some (results, errors)), st')
        /\ (length results + length errors = length itemIds)%nat
        /\ sublist (map fst errors) itemIds).
Proof.
  intros Hsize Hfuel.
  split; apply batch_loop_partition;
    first [exact Hsize | lia | reflexivity | constructor].
Qed.

Lemma service_batches_partition_witness :
  exists results errors st',
    Service.batchGetItems (Mock.routed Samples.service_route) Mock.sign
      "https://upstream" Mock.to_str [Str "1"; Str "2"; Str "3"] 2 3 (mkSt tt [] tt)
    = (Ok (Some (results, errors)), st')
    /\ (length results + length errors = length [Str "1"; Str "2"; Str "3"])%nat
    /\ sublist (map fst errors) [Str "1"; Str "2"; Str "3"].
Proof.
  apply (proj1 (service_batches_partition (Mock.routed Samples.service_route) Mock.sign
                  "https://upstream" Mock.to_str [Str "1"; Str "2"; Str "3"] 2 3
                  (mkSt tt [] tt) ltac:(lia) ltac:(cbn; lia))).
Defined.

Section ServicePrices.
Import Service.

Context {X : Type}.
Variable route : Val -> Result Val.
Variable sign : Val -> string -> Result string.
Variable restApiUrl : string.
Variable to_str : Val -> string.

Hypothesis signs : forall url, exists h, sign url "GET" = Ok h.

Local Abbreviation axios := (Mock.routed route).
Local Abbreviation LPCP := (PriceRule.named "LPCP (HKD)").
Local Abbreviation EP := (PriceRule.named "EP Price (EUR)").

Lemma get_defined (x : Val) (k : string) :
  x <> Null -> x <> Undefined -> get x k = Ok (get_opt x k).
Proof.
  intros Hnull Hundef. unfold get_opt.
  destruct x; try congruence; cbn [get]; try reflexivity.
  destruct (String.eqb k "length"); reflexivity.
Qed.

Lemma guarded_href_returns (x : Val) :
  x <> Null -> x <> Undefined -> exists h, guarded_href x = Ok h.
Proof.
  intros Hnull Hundef. unfold guarded_href.
  rewrite (get_defined x "links" Hnull Hundef). cbn [rbind].
  destruct (truthy (get_opt x "links")) eqn:T1; cbn [negb]; [|eexists; reflexivity].
  rewrite (get_truthy _ "0" T1). cbn [rbind].
  destruct (truthy (get_opt (get_opt x "links") "0")) eqn:T2; cbn [negb];
    [|eexists; reflexivity].
  rewrite (get_truthy _ "href" T2). cbn [rbind]. eexists; reflexivity.
Qed.

Lemma is_str_falsy (s : string) (v : Val) :
  s <> EmptyString -> truthy v = false -> is_str s v = false.
Proof.
  intros Hs T. destruct v; try reflexivity. cbn [is_str].
  destruct (String.eqb_spec s0 s) as [->|]; [|reflexivity].
  destruct s; [congruence | discriminate T].
Qed.

Lemma level_price_falsy (d : Val) :
  truthy d = false -> PriceRule.level_price d = zero.
Proof.
  intros T. unfold PriceRule.level_price, get_opt.
  destruct d; try discriminate T; reflexivity.
Qed.

Lemma getPriceDetails_routed (url : Val) (st : St unit X) :
  exists st',
    getPriceDetails axios sign url st
    = (Ok (match route url with Ok d => d | Throw _ => Null end), st').
Proof.
  unfold getPriceDetails, bind, lift. destruct (signs url) as [h ->].
  unfold try_catch, request, schedule, Mock.routed. cbn [cfg_url].
  destruct (route url); eexists; reflexivity.
Qed.

Lemma getItemPrices_routed (itemId : Val) (st : St unit X) :
  exists st',
    getItemPrices axios sign restApiUrl to_str itemId st
    = (Ok (match route (Str (item_url restApiUrl to_str itemId ++ "/price")) with
           | Ok d => d
           | Throw _ => Null
           end), st').
Proof.
  unfold getItemPrices, bind, lift.
  destruct (signs (Str (item_url restApiUrl to_str itemId ++ "/price"))) as [h ->].
  unfold try_catch, request, schedule, Mock.routed. cbn [cfg_url].
  destruct (route _); eexists; reflexivity.
Qed.

(** One turn of the loop, in terms of the detail it sees. *)
Lemma choose_loop_turn (priceItem : Val) (rest : list Val) (st : Chosen)
      (s0 : St unit X) :
  priceItem <> Null -> priceItem <> Undefined ->
  exists s1,
    choose_loop axios sign (priceItem :: rest) st s0
    = if LPCP (seen route priceItem)
      then (Ok (mkChosen (PriceRule.level_price (seen route priceItem)) "HKD" true), s1)
      else if EP (seen route priceItem) && negb (hasPrice st)
           then choose_loop axios sign rest
                  (mkChosen (PriceRule.level_price (seen route priceItem)) "EUR" true) s1
           else choose_loop axios sign rest st s1.
Proof.
  intros Hnull Hundef. cbn [choose_loop]. unfold bind at 1, lift at 1, seen.
  destruct (guarded_href_returns priceItem Hnull Hundef) as [[url|] ->];
    [|exists s0; reflexivity].
  unfold bind at 1. destruct (getPriceDetails_routed url s0) as [s1 ->].
  exists s1. set (d := match route url with Ok d => d | Throw _ => Null end).
  unfold PriceRule.named, PriceRule.level_price.
  destruct (truthy d) eqn:T; cbn [negb andb]; [|reflexivity].
  unfold bind at 1, lift at 1. rewrite (get_truthy d "priceLevelName" T).
  destruct (truthy (get_opt d "priceLevelName")) eqn:Tn; cbn [negb].
  2:{ rewrite (is_str_falsy "LPCP (HKD)" _ ltac:(discriminate) Tn),
        (is_str_falsy "EP Price (EUR)" _ ltac:(discriminate) Tn).
      reflexivity. }
  destruct (is_str "LPCP (HKD)" (get_opt d "priceLevelName")).
  { unfold bind, lift, ret. rewrite (get_truthy d "price" T). reflexivity. }
  destruct (is_str "EP Price (EUR)" (get_opt d "priceLevelName")); [|reflexivity].
  destruct (hasPrice st); cbn [negb]; [reflexivity|].
  unfold bind, lift. rewrite (get_truthy d "price" T). reflexivity.
Qed.

Lemma choose_loop_primary (items : list Val) (d : Val) :
  Forall (fun x => x <> Null /\ x <> Undefined) items ->
  List.find LPCP (map (seen route) items) = Some d ->
  forall (st : Chosen) (s0 : St unit X),
    exists s1, choose_loop axios sign items st s0
               = (Ok (mkChosen (PriceRule.level_price d) "HKD" true), s1).
Proof.
  induction 1 as [|priceItem rest [Hnull Hundef] _ IH]; intros Hfind st s0;
    [discriminate|].
  cbn [map List.find] in Hfind.
  destruct (choose_loop_turn priceItem rest st s0 Hnull Hundef) as [s1 ->].
  destruct (LPCP (seen route priceItem)).
  - injection Hfind as <-. exists s1. reflexivity.
  - destruct (EP (seen route priceItem) && negb (hasPrice st)); apply (IH Hfind).
Qed.

Lemma choose_loop_fallback (items : list Val) :
  Forall (fun x => x <> Null /\ x <> Undefined) items ->
  List.find LPCP (map (seen route) items) = None ->
  forall (st : Chosen) (s0 : St unit X),
    exists s1, choose_loop axios sign items st s0
               = (Ok (if hasPrice st then st
                      else match List.find EP (map (seen route) items) with
                           | Some d => mkChosen (PriceRule.level_price d) "EUR" true
                           | None => st
                           end), s1).
Proof.
  induction 1 as [|priceItem rest [Hnull Hundef] _ IH]; intros Hfind st s0.
  - exists s0. cbn. destruct (hasPrice st); reflexivity.
  - cbn [map List.find] in *.
    destruct (choose_loop_turn priceItem rest st s0 Hnull Hundef) as [s1 ->].
    destruct (LPCP (seen route priceItem)); [discriminate|].
    destruct (hasPrice st) eqn:Hhas; cbn [negb andb].
    + rewrite Bool.andb_false_r. destruct (IH Hfind st s1) as [s2 ->].
      rewrite Hhas. exists s2. reflexivity.
    + rewrite Bool.andb_true_r. destruct (EP (seen route priceItem)).
      * destruct (IH Hfind (mkChosen (PriceRule.level_price (seen route priceItem))
                                      "EUR" true) s1) as [s2 ->].
        exists s2. reflexivity.
      * destruct (IH Hfind st s1) as [s2 ->]. rewrite Hhas. exists s2. reflexivity.
Qed.

Lemma first_available_routed (x : Val) (rest : list Val) (st : Chosen)
      (s0 : St unit X) :
  x <> Null -> x <> Undefined -> finalPrice st = zero ->
  exists s1,
    first_available axios sign (Arr (x :: rest)) st s0
    = (Ok (PriceRule.level_price (seen route x)), s1).
Proof.
  intros Hnull Hundef Hzero. unfold first_available, seen.
  unfold bind at 1, lift at 1. cbn [get member String.eqb Ascii.eqb Bool.eqb].
  change (index_of_key "0") with (Some 0%nat). cbn [nth_error].
  unfold bind at 1, lift at 1.
  destruct (guarded_href_returns x Hnull Hundef) as [[url|] ->].
  - unfold bind at 1. destruct (getPriceDetails_routed url s0) as [s1 ->].
    exists s1. set (d := match route url with Ok d => d | Throw _ => Null end).
    destruct (truthy d) eqn:T.
    + unfold bind, lift, ret. rewrite (get_truthy d "price" T), Hzero. reflexivity.
    + unfold ret. rewrite (level_price_falsy d T), Hzero. reflexivity.
  - exists s0. unfold ret. rewrite Hzero. reflexivity.
Qed.


End ServicePrices.


Section ServiceRecords.
Import Service.

Context {W X : Type}.
Variable axios : Config -> W -> Result Val * W.
Variable sign : Val -> string -> Result string.
Variable restApiUrl : string.
Variable to_str : Val -> string.

Local Abbreviation known := (fun c : string => c = "HKD" \/ c = "EUR").

Ltac peel H :=
  let a := fresh "a" in
  let s := fresh "s" in
  let Ha := fresh "Ha" in
  apply bind_ok in H; destruct H as (a & s & Ha & H).

Lemma choose_loop_known (items : list Val) :
  forall (st : Chosen) (s0 : St W X) r s1,
    choose_loop axios sign items st s0 = (Ok r, s1) ->
    known (finalCurrency st) -> known (finalCurrency r).
Proof.
  induction items as [|priceItem rest IH]; intros st s0 r s1 H Hknown;
    cbn [choose_loop] in H.
  - injection H as <- _. exact Hknown.
  - peel H. destruct a as [url|]; [|exact (IH _ _ _ _ H Hknown)].
    peel H. destruct (truthy a); cbn [negb] in H; [|exact (IH _ _ _ _ H Hknown)].
    peel H. destruct (truthy a0); cbn [negb] in H; [|exact (IH _ _ _ _ H Hknown)].
    destruct (is_str "LPCP (HKD)" a0).
    { peel H. injection H as <- _. left. reflexivity. }
    destruct (is_str "EP Price (EUR)" a0); [|exact (IH _ _ _ _ H Hknown)].
    destruct (hasPrice st); cbn [negb] in H; [exact (IH _ _ _ _ H Hknown)|].
    peel H. apply (IH _ _ _ _ H). right. reflexivity.
Qed.

Lemma extractPriceAndCurrency_returns (itemId : Val) (st : St W X) :
  exists p c st',
    extractPriceAndCurrency axios sign restApiUrl to_str itemId st
    = (Ok (priceAndCurrency p (Str c)), st')
    /\ known c.
Proof.
  unfold extractPriceAndCurrency, try_catch.
  match goal with |- context [match ?body st with _ => _ end] =>
    destruct (body st) as [[r|e] s1] eqn:H
  end.
  2:{ eexists zero, "HKD", _. split; [reflexivity | left; reflexivity]. }
  assert (Hdefault : forall s, ret (W := W) (X := X) (priceAndCurrency zero (Str "HKD")) s
                               = (Ok r, s1) ->
            exists p c st', (Ok r, s1) = (Ok (priceAndCurrency p (Str c)), st') /\ known c).
  { intros s [= <- <-]. eexists zero, "HKD", _. split; [reflexivity | left; reflexivity]. }
  peel H. destruct (truthy a); cbn [negb] in H; [|exact (Hdefault _ H)].
  peel H. destruct (truthy a0); cbn [negb] in H; [|exact (Hdefault _ H)].
  peel H. destruct (is_zero a1); [exact (Hdefault _ H)|].
  peel H. peel H. peel H. injection H as <- <-.
  eexists _, _, _. split; [reflexivity|].
  apply (choose_loop_known _ _ _ _ _ Ha3). left. reflexivity.
Qed.

(** X16.  A price lookup never loses an item.  [getInventoryItemByIdWithPrice]
    throws exactly when the item itself cannot be fetched (the error of
    [getInventoryItemById], or "Failed to fetch item ..." for an empty
    answer); otherwise it returns the item with a [priceData] member of the
    form [{ price, currency }] whose currency is "HKD" or "EUR", whatever
    the price requests answer. *)
Theorem service_item_with_price (itemId : Val) (st : St W X) :
  match getInventoryItemById axios sign restApiUrl to_str itemId st with
  | (Ok itemData, s1) =>
      if truthy itemData then
        exists p c st',
          getInventoryItemByIdWithPrice axios sign restApiUrl to_str itemId st
          = (Ok (Obj (set_field "priceData" (priceAndCurrency p (Str c))
                                (spread itemData))), st')
          /\ (c = "HKD" \/ c = "EUR")
      else
        getInventoryItemByIdWithPrice axios sign restApiUrl to_str itemId st
        = (Throw (mkExn None ("Failed to fetch item " ++ to_str itemId)), s1)
  | (Throw e, s1) =>
      getInventoryItemByIdWithPrice axios sign restApiUrl to_str itemId st
      = (Throw e, s1)
  end.
Proof.
  destruct (getInventoryItemById axios sign restApiUrl to_str itemId st)
    as [[itemData|e] s1] eqn:Hitem.
  - destruct (truthy itemData) eqn:T.
    + destruct (extractPriceAndCurrency_returns itemId s1)
        as (p & c & s2 & Hfound & Hc).
      exists p, c, s2. split; [|exact Hc].
      unfold getInventoryItemByIdWithPrice, try_catch. unfold bind at 1.
      rewrite Hitem, T. cbn [negb]. unfold bind at 1. rewrite Hfound. reflexivity.
    + unfold getInventoryItemByIdWithPrice, try_catch. unfold bind at 1.
      rewrite Hitem, T. reflexivity.
  - unfold getInventoryItemByIdWithPrice, try_catch. unfold bind at 1.
    rewrite Hitem. reflexivity.
Qed.

End ServiceRecords.
